(** * iconmaker: recolouring, canvas normalisation and bundle icon lookup

    A shallow embedding of [iconmaker.py].  Pixel data are integers in
    [0..255] held in [Z]; Python floats are IEEE binary64 and are modelled
    by Rocq's primitive floats, which are the same format with the same
    round-to-nearest-even operations; exceptions are an explicit [result]
    type; the file system and the print/save side effects are an explicit
    world record and an event trace. *)

From Stdlib Require Import ZArith List String Ascii Bool Lia Floats Uint63.
Import ListNotations.
Open Scope Z_scope.

(** ** Exceptions and fallible computations *)

Inductive exn : Type :=
| ValueError
| OverflowError
| AttributeError
| TypeError
| OSError
| ZeroDivisionError
| InvalidFileException.

Inductive result (A : Type) : Type :=
| Ok (a : A)
| Raise (e : exn).
Arguments Ok {A} a.
Arguments Raise {A} e.

Definition rbind {A B : Type} (r : result A) (k : A -> result B) : result B :=
  match r with
  | Ok a => k a
  | Raise e => Raise e
  end.

Declare Scope result_scope.
Delimit Scope result_scope with result.
Notation "x <- c1 ;; c2" := (rbind c1 (fun x => c2))
  (at level 61, c1 at next level, right associativity) : result_scope.
Notation "' pat <- c1 ;; c2" := (rbind c1 (fun x => match x with pat => c2 end))
  (at level 61, pat pattern, c1 at next level, right associativity) : result_scope.

Definition is_ok {A : Type} (r : result A) : bool :=
  match r with Ok _ => true | Raise _ => false end.

(** [for i in range(n): s = body(i, s)], stopping at the first exception. *)
Fixpoint for_from {S : Type} (n : nat) (i : Z) (body : Z -> S -> result S) (s : S)
  : result S :=
  match n with
  | O => Ok s
  | Datatypes.S n' =>
      match body i s with
      | Ok s' => for_from n' (i + 1) body s'
      | Raise e => Raise e
      end
  end.

Definition for_range {S : Type} (n : Z) (body : Z -> S -> result S) (s : S) : result S :=
  for_from (Z.to_nat n) 0 body s.

(** ** Python floats *)

Module PyFloat.

(** [float(z)] for a Python int below [2^63] in magnitude (exact below
    [2^53]; every integer converted in this program is far smaller). *)
Definition of_int (z : Z) : float :=
  if z <? 0 then PrimFloat.opp (PrimFloat.of_uint63 (Uint63.of_Z (- z)))
  else PrimFloat.of_uint63 (Uint63.of_Z z).

(** [int(x)]: truncation toward zero; [OverflowError] on an infinity and
    [ValueError] on a NaN. *)
Definition to_int (x : float) : result Z :=
  match Prim2SF x with
  | S754_zero _ => Ok 0
  | S754_finite s m e =>
      let a := Z.shiftl (Zpos m) e in
      Ok (if s then - a else a)
  | S754_infinity _ => Raise OverflowError
  | S754_nan => Raise ValueError
  end.

(** [min(a, b)] and [max(a, b, c)], [min(a, b, c)] as the builtins compute
    them: the first argument is kept unless a later one compares strictly
    smaller (resp. greater). *)
Definition min2 (a b : float) : float :=
  if PrimFloat.ltb b a then b else a.

Definition max3 (a b c : float) : float :=
  let m := if PrimFloat.ltb a b then b else a in
  if PrimFloat.ltb m c then c else m.

Definition min3 (a b c : float) : float :=
  let m := if PrimFloat.ltb b a then b else a in
  if PrimFloat.ltb c m then c else m.

(** [x / y]: [ZeroDivisionError] on a zero divisor. *)
Definition div (x y : float) : result float :=
  if PrimFloat.eqb y 0%float then Raise ZeroDivisionError
  else Ok (PrimFloat.div x y).

(** C's [fmod(x, 1.0)]: [x - trunc(x)], which is exact; a float of
    magnitude [2^53] or more is an integer; NaN on a NaN or an infinity. *)
Definition fmod1 (x : float) : float :=
  match to_int x with
  | Ok t =>
      if Z.abs t <? 2 ^ 53 then PrimFloat.sub x (of_int t)
      else PrimFloat.mul x 0%float
  | Raise _ => PrimFloat.nan
  end.

(** [x % 1.0]: a nonzero remainder takes the sign of the divisor, a zero
    one is returned as [+0.0]. *)
Definition mod1 (x : float) : float :=
  let m := fmod1 x in
  if PrimFloat.eqb m 0%float then 0%float
  else if PrimFloat.ltb m 0%float then PrimFloat.add m 1%float
  else m.

End PyFloat.

(** ** The [colorsys] conversions used by the hue shift *)

Module colorsys.

Definition hsv : Type := (float * float * float)%type.

Definition rgb_to_hsv (r g b : float) : result hsv :=
  let maxc := PyFloat.max3 r g b in
  let minc := PyFloat.min3 r g b in
  let rangec := PrimFloat.sub maxc minc in
  let v := maxc in
  if PrimFloat.eqb minc maxc then Ok (0%float, 0%float, v)
  else
    (s <- PyFloat.div rangec maxc ;;
     rc <- PyFloat.div (PrimFloat.sub maxc r) rangec ;;
     gc <- PyFloat.div (PrimFloat.sub maxc g) rangec ;;
     bc <- PyFloat.div (PrimFloat.sub maxc b) rangec ;;
     let h :=
       if PrimFloat.eqb r maxc then PrimFloat.sub bc gc
       else if PrimFloat.eqb g maxc
            then PrimFloat.sub (PrimFloat.add 2%float rc) bc
            else PrimFloat.sub (PrimFloat.add 4%float gc) rc in
     let h := PyFloat.mod1 (PrimFloat.div h 6%float) in
     Ok (h, s, v))%result.

Definition hsv_to_rgb (h s v : float) : result (float * float * float) :=
  if PrimFloat.eqb s 0%float then Ok (v, v, v)
  else
    (i <- PyFloat.to_int (PrimFloat.mul h 6%float) ;;
     let f := PrimFloat.sub (PrimFloat.mul h 6%float) (PyFloat.of_int i) in
     let p := PrimFloat.mul v (PrimFloat.sub 1%float s) in
     let q := PrimFloat.mul v (PrimFloat.sub 1%float (PrimFloat.mul s f)) in
     let t := PrimFloat.mul v
                (PrimFloat.sub 1%float
                   (PrimFloat.mul s (PrimFloat.sub 1%float f))) in
     let i := i mod 6 in
     if i =? 0 then Ok (v, t, p)
     else if i =? 1 then Ok (q, v, p)
     else if i =? 2 then Ok (p, v, t)
     else if i =? 3 then Ok (p, q, v)
     else if i =? 4 then Ok (t, p, v)
     else Ok (v, p, q))%result.

End colorsys.

(** ** Python strings *)

Module PyStr.

Definition code (c : ascii) : Z := Z.of_N (N_of_ascii c).

(** The whitespace [int()] strips from ASCII text: tab, line feed,
    vertical tab, form feed, carriage return and space. *)
Definition is_space (c : ascii) : bool :=
  let n := code c in
  ((9 <=? n) && (n <=? 13)) || (n =? 32).

Definition hex_digit (c : ascii) : option Z :=
  let n := code c in
  if (48 <=? n) && (n <=? 57) then Some (n - 48)
  else if (97 <=? n) && (n <=? 102) then Some (n - 87)
  else if (65 <=? n) && (n <=? 70) then Some (n - 55)
  else None.

Fixpoint lstrip (l : list ascii) : list ascii :=
  match l with
  | c :: r => if is_space c then lstrip r else l
  | [] => []
  end.

Definition strip (l : list ascii) : list ascii :=
  rev (lstrip (rev (lstrip l))).

(** The digit run of an integer literal: hexadecimal digits, single
    underscores allowed between them only. *)
Fixpoint digit_run (acc : Z) (after_underscore : bool) (l : list ascii)
  : option Z :=
  match l with
  | [] => if after_underscore then None else Some acc
  | c :: r =>
      if Ascii.eqb c "_"%char then
        if after_underscore then None else digit_run acc true r
      else
        match hex_digit c with
        | Some d => digit_run (16 * acc + d) false r
        | None => None
        end
  end.

(** [int(s, 16)]: surrounding whitespace, an optional sign, an optional
    [0x] prefix (one underscore may follow it), then the digit run. *)
Definition int16 (s : string) : result Z :=
  let l := strip (list_ascii_of_string s) in
  let '(neg, l1) :=
    match l with
    | "+"%char :: r => (false, r)
    | "-"%char :: r => (true, r)
    | _ => (false, l)
    end in
  let l2 :=
    match l1 with
    | "0"%char :: x :: r =>
        if Ascii.eqb x "x"%char || Ascii.eqb x "X"%char then
          match r with
          | "_"%char :: r' => r'
          | _ => r
          end
        else l1
    | _ => l1
    end in
  match l2 with
  | [] => Raise ValueError
  | c :: _ =>
      if Ascii.eqb c "_"%char then Raise ValueError
      else
        match digit_run 0 false l2 with
        | Some n => Ok (if neg then - n else n)
        | None => Raise ValueError
        end
  end.

(** [s[i:j]] for [0 <= i <= j]. *)
Definition slice (s : string) (i j : nat) : string := substring i (j - i) s.

Definition lower_char (c : ascii) : ascii :=
  let n := code c in
  if (65 <=? n) && (n <=? 90) then ascii_of_N (Z.to_N (n + 32)) else c.

(** [str.lower] (on ASCII text). *)
Fixpoint lower (s : string) : string :=
  match s with
  | EmptyString => EmptyString
  | String c r => String (lower_char c) (lower r)
  end.

Definition startswith (s p : string) : bool := prefix p s.

Definition endswith (s suffix : string) : bool :=
  let n := String.length s in
  let k := String.length suffix in
  (k <=? n)%nat && String.eqb (substring (n - k) k s) suffix.

(** Truth value of a string: non-empty. *)
Definition truthy (s : string) : bool :=
  match s with EmptyString => false | _ => true end.

End PyStr.

(** ** [os.path] (POSIX flavour) *)

Module os_path.

Definition join2 (path b : string) : string :=
  if PyStr.startswith b "/" then b
  else if negb (PyStr.truthy path) || PyStr.endswith path "/" then path ++ b
  else path ++ "/" ++ b.

(** [os.path.join(a, *p)]: an absolute component discards what precedes
    it; otherwise components are joined by exactly one separator. *)
Definition join (a : string) (p : list string) : string :=
  fold_left join2 p a.

End os_path.

(** ** Image buffers *)

Record pixel : Type := RGBA { red : Z; green : Z; blue : Z; alpha : Z }.

(** A band or pixel grid addressed as [grid x y]. *)
Definition raster (A : Type) : Type := Z -> Z -> A.

Record image : Type := Image { width : Z; height : Z; px : raster pixel }.

Definition rgb : Type := (Z * Z * Z)%type.

Definition is_byte (c : Z) : bool := (0 <=? c) && (c <=? 255).

Definition valid_pixel (p : pixel) : bool :=
  is_byte (red p) && is_byte (green p) && is_byte (blue p) && is_byte (alpha p).

Definition in_bounds (im : image) (x y : Z) : Prop :=
  0 <= x < width im /\ 0 <= y < height im.

(** Every stored channel is a byte: the invariant of an 8-bit buffer. *)
Definition valid_image (im : image) : Prop :=
  forall x y, in_bounds im x y -> valid_pixel (px im x y) = true.

(** Two buffers of the same size holding the same pixels. *)
Definition same_image (a b : image) : Prop :=
  width a = width b /\ height a = height b /\
  forall x y, in_bounds a x y -> px a x y = px b x y.

Definition rgb_of (p : pixel) : rgb := (red p, green p, blue p).

Definition clip8 (c : Z) : Z := Z.max 0 (Z.min 255 c).

(** [grid[x, y] = v] *)
Definition putpixel {A : Type} (grid : raster A) (x y : Z) (v : A) : raster A :=
  fun x' y' => if (x' =? x) && (y' =? y) then v else grid x' y'.

(** *** The imaging library

    These are Pillow's operations, which the program calls and does not
    define.  Images are kept in their RGBA form, on which
    [convert("RGBA")] is a copy. *)

Module PIL.

Definition convert_RGBA (im : image) : image := im.

(** [im.getchannel("A")] *)
Definition getchannel_A (im : image) : raster Z :=
  fun x y => alpha (px im x y).

(** [im.convert("RGB")]: the alpha band is dropped. *)
Definition convert_RGB (im : image) : raster rgb :=
  fun x y => rgb_of (px im x y).

(** [rgb.convert("RGBA")] followed by [putalpha(band)]. *)
Definition with_alpha (w h : Z) (colors : raster rgb) (band : raster Z) : image :=
  Image w h (fun x y =>
               let '(r, g, b) := colors x y in RGBA r g b (band x y)).

(** Modelled from the spec: a colour descriptor is a 6-hex-digit RGB
    triple, [#RRGGBB]; this is [ImageColor.getrgb] on that form, and a
    [ValueError] on anything else. *)
Definition getrgb (color : string) : result rgb :=
  match list_ascii_of_string color with
  | [h; a; b; c; d; e; f] =>
      if Ascii.eqb h "#"%char then
        match PyStr.hex_digit a, PyStr.hex_digit b, PyStr.hex_digit c,
              PyStr.hex_digit d, PyStr.hex_digit e, PyStr.hex_digit f with
        | Some a, Some b, Some c, Some d, Some e, Some f =>
            Ok (16 * a + b, 16 * c + d, 16 * e + f)
        | _, _, _, _, _, _ => Raise ValueError
        end
      else Raise ValueError
  | _ => Raise ValueError
  end.

(** [Image.new("RGBA", size, color)] with a colour tuple. *)
Definition new_RGBA (w h : Z) (fill : pixel) : image :=
  Image w h (fun _ _ => fill).

(** [Image.new("RGBA", size, color)] with a colour string: an RGB
    descriptor is completed with an opaque alpha. *)
Definition new_RGBA_named (w h : Z) (color : string) : result image :=
  ('(r, g, b) <- getrgb color ;;
   Ok (new_RGBA w h (RGBA r g b 255)))%result.

Definition map2 (f : Z -> Z -> Z) (a b : image) : image :=
  Image (width a) (height a)
    (fun x y =>
       let p := px a x y in
       let q := px b x y in
       RGBA (f (red p) (red q)) (f (green p) (green q))
            (f (blue p) (blue q)) (f (alpha p) (alpha q))).

(** Modelled from the spec: the two per-channel blend functions,
    "multiply" [a*b] and "screen" [1 - (1-a)(1-b)] on channels scaled to
    [0..255], applied to every band of both images (alpha included). *)
Definition multiply_channel (a b : Z) : Z := a * b / 255.
Definition screen_channel (a b : Z) : Z := 255 - (255 - a) * (255 - b) / 255.

Definition ImageChops_multiply (a b : image) : image := map2 multiply_channel a b.
Definition ImageChops_screen (a b : image) : image := map2 screen_channel a b.

(** [ImageOps.grayscale]: the ITU-R 601-2 luma of the colour bands, in
    Pillow's 16-bit fixed point. *)
Definition luma (r g b : Z) : Z :=
  Z.shiftr (r * 19595 + g * 38470 + b * 7471 + 32768) 16.

Definition ImageOps_grayscale (im : image) : raster Z :=
  fun x y => let p := px im x y in luma (red p) (green p) (blue p).

(** Modelled from the spec: "map black to a dark colour and white to a
    light colour via linear interpolation across the gray ramp".  Gray
    level [i] below 255 takes [black + i * (white - black) // 255] in
    each band, level 255 takes [white]. *)
Definition ramp (black white i : Z) : Z :=
  if i <? 255 then black + i * (white - black) / 255 else white.

Definition ImageOps_colorize (gray : raster Z) (black white : string)
  : result (raster rgb) :=
  ('(r0, g0, b0) <- getrgb black ;;
   '(r1, g1, b1) <- getrgb white ;;
   Ok (fun x y =>
         let i := gray x y in
         (ramp r0 r1 i, ramp g0 g1 i, ramp b0 b1 i)))%result.

(** The rounding division by 255 used when two bands are mixed. *)
Definition div255 (a : Z) : Z :=
  let tmp := a + 128 in Z.shiftr (Z.shiftr tmp 8 + tmp) 8.

(** [mask] parts of [src] over [255 - mask] parts of [dst]. *)
Definition blend (mask dst src : Z) : Z := div255 (dst * (255 - mask) + src * mask).

(** [dst.paste(src, (x0, y0), mask)] with an RGBA mask of the size of
    [src]: inside the box every band, alpha included, is mixed with the
    destination in proportion to the mask's alpha (255 copies the source,
    0 keeps the destination); outside it the destination is kept. *)
Definition paste (dst src : image) (x0 y0 : Z) (mask : image) : result image :=
  if negb ((width mask =? width src) && (height mask =? height src))
  then Raise ValueError
  else
    Ok (Image (width dst) (height dst)
          (fun x y =>
             let d := px dst x y in
             if (x0 <=? x) && (x <? x0 + width src) &&
                (y0 <=? y) && (y <? y0 + height src)
             then
               let s := px src (x - x0) (y - y0) in
               let m := alpha (px mask (x - x0) (y - y0)) in
               RGBA (blend m (red d) (red s)) (blend m (green d) (green s))
                    (blend m (blue d) (blue s)) (blend m (alpha d) (alpha s))
             else d)).

Section Resize.

(** The Lanczos resampling kernel itself (floating-point convolution)
    is left abstract. *)
Variable lanczos : image -> Z -> Z -> image.

(** [im.resize((w, h), Image.Resampling.LANCZOS)]: a request for the
    image's own size returns a copy; a dimension below 1 is a
    [ValueError] ("height and width must be > 0"). *)
Definition resize (im : image) (w h : Z) : result image :=
  if (width im =? w) && (height im =? h) then Ok im
  else if (w <? 1) || (h <? 1) then Raise ValueError
  else Ok (lanczos im w h).

End Resize.

End PIL.

(** ** The recolouring functions *)

Import PIL.

(** [int(target_hex[i : i + 2], 16) / 255.0] *)
Definition target_channel (target_hex : string) (i : nat) : result float :=
  (n <- PyStr.int16 (PyStr.slice target_hex i (i + 2)) ;;
   PyFloat.div (PyFloat.of_int n) 255%float)%result.

Definition target_rgb (target_hex : string) : result (float * float * float) :=
  (r <- target_channel target_hex 1 ;;
   g <- target_channel target_hex 3 ;;
   b <- target_channel target_hex 5 ;;
   Ok (r, g, b))%result.

(** [target_h, _, _ = colorsys.rgb_to_hsv( *target_rgb )] *)
Definition target_hue (target_hex : string) : result float :=
  ('(r, g, b) <- target_rgb target_hex ;;
   '(h, _, _) <- colorsys.rgb_to_hsv r g b ;;
   Ok h)%result.

(** [colorsys.rgb_to_hsv(r / 255.0, g / 255.0, b / 255.0)] *)
Definition pixel_hsv (p : rgb) : result colorsys.hsv :=
  let '(r, g, b) := p in
  (r' <- PyFloat.div (PyFloat.of_int r) 255%float ;;
   g' <- PyFloat.div (PyFloat.of_int g) 255%float ;;
   b' <- PyFloat.div (PyFloat.of_int b) 255%float ;;
   colorsys.rgb_to_hsv r' g' b')%result.

(** The triple handed to [hsv_to_rgb]: the hue is forced to the target,
    saturation and value are scaled and capped at 1.0. *)
Definition shifted_hsv (target_h sat_multiplier val_multiplier : float) (p : rgb)
  : result colorsys.hsv :=
  ('(h, s, v) <- pixel_hsv p ;;
   let h := target_h in
   let s := PyFloat.min2 (PrimFloat.mul s sat_multiplier) 1%float in
   let v := PyFloat.min2 (PrimFloat.mul v val_multiplier) 1%float in
   Ok (h, s, v))%result.

(** [(int(nr * 255), int(ng * 255), int(nb * 255))] of [hsv_to_rgb(h, s, v)] *)
Definition hsv_to_ints (c : colorsys.hsv) : result rgb :=
  let '(h, s, v) := c in
  ('(nr, ng, nb) <- colorsys.hsv_to_rgb h s v ;;
   ir <- PyFloat.to_int (PrimFloat.mul nr 255%float) ;;
   ig <- PyFloat.to_int (PrimFloat.mul ng 255%float) ;;
   ib <- PyFloat.to_int (PrimFloat.mul nb 255%float) ;;
   Ok (ir, ig, ib))%result.

(** [pixels[x, y] = (r, g, b)] on an 8-bit RGB buffer: the imaging library
    reads the first component as a C [long long] and the other two as C
    [int]s, with an [OverflowError] for a component outside that range,
    and then clips each component to [0..255]. *)
Definition store_rgb (c : rgb) : result rgb :=
  let '(r, g, b) := c in
  if (- 2 ^ 63 <=? r) && (r <? 2 ^ 63) &&
     (- 2 ^ 31 <=? g) && (g <? 2 ^ 31) &&
     (- 2 ^ 31 <=? b) && (b <? 2 ^ 31)
  then Ok (clip8 r, clip8 g, clip8 b)
  else Raise OverflowError.

(** One iteration of the pixel loop. *)
Definition hue_shift_step (target_h sat_multiplier val_multiplier : float)
  (x y : Z) (pixels : raster rgb) : result (raster rgb) :=
  (c <- shifted_hsv target_h sat_multiplier val_multiplier (pixels x y) ;;
   n <- hsv_to_ints c ;;
   stored <- store_rgb n ;;
   Ok (putpixel pixels x y stored))%result.

Definition hue_shift_saturation (image_ : image) (target_hex : string)
  (sat_multiplier val_multiplier : float) : result image :=
  (target_h <- target_hue target_hex ;;
   let rgba_image := convert_RGBA image_ in
   let alpha_ := getchannel_A rgba_image in
   let pixels := convert_RGB rgba_image in
   let w := width rgba_image in
   let h := height rgba_image in
   pixels' <-
     for_range h (fun y =>
       for_range w (fun x =>
         hue_shift_step target_h sat_multiplier val_multiplier x y)) pixels ;;
   Ok (with_alpha w h pixels' alpha_))%result.

Definition grayscale_colorize (image_ : image)
  (target_hex_white target_hex_black : string) : result image :=
  let rgba := convert_RGBA image_ in
  let alpha_ := getchannel_A rgba in
  let gray := ImageOps_grayscale rgba in
  (colored <- ImageOps_colorize gray target_hex_black target_hex_white ;;
   Ok (with_alpha (width rgba) (height rgba) colored alpha_))%result.

Definition overlay_blend (image_ : image) (overlay_hex : string)
  (blend_mode : string) : result image :=
  let rgba := convert_RGBA image_ in
  (solid_layer <- new_RGBA_named (width rgba) (height rgba) overlay_hex ;;
   if String.eqb blend_mode "screen" then Ok (ImageChops_screen rgba solid_layer)
   else if String.eqb blend_mode "multiply"
        then Ok (ImageChops_multiply rgba solid_layer)
        else Ok (ImageChops_screen rgba solid_layer))%result.

(** ** Canvas normalisation *)

(** [int(a * (512.0 / b))] *)
Definition scale_to_512 (a b : Z) : result Z :=
  (q <- PyFloat.div 512%float (PyFloat.of_int b) ;;
   PyFloat.to_int (PrimFloat.mul (PyFloat.of_int a) q))%result.

(** The size of the resized copy. *)
Definition new_size (w h : Z) : result (Z * Z) :=
  if w >? h then (new_h <- scale_to_512 h w ;; Ok (512, new_h))%result
  else (new_w <- scale_to_512 w h ;; Ok (new_w, 512))%result.

Section Normalise.

Variable lanczos : image -> Z -> Z -> image.

Definition resize_and_center_512 (image_ : image) : result image :=
  let image_ := convert_RGBA image_ in
  let w := width image_ in
  let h := height image_ in
  ('(new_w, new_h) <- new_size w h ;;
   resized <- resize lanczos image_ new_w new_h ;;
   let canvas := new_RGBA 512 512 (RGBA 0 0 0 0) in
   let x := (512 - new_w) / 2 in
   let y := (512 - new_h) / 2 in
   paste canvas resized x y resized)%result.

End Normalise.

(** ** Path helpers of [os.path] used for the output names *)

Module os_path_names.

(** What follows the last ["/"] of [s] ([cur] is the candidate so far). *)
Fixpoint after_last_sep (s cur : string) : string :=
  match s with
  | EmptyString => cur
  | String c r =>
      if Ascii.eqb c "/"%char then after_last_sep r r else after_last_sep r cur
  end.

Definition basename (p : string) : string := after_last_sep p p.

(** [p.rfind(c)], [-1] when absent. *)
Fixpoint rfind_from (c : ascii) (s : string) (i found : Z) : Z :=
  match s with
  | EmptyString => found
  | String d r => rfind_from c r (i + 1) (if Ascii.eqb d c then i else found)
  end.

Definition rfind (c : ascii) (s : string) : Z := rfind_from c s 0 (-1).

(** Is some character of [p[i : j]] not a dot? *)
Definition has_non_dot (p : string) (i j : Z) : bool :=
  existsb (fun c => negb (Ascii.eqb c "."%char))
    (list_ascii_of_string (substring (Z.to_nat i) (Z.to_nat (j - i)) p)).

(** The first component of [os.path.splitext(p)]: [p] without its last
    extension; leading dots of the file name do not start an extension. *)
Definition splitext_root (p : string) : string :=
  let sepIndex := rfind "/"%char p in
  let dotIndex := rfind "."%char p in
  if (dotIndex >? sepIndex) && has_non_dot p (sepIndex + 1) dotIndex
  then substring 0 (Z.to_nat dotIndex) p
  else p.

End os_path_names.

(** ** The world outside the program, and what the program does to it *)

#[local] Set Warnings "-register-all".

(** A parsed property list. *)
Inductive plist : Type :=
| PString (s : string)
| PInteger (n : Z)
| PReal (x : float)
| PBool (b : bool)
| PData (bytes : string)
| PDate (seconds : Z)
| PArray (items : list plist)
| PDict (items : list (string * plist)).

Record world : Type := World {
  (** [os.path.isfile] *)
  isfile : string -> bool;
  (** [open(path, "rb")] followed by [plistlib.load] *)
  load_plist : string -> result plist;
  (** [Image.open(path)]: the exception of a file that does not open, or
      the RGBA buffer the opened file decodes to *)
  decode_image : string -> result image;
  (** does writing an icon container to this path fail? *)
  write_fails : string -> option exn
}.

Inductive message : Type :=
| NoApproachChosen
| InvalidSubChoice
| InvalidApproach
| NoHexEntered
| NoAppSelected
| NoOutputDirectory
| NoImageSelected
| SkippingNonApp (app_path : string)
| NoIconFound (app_path : string)
| CouldNotOpenIcon (app_path : string)
| RecoloredOk (name out_path : string)
| CouldNotSave (name : string)
| DoneApps
| Processing (path out_path : string)
| SavedTo (out_path : string)
| DoneStandard.

Inductive event : Type :=
| Printed (m : message)
| ErrorBox (m : message)
| Opened (path : string)
| Written (path : string) (im : image).

(** A run: the events so far and how it ended. *)
Definition io (A : Type) : Type := (list event * result A)%type.

Definition io_ret {A : Type} (a : A) : io A := ([], Ok a).

Definition io_bind {A B : Type} (m : io A) (k : A -> io B) : io B :=
  match m with
  | (t, Ok a) => let '(t', r) := k a in (t ++ t', r)
  | (t, Raise e) => (t, Raise e)
  end.

Definition emit (e : event) : io unit := ([e], Ok tt).
Definition print (m : message) : io unit := emit (Printed m).
Definition lift {A : Type} (r : result A) : io A := ([], r).

Declare Scope io_scope.
Delimit Scope io_scope with io.
Notation "x <- c1 ;; c2" := (io_bind c1 (fun x => c2))
  (at level 61, c1 at next level, right associativity) : io_scope.
Notation "c1 ;; c2" := (io_bind c1 (fun _ => c2))
  (at level 61, right associativity) : io_scope.

(** [try: x = body  except Exception as e: ...], leaving the choice between
    the two continuations to the caller. *)
Definition attempt {A : Type} (body : io A) : io (result A) :=
  (fst body, Ok (snd body)).

(** [try: body  except Exception: handler] *)
Definition try_except {A : Type} (body : io A) (handler : exn -> io A) : io A :=
  match body with
  | (t, Ok a) => (t, Ok a)
  | (t, Raise e) => let '(t', r) := handler e in (t ++ t', r)
  end.

Definition image_open (w : world) (path : string) : io image :=
  ([Opened path], decode_image w path).

(** [im.save(path, format="ICNS", sizes=icon_sizes)] *)
Definition save_icns (w : world) (im : image) (path : string) : io unit :=
  match write_fails w path with
  | Some e => ([], Raise e)
  | None => ([Written path im], Ok tt)
  end.

Definition trace {A : Type} (m : io A) : list event := fst m.
Definition outcome {A : Type} (m : io A) : result A := snd m.

Definition is_written (e : event) : bool :=
  match e with Written _ _ => true | _ => false end.

Definition is_opened (e : event) : bool :=
  match e with Opened _ => true | _ => false end.

(** ** The bundle icon locator *)

(** Python's truth value of a property-list value. *)
Definition plist_truthy (v : plist) : bool :=
  match v with
  | PString s => PyStr.truthy s
  | PInteger n => negb (n =? 0)
  | PReal x => negb (PrimFloat.eqb x 0%float)
  | PBool b => b
  | PData bytes => PyStr.truthy bytes
  | PDate _ => true
  | PArray items => match items with [] => false | _ => true end
  | PDict items => match items with [] => false | _ => true end
  end.

Fixpoint assoc (key : string) (items : list (string * plist)) : option plist :=
  match items with
  | [] => None
  | (k, v) :: rest => if String.eqb k key then Some v else assoc key rest
  end.

(** [plist_data.get(key)]: only a dictionary has the method. *)
Definition plist_get (plist_data : plist) (key : string) : result (option plist) :=
  match plist_data with
  | PDict items => Ok (assoc key items)
  | _ => Raise AttributeError
  end.

(** [if not name.lower().endswith(".icns"): name += ".icns"] *)
Definition ensure_icns (name : string) : string :=
  if negb (PyStr.endswith (PyStr.lower name) ".icns") then (name ++ ".icns")%string
  else name.

(** The icon file name with its suffix ensured; only a string has
    [lower()] and accepts the string suffix test. *)
Definition icon_file_name (icon_file : plist) : result string :=
  match icon_file with
  | PString s => Ok (ensure_icns s)
  | PData _ => Raise TypeError
  | _ => Raise AttributeError
  end.

Definition info_plist_path (app_path : string) : string :=
  os_path.join app_path ["Contents"; "Info.plist"]%string.

Definition resource_path (app_path icon_file : string) : string :=
  os_path.join app_path ["Contents"; "Resources"; icon_file]%string.

Definition pull_app_icon (w : world) (app_path : string) : result (option string) :=
  if negb (isfile w (info_plist_path app_path)) then Ok None
  else
    (plist_data <- load_plist w (info_plist_path app_path) ;;
     icon_file <- plist_get plist_data "CFBundleIconFile" ;;
     match icon_file with
     | None => Ok None
     | Some icon_file =>
         if negb (plist_truthy icon_file) then Ok None
         else
           (icon_file <- icon_file_name icon_file ;;
            let possible_path := resource_path app_path icon_file in
            if isfile w possible_path then Ok (Some possible_path)
            else Ok None)
     end)%result.

(** ** Batch recolouring of bundles, and the main script *)

Definition icon_sizes : list (Z * Z) :=
  [(16, 16); (32, 32); (64, 64); (128, 128); (256, 256); (512, 512)].

(** What the interactive prompts returned: [None] for a cancelled string
    prompt, the empty list or string for a cancelled file or directory
    picker. *)
Record answers : Type := Answers {
  approach_choice : option string;
  sub_choice : option string;
  target_hex : option string;
  selected_paths : list string;
  output_dir : string;
  sat_str : option string;
  val_str : option string;
  darker_hex : option string;
  blend_mode : option string
}.

(** [not s] for the result of a string prompt. *)
Definition blank (s : option string) : bool :=
  match s with
  | None => true
  | Some s => negb (PyStr.truthy s)
  end.

Definition text (s : option string) : string :=
  match s with Some s => s | None => EmptyString end.

Definition is_choice (s : option string) (l : list string) : bool :=
  match s with
  | Some s => existsb (String.eqb s) l
  | None => false
  end.

(** [f"{n:02X}"] for [n >= 0]. *)
Definition hex_char (d : Z) : ascii :=
  if d <? 10 then ascii_of_N (Z.to_N (48 + d)) else ascii_of_N (Z.to_N (55 + d)).

Fixpoint hex_upper (fuel : nat) (n : Z) (acc : string) : string :=
  match fuel with
  | O => acc
  | S fuel' =>
      let acc' := String (hex_char (n mod 16)) acc in
      if n / 16 =? 0 then acc' else hex_upper fuel' (n / 16) acc'
  end.

Definition format_02X (n : Z) : string :=
  let s := hex_upper (S (Z.to_nat (Z.log2 n))) n EmptyString in
  if (String.length s <? 2)%nat then String "0" s else s.

#[local] Set Warnings "-inexact-float".

(** The automatically derived dark colour: each channel is
    [int(max(c * 0.8, 0))], formatted back as [#RRGGBB]. *)
Definition auto_darker (target_hex : string) : result string :=
  (r <- PyStr.int16 (PyStr.slice target_hex 1 3) ;;
   g <- PyStr.int16 (PyStr.slice target_hex 3 5) ;;
   b <- PyStr.int16 (PyStr.slice target_hex 5 7) ;;
   let shade c :=
     let scaled := PrimFloat.mul (PyFloat.of_int c) 0.8%float in
     if PrimFloat.ltb scaled 0%float then Ok 0 else PyFloat.to_int scaled in
   r <- shade r ;;
   g <- shade g ;;
   b <- shade b ;;
   Ok ("#" ++ format_02X r ++ format_02X g ++ format_02X b)%string)%result.

(** The policy parameters gathered by the prompts that follow the file
    selection. *)
Record options : Type := Options {
  sat_mult : float;
  val_mult : float;
  darker : string;
  mode : string
}.

Section Script.

Variable lanczos : image -> Z -> Z -> image.

(** [float(s)] on a string, [None] for its [ValueError]. *)
Variable float_of_string : string -> option float.

Variable w : world.

(** The body of the loop of [recolor_app_icons] for one path. *)
Definition recolor_app_icon (recolor_function : image -> result image)
  (output_dir : string) (app_path : string) : io unit :=
  if negb (PyStr.endswith (PyStr.lower app_path) ".app")
  then print (SkippingNonApp app_path)
  else
    (icon_path <- lift (pull_app_icon w app_path) ;;
     match icon_path with
     | None => print (NoIconFound app_path)
     | Some icon_path =>
         if negb (PyStr.truthy icon_path) then print (NoIconFound app_path)
         else
           (opened <- attempt (image_open w icon_path) ;;
            match opened with
            | Raise _ => print (CouldNotOpenIcon app_path)
            | Ok img =>
                recolored <- lift (recolor_function img) ;;
                final_512 <- lift (resize_and_center_512 lanczos recolored) ;;
                let base_app_name :=
                  os_path_names.splitext_root
                    (os_path_names.basename app_path) in
                let out_icns_name := (base_app_name ++ ".icns")%string in
                let out_path := os_path.join output_dir [out_icns_name] in
                try_except
                  (save_icns w final_512 out_path ;;
                   print (RecoloredOk base_app_name out_path))
                  (fun _ => print (CouldNotSave base_app_name))
            end)
     end)%io.

Fixpoint recolor_app_icons (app_paths : list string)
  (recolor_function : image -> result image) (output_dir : string) : io unit :=
  match app_paths with
  | [] => io_ret tt
  | app_path :: rest =>
      (recolor_app_icon recolor_function output_dir app_path ;;
       recolor_app_icons rest recolor_function output_dir)%io
  end.

(** [float(s) if s else 1.0], with 1.0 on a [ValueError]. *)
Definition multiplier (s : option string) : float :=
  if blank s then 1%float
  else match float_of_string (text s) with
       | Some x => x
       | None => 1%float
       end.

Definition gather_options (a : answers) (choice target : string) : result options :=
  if String.eqb choice "1" then
    Ok (Options (multiplier (sat_str a)) (multiplier (val_str a))
          EmptyString EmptyString)
  else if String.eqb choice "2" then
    (d <- (if blank (darker_hex a) then auto_darker target
           else Ok (text (darker_hex a))) ;;
     Ok (Options 1%float 1%float d EmptyString))%result
  else
    Ok (Options 1%float 1%float EmptyString
          (if is_choice (blend_mode a) ["screen"; "multiply"]%string
           then text (blend_mode a) else "screen"%string)).

(** The recolouring selected by the approach. *)
Definition recolor (choice target : string) (o : options) (img : image)
  : result image :=
  if String.eqb choice "1"
  then hue_shift_saturation img target (sat_mult o) (val_mult o)
  else if String.eqb choice "2"
       then grayscale_colorize img target (darker o)
       else overlay_blend img target (mode o).

(** The body of the loop over the selected image files. *)
Definition process_image (choice target : string) (o : options) (path : string)
  : io unit :=
  let out_path := (os_path_names.splitext_root path ++ ".icns")%string in
  (print (Processing path out_path) ;;
   img <- image_open w path ;;
   recolored <- lift (recolor choice target o img) ;;
   final_512 <- lift (resize_and_center_512 lanczos recolored) ;;
   save_icns w final_512 out_path ;;
   print (SavedTo out_path))%io.

Fixpoint process_images (choice target : string) (o : options)
  (image_paths : list string) : io unit :=
  match image_paths with
  | [] => io_ret tt
  | path :: rest =>
      (process_image choice target o path ;;
       process_images choice target o rest)%io
  end.

Definition main (a : answers) : io unit :=
  if blank (approach_choice a) then print NoApproachChosen
  else if String.eqb (PyStr.lower (text (approach_choice a))) "app" then
    if negb (is_choice (sub_choice a) ["1"; "2"; "3"]%string)
    then emit (ErrorBox InvalidSubChoice)
    else if blank (target_hex a) then print NoHexEntered
    else match selected_paths a with
         | [] => print NoAppSelected
         | app_paths =>
             if negb (PyStr.truthy (output_dir a)) then print NoOutputDirectory
             else
               (o <- lift (gather_options a (text (sub_choice a))
                             (text (target_hex a))) ;;
                recolor_app_icons app_paths
                  (recolor (text (sub_choice a)) (text (target_hex a)) o)
                  (output_dir a) ;;
                print DoneApps)%io
         end
  else if negb (is_choice (approach_choice a) ["1"; "2"; "3"]%string)
  then emit (ErrorBox InvalidApproach)
  else if blank (target_hex a) then print NoHexEntered
  else match selected_paths a with
       | [] => print NoImageSelected
       | image_paths =>
           (o <- lift (gather_options a (text (approach_choice a))
                         (text (target_hex a))) ;;
            process_images (text (approach_choice a)) (text (target_hex a)) o
              image_paths ;;
            print DoneStandard)%io
       end.

End Script.

Local Open Scope string_scope.
Local Open Scope Z_scope.

(** ** Sample inputs *)

Module Samples.

(** A single fully transparent pixel that still carries colour. *)
Definition ghost_pixel : image := Image 1 1 (fun _ _ => RGBA 10 20 30 0).

(** Two columns: an opaque red one and a dark translucent one. *)
Definition two_tone : image :=
  Image 2 2 (fun x _ => if x =? 0 then RGBA 255 0 0 255 else RGBA 5 1 3 77).

(** A resampler that is never consulted on a request for the image's own
    size. *)
Definition no_resample : image -> Z -> Z -> image := fun im _ _ => im.

(** A 512x512 icon: an opaque square centred on transparent padding. *)
Definition badge : image :=
  Image 512 512
    (fun x y =>
       if (128 <=? x) && (x <? 384) && (128 <=? y) && (y <? 384)
       then RGBA 200 100 50 255
       else RGBA 0 0 0 0).

(** The same icon with a half-transparent square. *)
Definition soft_badge : image :=
  Image 512 512
    (fun x y =>
       if (128 <=? x) && (x <? 384) && (128 <=? y) && (y <? 384)
       then RGBA 200 100 50 128
       else RGBA 0 0 0 0).

Definition opaque_red : image := Image 512 512 (fun _ _ => RGBA 255 0 0 255).

(** A bundle [/Applications/Demo.app] whose descriptor names [AppIcon],
    present in its resources; the image files decode except [bad.png]. *)
Definition demo_world : world :=
  World
    (fun p =>
       String.eqb p "/Applications/Demo.app/Contents/Info.plist" ||
       String.eqb p "/Applications/Demo.app/Contents/Resources/AppIcon.icns")
    (fun _ => Ok (PDict [("CFBundleIconFile", PString "AppIcon")]%string))
    (fun p => if String.eqb p "bad.png" then Raise OSError else Ok opaque_red)
    (fun _ => None).

(** A bundle whose descriptor file exists and is not a property list. *)
Definition broken_world : world :=
  World (fun _ => true) (fun _ => Raise InvalidFileException)
    (fun _ => Ok opaque_red) (fun _ => None).

Definition no_float : string -> option float := fun _ => None.



(** Standard mode, overlay, a valid colour, a first file that does not
    decode. *)
Definition bad_file_run : answers :=
  Answers (Some "3") None (Some "#FFB6C1") ["bad.png"; "good.png"] ""
    None None None None.

End Samples.

(** A pixel that pasting through its own alpha leaves alone: fully opaque,
    or zero in every band. *)
Definition crisp (p : pixel) : bool :=
  valid_pixel p &&
  ((alpha p =? 255) ||
   ((red p =? 0) && (green p =? 0) && (blue p =? 0) && (alpha p =? 0))).

(** The entry [CFBundleIconFile] is absent or has a false truth value. *)
Definition icon_entry_empty (items : list (string * plist)) : bool :=
  match assoc "CFBundleIconFile" items with
  | None => true
  | Some v => negb (plist_truthy v)
  end.

Definition is_string (v : plist) : bool :=
  match v with PString _ => true | _ => false end.

(** The entry is absent, has a false truth value, or is a string. *)
Definition icon_entry_usable (items : list (string * plist)) : bool :=
  match assoc "CFBundleIconFile" items with
  | None => true
  | Some v => negb (plist_truthy v) || is_string v
  end.



(** ** Magnitudes of floats

    [sf_small K x]: [x] is a zero or a finite float below [2^K] in
    magnitude; [sf_big L x]: [x] is a finite nonzero float of magnitude
    [2^(L-1)] or more. *)

Definition sf_small (K : Z) (x : spec_float) : Prop :=
  match x with
  | S754_zero _ => True
  | S754_finite _ m e => Zpos (digits2_pos m) + e <= K
  | _ => False
  end.

Definition sf_big (L : Z) (x : spec_float) : Prop :=
  match x with
  | S754_finite _ m e => L <= Zpos (digits2_pos m) + e
  | _ => False
  end.

Definition small (K : Z) (x : float) : Prop := sf_small K (Prim2SF x).

Definition big (L : Z) (x : float) : Prop := sf_big L (Prim2SF x).


Definition smallb (K : Z) (x : float) : bool :=
  match Prim2SF x with
  | S754_zero _ => true
  | S754_finite _ m e => Zpos (digits2_pos m) + e <=? K
  | _ => false
  end.

Definition bigb (L : Z) (x : float) : bool :=
  match Prim2SF x with
  | S754_finite _ m e => L <=? Zpos (digits2_pos m) + e
  | _ => false
  end.

(** ** Channels as floats, and checks over all bytes *)

(** [c / 255.0] for a channel value [c]. *)
Definition unit_of (c : Z) : float := PrimFloat.div (PyFloat.of_int c) 255%float.

Definition bytes : list Z := map Z.of_nat (seq 0 256).

Definition within (lo hi : Z) (r : result Z) : bool :=
  match r with
  | Ok c => (lo <=? c) && (c <=? hi)
  | Raise _ => false
  end.

(** The largest and the smallest of three channels, selected as [max] and
    [min] select them. *)
Definition zmax3 (r g b : Z) : Z :=
  let m := if r <? g then g else r in if m <? b then b else m.

Definition zmin3 (r g b : Z) : Z :=
  let m := if g <? r then g else r in if b <? m then b else m.

(** The saturation [rgb_to_hsv] computes for largest channel [M] and
    smallest channel [m]. *)
Definition saturation_of (M m : Z) : float :=
  if m =? M then 0%float
  else PrimFloat.div (PrimFloat.sub (unit_of M) (unit_of m)) (unit_of M).

(** What the pixel loop relies on for a pair of channel values: the floats
    are ordered as the bytes are; a difference is small, and away from zero
    when the bytes differ; and for [b < a] the saturation of (largest [a],
    smallest [b]) is small, away from zero, unchanged by the unit
    multiplier and the cap, and the channel [v * (1 - s)] truncates to [b]
    or to [b - 1]. *)
Definition check_pair (a b : Z) : bool :=
  let x := unit_of a in
  let y := unit_of b in
  let d := PrimFloat.sub x y in
  Bool.eqb (PrimFloat.ltb x y) (a <? b) &&
  Bool.eqb (PrimFloat.eqb x y) (a =? b) &&
  smallb 1 d &&
  (if a =? b then true else bigb (-7) d) &&
  (if b <? a then
     let s := PrimFloat.div d x in
     let p := PrimFloat.mul x (PrimFloat.sub 1%float s) in
     smallb 1 s && bigb (-7) s &&
     PrimFloat.Leibniz.eqb (PyFloat.min2 (PrimFloat.mul s 1%float) 1%float) s &&
     within (Z.max 0 (b - 1)) b (PyFloat.to_int (PrimFloat.mul p 255%float))
   else true).

(** And for one channel value: it is at most 1 as a float, unchanged by
    the unit multiplier and the cap, and truncates back to itself. *)
Definition check_byte (a : Z) : bool :=
  let x := unit_of a in
  smallb 1 x &&
  PrimFloat.Leibniz.eqb (PyFloat.min2 (PrimFloat.mul x 1%float) 1%float) x &&
  within a a (PyFloat.to_int (PrimFloat.mul x 255%float)) &&
  forallb (check_pair a) bytes.

Definition hex_chars : list ascii :=
  list_ascii_of_string "0123456789abcdefABCDEF".

(** [int(s, 16)] of two hexadecimal digits is their value. *)
Definition check_hex_pair (a b : ascii) : bool :=
  match PyStr.hex_digit a, PyStr.hex_digit b,
        PyStr.int16 (String a (String b EmptyString)) with
  | Some x, Some y, Ok n => n =? 16 * x + y
  | _, _, _ => false
  end.

Definition channels (c : rgb) : list Z := let '(r, g, b) := c in [r; g; b].

(** The value the pixel loop stores for a pixel. *)
Definition recolored (target_h sat_multiplier val_multiplier : float) (p : rgb)
  : result rgb :=
  (c <- shifted_hsv target_h sat_multiplier val_multiplier p ;;
   n <- hsv_to_ints c ;;
   store_rgb n)%result.

(** One store of a pixel loop: [grid[x, y] = g(grid[x, y])]. *)
Definition store_step {A : Type} (g : A -> result A) (x y : Z) (s : raster A)
  : result (raster A) :=
  (v <- g (s x y) ;; Ok (putpixel s x y v))%result.

(** ** Further sample inputs, checkers and trace predicates *)

(** A bundle whose descriptor names an absolute path outside the bundle. *)
Definition stray_world : world :=
  World
    (fun p =>
       String.eqb p "/Applications/Demo.app/Contents/Info.plist" ||
       String.eqb p "/Library/Shared/Generic.icns")
    (fun _ => Ok (PDict [("CFBundleIconFile", PString "/Library/Shared/Generic")]))
    (fun _ => Ok Samples.opaque_red)
    (fun _ => None).

(** The demonstration world on a volume that cannot be written. *)
Definition full_disk_world : world :=
  World (isfile Samples.demo_world) (load_plist Samples.demo_world)
    (decode_image Samples.demo_world) (fun _ => Some OSError).

(** Does a written image measure 512 by 512? *)
Definition written_512 (e : event) : bool :=
  match e with
  | Written _ im => (width im =? 512) && (height im =? 512)
  | _ => true
  end.

(** [os.path.join(output_dir, splitext(basename(app_path))[0] + ".icns")] *)
Definition bundle_out_path (output_dir app_path : string) : string :=
  os_path.join output_dir
    [os_path_names.splitext_root (os_path_names.basename app_path) ++ ".icns"].

(** [os.path.splitext(path)[0] + ".icns"] *)
Definition standard_out_path (path : string) : string :=
  os_path_names.splitext_root path ++ ".icns".

(** Where a run writes the icon made from a selected path. *)
Definition out_path_of (a : answers) (path : string) : string :=
  if String.eqb (PyStr.lower (text (approach_choice a))) "app"
  then bundle_out_path (output_dir a) path
  else standard_out_path path.

(** The string holds no path separator. *)
Fixpoint no_sep (s : string) : bool :=
  match s with
  | EmptyString => true
  | String c r => negb (Ascii.eqb c "/"%char) && no_sep r
  end.

(** The events of one processed item: nothing written, at most one file
    opened; or one file opened and then one image written to [out_path]. *)
Definition item_trace (lanczos : image -> Z -> Z -> image) (out_path : string)
  (t : list event) : Prop :=
  (filter is_written t = [] /\ (List.length (filter is_opened t) <= 1)%nat) \/
  exists pre post rc final,
    t = (pre ++ Written out_path final :: post)%list /\
    filter is_written pre = [] /\ filter is_written post = [] /\
    List.length (filter is_opened pre) = 1%nat /\ filter is_opened post = [] /\
    resize_and_center_512 lanczos rc = Ok final.

(** The events of a loop over [paths] that went through some of the first
    of them, in order. *)
Fixpoint items_trace (lanczos : image -> Z -> Z -> image)
  (out_path : string -> string) (paths : list string) (t : list event) : Prop :=
  t = [] \/
  match paths with
  | [] => False
  | p :: rest =>
      exists t1 t2, t = (t1 ++ t2)%list /\
                    item_trace lanczos (out_path p) t1 /\
                    items_trace lanczos out_path rest t2
  end.

(** A run in which one of the prompts that every run goes through was
    cancelled or left empty. *)
Definition cancelled (a : answers) : bool :=
  blank (approach_choice a) || blank (target_hex a) ||
  match selected_paths a with [] => true | _ => false end.

(** Standard mode, overlay, on one file that decodes. *)
Definition good_file_run : answers :=
  Answers (Some "3") None (Some "#FFB6C1") ["good.png"] ""
    None None None None.

(** The same run with the colour prompt cancelled. *)
Definition no_colour_run : answers :=
  Answers (Some "3") None None ["good.png"] "" None None None None.

#[local] Set Warnings "-inexact-float".

(** [int(max(c * 0.8, 0))], the channel of the derived dark colour. *)
Definition shade (c : Z) : result Z :=
  let scaled := PrimFloat.mul (PyFloat.of_int c) 0.8%float in
  if PrimFloat.ltb scaled 0%float then Ok 0 else PyFloat.to_int scaled.

(** For one channel value: its shade is four fifths of it, rounded down,
    and its two-digit upper-case form reads back as the value. *)
Definition check_shade (c : Z) : bool :=
  match shade c with
  | Ok d => d =? c * 4 / 5
  | Raise _ => false
  end &&
  match list_ascii_of_string (format_02X c) with
  | [a; b] =>
      match PyStr.hex_digit a, PyStr.hex_digit b with
      | Some x, Some y => 16 * x + y =? c
      | _, _ => false
      end
  | _ => false
  end.

(** A translucent alpha value pasted through itself comes out smaller. *)
Definition check_fade (a : Z) : bool :=
  if (0 <? a) && (a <? 255) then div255 (a * a) <? a else true.

(** A multiplier of ordinary size: a zero, or a finite float below [2^64]
    in magnitude. *)
Definition ordinary (x : float) : bool := smallb 64 x.

(** A multiplier of moderate size: a zero, or a finite float below 32 in
    magnitude. *)
Definition moderate (x : float) : bool := smallb 5 x.

(** A zero of either sign. *)
Definition is_zero (x : float) : bool :=
  match Prim2SF x with S754_zero _ => true | _ => false end.

(** A NaN. *)
Definition not_a_number (x : float) : bool :=
  match Prim2SF x with S754_nan => true | _ => false end.

(** Three columns: gray, coloured and white pixels. *)
Definition gray_and_colour : image :=
  Image 3 1 (fun x _ => if x =? 0 then RGBA 90 90 90 200
                        else if x =? 1 then RGBA 10 200 30 255
                        else RGBA 255 255 255 255).

(** A nearest-neighbour resampler: it returns an image of the requested
    size. *)
Definition nearest : image -> Z -> Z -> image :=
  fun im w h => Image w h (fun x y => px im (x * width im / w) (y * height im / h)).

(** A 300 by 600 opaque red image, and a 1 by 2000 one. *)
Definition tall_red : image := Image 300 600 (fun _ _ => RGBA 255 0 0 255).
Definition thin_red : image := Image 1 2000 (fun _ _ => RGBA 255 0 0 255).

(** The paths written by a run, in order. *)
Definition written_paths (t : list event) : list string :=
  flat_map (fun e => match e with Written p _ => [p] | _ => [] end) t.

(** An image file the standard loop can process in world [w]: it decodes to
    a valid buffer of moderate size and aspect ratio, and its output path
    can be written. *)
Definition processable (w : world) (path : string) : Prop :=
  exists img,
    decode_image w path = Ok img /\ valid_image img /\
    1 <= width img < 2 ^ 36 /\ 1 <= height img < 2 ^ 36 /\
    Z.max (width img) (height img) <= 256 * Z.min (width img) (height img) /\
    write_fails w (standard_out_path path) = None.

(** * Properties *)

(** ** Magnitude of the results of float operations

    Every operation of binary64 rounds through [binary_round_aux]; on
    operands of bounded magnitude its result is a zero or a finite float of
    bounded magnitude, never a NaN or an infinity. *)

Lemma digits2_pos_bounds (p : positive) :
  2 ^ (Zpos (digits2_pos p) - 1) <= Zpos p < 2 ^ Zpos (digits2_pos p).
Proof.
  induction p as [p IH|p IH|]; cbn [digits2_pos].
  - rewrite Pos2Z.inj_succ.
    replace (Z.succ (Zpos (digits2_pos p)) - 1) with (Z.succ (Zpos (digits2_pos p) - 1)) by lia.
    rewrite !Z.pow_succ_r by lia. lia.
  - rewrite Pos2Z.inj_succ.
    replace (Z.succ (Zpos (digits2_pos p)) - 1) with (Z.succ (Zpos (digits2_pos p) - 1)) by lia.
    rewrite !Z.pow_succ_r by lia. lia.
  - cbn. lia.
Qed.

Lemma Zdigits2_nonneg (m : Z) : 0 <= Zdigits2 m.
Proof. destruct m; cbn; lia. Qed.

Lemma Zdigits2_upper (m : Z) : 0 <= m -> m < 2 ^ Zdigits2 m.
Proof.
  destruct m as [|p|p]; cbn [Zdigits2]; intros H; [cbn; lia| |lia].
  apply digits2_pos_bounds.
Qed.

Lemma Zdigits2_lower (m : Z) : 0 < m -> 2 ^ (Zdigits2 m - 1) <= m.
Proof.
  destruct m as [|p|p]; cbn [Zdigits2]; intros H; [lia| |lia].
  apply digits2_pos_bounds.
Qed.

Lemma Zdigits2_le (m k : Z) : 0 <= m -> 0 <= k -> m < 2 ^ k -> Zdigits2 m <= k.
Proof.
  intros Hm Hk Hlt.
  destruct (Z.eq_dec m 0) as [->|Hne]; [cbn; lia|].
  pose proof (Zdigits2_lower m ltac:(lia)) as Hlow.
  destruct (Z_le_gt_dec (Zdigits2 m) k) as [|Hgt]; [assumption|].
  assert (2 ^ k <= 2 ^ (Zdigits2 m - 1)) by (apply Z.pow_le_mono_r; lia).
  lia.
Qed.

Lemma shr_1_m (mrs : shr_record) :
  0 <= shr_m mrs -> shr_m (shr_1 mrs) = shr_m mrs / 2.
Proof.
  destruct mrs as [m r s]. cbn [shr_m shr_1]. intros Hm.
  destruct m as [|[p|p|]|p]; cbn [shr_m]; try lia; try reflexivity.
  - apply Z.div_unique with 1; lia.
  - apply Z.div_unique with 0; lia.
Qed.

Lemma pow2_xI (p : positive) : 2 ^ Zpos p~1 = 2 * (2 ^ Zpos p * 2 ^ Zpos p).
Proof.
  replace (Zpos p~1) with (1 + (Zpos p + Zpos p)) by lia.
  rewrite !Z.pow_add_r by lia. reflexivity.
Qed.

Lemma pow2_xO (p : positive) : 2 ^ Zpos p~0 = 2 ^ Zpos p * 2 ^ Zpos p.
Proof.
  replace (Zpos p~0) with (Zpos p + Zpos p) by lia.
  rewrite !Z.pow_add_r by lia. reflexivity.
Qed.

Lemma iter_shr_1_m (p : positive) (mrs : shr_record) :
  0 <= shr_m mrs ->
  shr_m (iter_pos shr_1 p mrs) = shr_m mrs / 2 ^ Zpos p.
Proof.
  revert mrs. induction p as [p IH|p IH|]; intros mrs Hm; cbn [iter_pos].
  - assert (H1 : 0 <= shr_m (shr_1 mrs)) by (rewrite shr_1_m by lia; apply Z.div_pos; lia).
    assert (H2 : 0 <= shr_m (iter_pos shr_1 p (shr_1 mrs)))
      by (rewrite IH by lia; apply Z.div_pos; lia).
    rewrite IH, IH, shr_1_m by lia.
    rewrite !Z.div_div by lia. rewrite pow2_xI. reflexivity.
  - assert (H2 : 0 <= shr_m (iter_pos shr_1 p mrs))
      by (rewrite IH by lia; apply Z.div_pos; lia).
    rewrite IH, IH by lia.
    rewrite !Z.div_div by lia. rewrite pow2_xO. reflexivity.
  - rewrite shr_1_m by lia. reflexivity.
Qed.

Lemma shr_record_of_loc_m (m : Z) (l : location) : shr_m (shr_record_of_loc m l) = m.
Proof. destruct l as [|[]]; reflexivity. Qed.

Lemma Zdigits2_div_pow2 (m d n : Z) :
  0 <= m -> 0 < n -> m < 2 ^ d -> 0 <= d ->
  Zdigits2 (m / 2 ^ n) <= Z.max 0 (d - n).
Proof.
  intros Hm Hn Hlt Hd.
  assert (Hq : 0 <= m / 2 ^ n) by (apply Z.div_pos; lia).
  apply Zdigits2_le; [assumption|lia|].
  destruct (Z_le_gt_dec n d) as [Hle|Hgt].
  - rewrite Z.max_r by lia.
    apply Z.div_lt_upper_bound; [lia|].
    rewrite <- Z.pow_add_r by lia. replace (n + (d - n)) with d by lia. assumption.
  - rewrite Z.max_l by lia. cbn.
    assert (2 ^ d <= 2 ^ n) by (apply Z.pow_le_mono_r; lia).
    rewrite Z.div_small by lia. lia.
Qed.

Lemma fexp_value (x : Z) : fexp prec emax x = Z.max (x - 53) (-1074).
Proof. reflexivity. Qed.

Lemma shr_fexp_small (m e : Z) (l : location) (K : Z) :
  0 <= m -> Zdigits2 m + e <= K -> e <= K -> -1074 <= K ->
  0 <= shr_m (fst (shr_fexp prec emax m e l)) /\
  Zdigits2 (shr_m (fst (shr_fexp prec emax m e l))) + snd (shr_fexp prec emax m e l) <= K /\
  snd (shr_fexp prec emax m e l) <= K.
Proof.
  intros Hm Hd He HK. unfold shr_fexp, shr. rewrite fexp_value.
  destruct (Z.max (Zdigits2 m + e - 53) (-1074) - e) as [|p|p] eqn:Hn;
    cbn [fst snd]; rewrite ?shr_record_of_loc_m; try (repeat split; lia).
  rewrite iter_shr_1_m by (rewrite shr_record_of_loc_m; lia).
  rewrite shr_record_of_loc_m.
  pose proof (Zdigits2_nonneg m) as Hd0.
  pose proof (Zdigits2_div_pow2 m (Zdigits2 m) (Zpos p) Hm ltac:(lia)
                (Zdigits2_upper m Hm) Hd0) as Hq.
  split; [apply Z.div_pos; lia|]. lia.
Qed.

Lemma round_nearest_even_small (m : Z) (l : location) :
  0 <= m ->
  0 <= round_nearest_even m l /\
  Zdigits2 (round_nearest_even m l) <= Zdigits2 m + 1.
Proof.
  intros Hm.
  assert (Hs : 0 <= m + 1 /\ Zdigits2 (m + 1) <= Zdigits2 m + 1).
  { split; [lia|]. pose proof (Zdigits2_nonneg m). pose proof (Zdigits2_upper m Hm).
    apply Zdigits2_le; [lia|lia|]. rewrite Z.pow_add_r by lia. lia. }
  unfold round_nearest_even.
  destruct l as [|[]]; try destruct (Z.even m); try (split; lia); exact Hs.
Qed.

(** The core: rounding a non-negative mantissa never produces a NaN, and
    produces an infinity only beyond the given magnitude. *)
Lemma binary_round_aux_small (sx : bool) (mx ex : Z) (lx : location) (K : Z) :
  0 <= mx -> Zdigits2 mx + ex <= K -> ex <= K -> -1074 <= K <= 971 ->
  sf_small (K + 1) (binary_round_aux prec emax sx mx ex lx).
Proof.
  intros Hm Hd He HK. unfold binary_round_aux.
  pose proof (shr_fexp_small mx ex lx K Hm Hd He ltac:(lia)) as (H1 & H2 & H3).
  destruct (shr_fexp prec emax mx ex lx) as [mrs' e'] eqn:E1. cbn [fst snd] in *.
  pose proof (round_nearest_even_small (shr_m mrs') (loc_of_shr_record mrs') H1)
    as (H4 & H5).
  pose proof (shr_fexp_small (round_nearest_even (shr_m mrs') (loc_of_shr_record mrs'))
                e' loc_Exact (K + 1) H4 ltac:(lia) ltac:(lia) ltac:(lia))
    as (H6 & H7 & H8).
  destruct (shr_fexp prec emax
              (round_nearest_even (shr_m mrs') (loc_of_shr_record mrs')) e' loc_Exact)
    as [mrs'' e''] eqn:E2. cbn [fst snd] in *.
  destruct (shr_m mrs'') as [|m|m] eqn:E3; cbn [sf_small]; [exact I| |lia].
  cbn [Zdigits2] in H7.
  assert (Hle : e'' <= 971) by (pose proof (Pos2Z.is_pos (digits2_pos m)); lia).
  replace (e'' <=? emax - prec) with true
    by (symmetry; apply Z.leb_le; exact Hle).
  cbn [sf_small]. lia.
Qed.

Lemma sf_small_mono (a b : Z) (x : spec_float) : sf_small a x -> a <= b -> sf_small b x.
Proof. destruct x; cbn; intros; try assumption; lia. Qed.

Lemma SFmul_small (a b : Z) (x y : spec_float) :
  sf_small a x -> sf_small b y -> -1074 <= a + b <= 971 ->
  sf_small (a + b + 1) (SF64mul x y).
Proof.
  intros Hx Hy HK. unfold SF64mul, SFmul.
  destruct x as [sx|sx| |sx mx ex], y as [sy|sy| |sy my ey];
    cbn [sf_small] in *; try contradiction; try exact I.
  apply binary_round_aux_small; try lia.
  pose proof (digits2_pos_bounds mx) as [_ Hmx].
  pose proof (digits2_pos_bounds my) as [_ Hmy].
  assert (Hd : Zdigits2 (Zpos (mx * my))
               <= Zpos (digits2_pos mx) + Zpos (digits2_pos my)).
  { apply Zdigits2_le; [lia|lia|]. rewrite Z.pow_add_r by lia.
    rewrite Pos2Z.inj_mul. nia. }
  lia.
Qed.

Lemma iter_xO (m d : positive) : Zpos (Pos.iter xO m d) = Zpos m * 2 ^ Zpos d.
Proof.
  induction d as [|d IH] using Pos.peano_ind.
  - cbn. lia.
  - rewrite Pos.iter_succ, Pos2Z.inj_xO, IH, Pos2Z.inj_succ, Z.pow_succ_r by lia. lia.
Qed.

Lemma shl_align_spec (mx : positive) (ex ex' : Z) :
  (ex' <= ex ->
   Zpos (fst (shl_align mx ex ex')) = Zpos mx * 2 ^ (ex - ex') /\
   snd (shl_align mx ex ex') = ex') /\
  (ex < ex' -> shl_align mx ex ex' = (mx, ex)).
Proof.
  unfold shl_align. destruct (ex' - ex) as [|d|d] eqn:Hd; cbn [fst snd].
  - split; [intros _|lia]. replace (ex - ex') with 0 by lia. split; lia.
  - split; [lia|reflexivity].
  - split; [intros _|lia]. rewrite iter_xO.
    replace (ex - ex') with (Zpos d) by lia. split; reflexivity.
Qed.

Lemma binary_round_small (sx : bool) (mx : positive) (ex K : Z) :
  Zpos (digits2_pos mx) + ex <= K -> -1074 <= K <= 971 ->
  sf_small (K + 1) (binary_round prec emax sx mx ex).
Proof.
  intros Hd HK. unfold binary_round.
  pose proof (shl_align_spec mx ex (fexp prec emax (Zpos (digits2_pos mx) + ex)))
    as [Hle Hgt].
  destruct (shl_align mx ex (fexp prec emax (Zpos (digits2_pos mx) + ex)))
    as [mz ez] eqn:E. cbn [fst snd] in *.
  pose proof (digits2_pos_bounds mx) as [_ Hmx].
  destruct (Z_le_gt_dec (fexp prec emax (Zpos (digits2_pos mx) + ex)) ex) as [H|H].
  - destruct (Hle H) as [Hm He].
    apply binary_round_aux_small; try lia.
    assert (Zdigits2 (Zpos mz) <= Zpos (digits2_pos mx) + (ex - ez)).
    { apply Zdigits2_le; [lia|lia|]. rewrite Hm, Z.pow_add_r by lia.
      subst ez. assert (0 < 2 ^ (ex - fexp prec emax (Zpos (digits2_pos mx) + ex)))
        by (apply Z.pow_pos_nonneg; lia). nia. }
    lia.
  - injection (Hgt ltac:(lia)) as -> ->.
    apply binary_round_aux_small; cbn [Zdigits2]; lia.
Qed.

Lemma Zdigits2_abs_le (m k : Z) : 0 <= k -> Z.abs m < 2 ^ k -> Zdigits2 m <= k.
Proof.
  intros Hk H. destruct m as [|p|p]; cbn [Zdigits2].
  - lia.
  - apply (Zdigits2_le (Zpos p) k); lia.
  - apply (Zdigits2_le (Zpos p) k); lia.
Qed.

Lemma binary_normalize_small (m e K : Z) (szero : bool) :
  Zdigits2 m + e <= K -> e <= K -> -1074 <= K <= 971 ->
  sf_small (K + 1) (binary_normalize prec emax m e szero).
Proof.
  intros Hd He HK. unfold binary_normalize.
  destruct m as [|p|p]; cbn [Zdigits2] in Hd.
  - exact I.
  - apply binary_round_small; assumption.
  - apply binary_round_small; assumption.
Qed.

(** The aligned mantissas whose sum or difference an addition rounds. *)
Lemma aligned_sum_small (sx sy : bool) (mx my : positive) (ex ey c : Z) (sub : bool) :
  Zpos (digits2_pos mx) + ex <= c -> Zpos (digits2_pos my) + ey <= c ->
  let ez := Z.min ex ey in
  let A := cond_Zopp sx (Zpos (fst (shl_align mx ex ez))) in
  let B := cond_Zopp sy (Zpos (fst (shl_align my ey ez))) in
  Zdigits2 (if sub then A - B else A + B) + ez <= c + 1.
Proof.
  intros Hx Hy ez A B.
  destruct (shl_align_spec mx ex ez) as [Hax _].
  destruct (shl_align_spec my ey ez) as [Hay _].
  destruct (Hax ltac:(subst ez; lia)) as [HA _].
  destruct (Hay ltac:(subst ez; lia)) as [HB _].
  pose proof (digits2_pos_bounds mx) as [_ Hmx].
  pose proof (digits2_pos_bounds my) as [_ Hmy].
  assert (Hez1 : ez <= ex) by (subst ez; lia).
  assert (Hez2 : ez <= ey) by (subst ez; lia).
  assert (HA' : Zpos (fst (shl_align mx ex ez)) < 2 ^ (c - ez)).
  { rewrite HA.
    apply Z.lt_le_trans with (2 ^ Zpos (digits2_pos mx) * 2 ^ (ex - ez)).
    - apply Z.mul_lt_mono_pos_r; [apply Z.pow_pos_nonneg; lia|assumption].
    - rewrite <- Z.pow_add_r by lia. apply Z.pow_le_mono_r; lia. }
  assert (HB' : Zpos (fst (shl_align my ey ez)) < 2 ^ (c - ez)).
  { rewrite HB.
    apply Z.lt_le_trans with (2 ^ Zpos (digits2_pos my) * 2 ^ (ey - ez)).
    - apply Z.mul_lt_mono_pos_r; [apply Z.pow_pos_nonneg; lia|assumption].
    - rewrite <- Z.pow_add_r by lia. apply Z.pow_le_mono_r; lia. }
  assert (Hdig : Zdigits2 (if sub then A - B else A + B) <= c - ez + 1).
  { apply Zdigits2_abs_le; [lia|]. rewrite Z.pow_add_r by lia.
    change (2 ^ 1) with 2. subst A B.
    destruct sub, sx, sy; cbn [cond_Zopp]; lia. }
  lia.
Qed.

Lemma SFadd_small (a b c : Z) (x y : spec_float) :
  sf_small a x -> sf_small b y -> a <= c -> b <= c -> -1074 <= c + 1 <= 971 ->
  sf_small (c + 2) (SF64add x y).
Proof.
  intros Hx Hy Ha Hb HK. unfold SF64add, SFadd.
  destruct x as [sx|sx| |sx mx ex], y as [sy|sy| |sy my ey];
    cbn [sf_small] in *; try contradiction; try lia.
  - destruct sx, sy; exact I.
  - replace (c + 2) with (c + 1 + 1) by lia.
    apply binary_normalize_small; try lia.
    apply (aligned_sum_small sx sy mx my ex ey c false); lia.
Qed.

Lemma SFsub_small (a b c : Z) (x y : spec_float) :
  sf_small a x -> sf_small b y -> a <= c -> b <= c -> -1074 <= c + 1 <= 971 ->
  sf_small (c + 2) (SF64sub x y).
Proof.
  intros Hx Hy Ha Hb HK. unfold SF64sub, SFsub.
  destruct x as [sx|sx| |sx mx ex], y as [sy|sy| |sy my ey];
    cbn [sf_small] in *; try contradiction; try lia.
  - destruct sx, sy; exact I.
  - replace (c + 2) with (c + 1 + 1) by lia.
    apply binary_normalize_small; try lia.
    apply (aligned_sum_small sx sy mx my ex ey c true); lia.
Qed.


Lemma SFdiv_core_small (mx my : positive) (ex ey : Z) :
  let '(q, e', _) := SFdiv_core_binary prec emax (Zpos mx) ex (Zpos my) ey in
  let D := Zpos (digits2_pos mx) + ex - (Zpos (digits2_pos my) + ey) in
  0 <= q /\ Zdigits2 q + e' <= Z.max (D + 1) (-1074) /\ e' <= Z.max (D - 53) (-1074).
Proof.
  unfold SFdiv_core_binary. cbn [Zdigits2]. rewrite fexp_value.
  set (d1 := Zpos (digits2_pos mx)). set (d2 := Zpos (digits2_pos my)).
  set (e' := Z.min (Z.max (d1 + ex - (d2 + ey) - 53) (-1074)) (ex - ey)).
  set (s := ex - ey - e').
  set (m' := match s with
             | 0 => Zpos mx
             | Zpos _ => Z.shiftl (Zpos mx) s
             | Zneg _ => 0
             end).
  pose proof (digits2_pos_bounds mx) as [_ Hmx]. fold d1 in Hmx.
  pose proof (digits2_pos_bounds my) as [Hmy _]. fold d2 in Hmy.
  assert (Hd1 : 1 <= d1) by (subst d1; lia).
  assert (Hd2 : 1 <= d2) by (subst d2; lia).
  assert (Hs : 0 <= s) by (subst s e'; lia).
  assert (Hm' : 0 <= m' < 2 ^ (d1 + s)).
  { subst m'. destruct s as [|p|p] eqn:Es.
    - rewrite Z.add_0_r. lia.
    - rewrite Z.shiftl_mul_pow2 by lia. rewrite Z.pow_add_r by lia.
      assert (0 < 2 ^ Zpos p) by (apply Z.pow_pos_nonneg; lia). nia.
    - lia. }
  pose proof (Z_div_mod m' (Zpos my) ltac:(lia)) as Hdm.
  destruct (Z.div_eucl m' (Zpos my)) as [q r]. destruct Hdm as [Hq Hr].
  assert (Hq0 : 0 <= q) by nia.
  split; [exact Hq0|]. split; [|subst e'; lia].
  destruct (Z_le_gt_dec 0 (d1 + s - d2 + 1)) as [Hk|Hk].
  - assert (Hql : q < 2 ^ (d1 + s - d2 + 1)).
    { destruct (Z_lt_le_dec q (2 ^ (d1 + s - d2 + 1))) as [|Hge]; [assumption|].
      exfalso.
      assert (2 ^ (d1 + s - d2 + 1) * 2 ^ (d2 - 1) <= q * Zpos my) by nia.
      rewrite <- Z.pow_add_r in H by lia.
      replace (d1 + s - d2 + 1 + (d2 - 1)) with (d1 + s) in H by lia. lia. }
    pose proof (Zdigits2_le q (d1 + s - d2 + 1) Hq0 Hk Hql). subst s. lia.
  - assert (q = 0).
    { assert (2 ^ (d1 + s) <= 2 ^ (d2 - 1)) by (apply Z.pow_le_mono_r; lia). nia. }
    subst q. cbn [Zdigits2]. subst e'. lia.
Qed.

Lemma SFdiv_small (a L : Z) (x y : spec_float) :
  sf_small a x -> sf_big L y -> -1074 <= a - L + 1 <= 971 ->
  sf_small (a - L + 2) (SF64div x y).
Proof.
  intros Hx Hy HK. unfold SF64div, SFdiv.
  destruct x as [sx|sx| |sx mx ex], y as [sy|sy| |sy my ey];
    cbn [sf_small sf_big] in *; try contradiction; try exact I.
  pose proof (SFdiv_core_small mx my ex ey) as H.
  destruct (SFdiv_core_binary prec emax (Zpos mx) ex (Zpos my) ey) as [[q e'] l].
  cbn zeta in H. destruct H as (Hq & Hd & He).
  replace (a - L + 2) with (a - L + 1 + 1) by lia.
  apply binary_round_aux_small; lia.
Qed.

Lemma SFopp_small (K : Z) (x : spec_float) : sf_small K x -> sf_small K (SFopp x).
Proof. destruct x; cbn; auto. Qed.


Lemma small_mul (a b : Z) (x y : float) :
  small a x -> small b y -> -1074 <= a + b <= 971 -> small (a + b + 1) (x * y).
Proof. unfold small. rewrite FloatAxioms.mul_spec. apply SFmul_small. Qed.

Lemma small_add (a b c : Z) (x y : float) :
  small a x -> small b y -> a <= c -> b <= c -> -1074 <= c + 1 <= 971 ->
  small (c + 2) (x + y).
Proof. unfold small. rewrite FloatAxioms.add_spec. apply SFadd_small. Qed.

Lemma small_sub (a b c : Z) (x y : float) :
  small a x -> small b y -> a <= c -> b <= c -> -1074 <= c + 1 <= 971 ->
  small (c + 2) (x - y).
Proof. unfold small. rewrite FloatAxioms.sub_spec. apply SFsub_small. Qed.

Lemma small_div (a L : Z) (x y : float) :
  small a x -> big L y -> -1074 <= a - L + 1 <= 971 -> small (a - L + 2) (x / y).
Proof. unfold small, big. rewrite FloatAxioms.div_spec. apply SFdiv_small. Qed.

Lemma small_mono (a b : Z) (x : float) : small a x -> a <= b -> small b x.
Proof. apply sf_small_mono. Qed.

Lemma big_nonzero (L : Z) (y : float) : big L y -> PrimFloat.eqb y 0 = false.
Proof.
  unfold big. rewrite FloatAxioms.eqb_spec. destruct (Prim2SF y) as [s|s| |s m e]; cbn; try contradiction.
  intros _. destruct s; reflexivity.
Qed.

(** ** The library models on sample values *)

Example int16_examples :
  PyStr.int16 "B6" = Ok 182 /\ PyStr.int16 " f" = Ok 15 /\
  PyStr.int16 "-f" = Ok (-15) /\ PyStr.int16 "0x" = Raise ValueError /\
  PyStr.int16 "" = Raise ValueError /\ PyStr.int16 "f_" = Raise ValueError /\
  PyStr.int16 "GG" = Raise ValueError.
Proof. repeat split; reflexivity. Qed.

Example os_path_examples :
  os_path.join "/Applications/Safari.app" ["Contents"; "Info.plist"]
  = "/Applications/Safari.app/Contents/Info.plist" /\
  os_path.join "/A.app/" ["Contents"; "Resources"; "/etc/x.icns"] = "/etc/x.icns" /\
  os_path_names.basename "/Applications/Safari.app" = "Safari.app" /\
  os_path_names.splitext_root "Safari.app" = "Safari" /\
  os_path_names.splitext_root "shots/v1.2/.hidden" = "shots/v1.2/.hidden".
Proof. repeat split; reflexivity. Qed.

Example colorsys_examples :
  colorsys.rgb_to_hsv 1 0 0 = Ok (0, 1, 1)%float /\
  colorsys.hsv_to_rgb 0.5 1 1 = Ok (0, 1, 1)%float /\
  target_hue "#00FF00" = Ok 0x1.5555555555555p-2%float /\
  auto_darker "#FFB6C1" = Ok "#CC919A".
Proof. repeat split; vm_compute; reflexivity. Qed.

(** ** Overlay blend *)

Lemma multiply_by_255 (a : Z) : multiply_channel a 255 = a.
Proof. unfold multiply_channel. apply Z.div_mul. discriminate. Qed.

Lemma screen_with_0 (a : Z) : screen_channel a 0 = a.
Proof.
  unfold screen_channel. rewrite Z.sub_0_r, Z.div_mul by discriminate. lia.
Qed.

Lemma screen_with_255 (a : Z) : screen_channel a 255 = 255.
Proof. unfold screen_channel. rewrite Z.sub_diag, Z.mul_0_r. reflexivity. Qed.

Lemma pixel_eta (p : pixel) : RGBA (red p) (green p) (blue p) (alpha p) = p.
Proof. destruct p; reflexivity. Qed.

Lemma new_RGBA_named_ok (w h : Z) (color : string) (r g b : Z) :
  getrgb color = Ok (r, g, b) ->
  new_RGBA_named w h color = Ok (new_RGBA w h (RGBA r g b 255)).
Proof. intros H. unfold new_RGBA_named. rewrite H. reflexivity. Qed.

(** The branch taken by [overlay_blend] for a mode other than "multiply" is
    a screen blend, whether the mode is "screen" or anything else. *)
Lemma overlay_blend_screen_branch (img : image) (hex mode : string) (r g b : Z) :
  getrgb hex = Ok (r, g, b) ->
  mode <> "multiply"%string ->
  overlay_blend img hex mode
  = Ok (ImageChops_screen img (new_RGBA (width img) (height img) (RGBA r g b 255))).
Proof.
  intros H Hm. unfold overlay_blend, convert_RGBA.
  rewrite (new_RGBA_named_ok _ _ _ _ _ _ H). cbn [rbind].
  destruct (String.eqb mode "screen"); [reflexivity|].
  destruct (String.eqb_spec mode "multiply"); [contradiction|reflexivity].
Qed.

Lemma overlay_blend_multiply_branch (img : image) (hex : string) (r g b : Z) :
  getrgb hex = Ok (r, g, b) ->
  overlay_blend img hex "multiply"
  = Ok (ImageChops_multiply img (new_RGBA (width img) (height img) (RGBA r g b 255))).
Proof.
  intros H. unfold overlay_blend, convert_RGBA.
  rewrite (new_RGBA_named_ok _ _ _ _ _ _ H). reflexivity.
Qed.

(** C10. For every RGBA image and every colour descriptor that parses,
    [overlay_blend] in mode "multiply" returns an image of the same size
    whose alpha equals the source alpha at every pixel, and in any other
    mode (the "screen" branch and the default fallback) returns an image of
    the same size whose alpha is 255 at every pixel. *)
Theorem overlay_blend_alpha (img : image) (hex : string) (c : rgb) :
  getrgb hex = Ok c ->
  (exists out,
      overlay_blend img hex "multiply" = Ok out /\
      width out = width img /\ height out = height img /\
      forall x y, alpha (px out x y) = alpha (px img x y)) /\
  (forall mode, mode <> "multiply"%string ->
     exists out,
       overlay_blend img hex mode = Ok out /\
       width out = width img /\ height out = height img /\
       forall x y, alpha (px out x y) = 255).
Proof.
  destruct c as [[r g] b]. intros H. split.
  - eexists. split; [apply (overlay_blend_multiply_branch _ _ _ _ _ H)|].
    unfold ImageChops_multiply, map2, new_RGBA.
    cbn [width height px red green blue alpha].
    repeat split. intros x y. apply multiply_by_255.
  - intros mode Hm. eexists.
    split; [apply (overlay_blend_screen_branch _ _ _ _ _ _ H Hm)|].
    unfold ImageChops_screen, map2, new_RGBA.
    cbn [width height px red green blue alpha].
    repeat split. intros x y. apply screen_with_255.
Qed.

Lemma overlay_blend_alpha_witness :
  getrgb "#FFB6C1" = Ok (255, 182, 193) /\
  (exists out,
      overlay_blend Samples.two_tone "#FFB6C1" "multiply" = Ok out /\
      width out = 2 /\ height out = 2 /\
      forall x y, alpha (px out x y) = alpha (px Samples.two_tone x y)) /\
  (forall mode, mode <> "multiply"%string ->
     exists out,
       overlay_blend Samples.two_tone "#FFB6C1" mode = Ok out /\
       width out = 2 /\ height out = 2 /\
       forall x y, alpha (px out x y) = 255).
Proof.
  split; [reflexivity|].
  apply (overlay_blend_alpha Samples.two_tone "#FFB6C1" (255, 182, 193)).
  reflexivity.
Defined.

(** C8, as stated, fails: a screen blend with an all-black overlay turns
    the fully transparent pixel of the sample into an opaque one. *)
Lemma screen_black_changes_transparent_source :
  exists out,
    overlay_blend Samples.ghost_pixel "#000000" "screen" = Ok out /\
    px out 0 0 = RGBA 10 20 30 255 /\
    ~ same_image out Samples.ghost_pixel.
Proof.
  eexists. split; [reflexivity|]. split; [reflexivity|].
  intros (_ & _ & H). specialize (H 0 0). cbn in H.
  assert (Hb : 0 <= 0 < 1 /\ 0 <= 0 < 1) by lia.
  specialize (H Hb). discriminate H.
Qed.

(** C8, amended. For every source image, overlay-blend in mode "multiply"
    with the all-white overlay returns the source unchanged at every pixel,
    alpha included; overlay-blend in mode "screen" with the all-black
    overlay returns an image of the same size that keeps the three colour
    channels of every pixel and sets its alpha to 255. *)
Theorem overlay_blend_neutral_colours (img : image) :
  (exists out,
      overlay_blend img "#FFFFFF" "multiply" = Ok out /\
      width out = width img /\ height out = height img /\
      forall x y, px out x y = px img x y) /\
  (exists out,
      overlay_blend img "#000000" "screen" = Ok out /\
      width out = width img /\ height out = height img /\
      forall x y,
        px out x y
        = RGBA (red (px img x y)) (green (px img x y)) (blue (px img x y)) 255).
Proof.
  split.
  - eexists. split; [apply (overlay_blend_multiply_branch img "#FFFFFF" 255 255 255);
                     reflexivity|].
    unfold ImageChops_multiply, map2, new_RGBA.
    cbn [width height px red green blue alpha].
    repeat split. intros x y.
    rewrite !multiply_by_255. apply pixel_eta.
  - eexists. split; [apply (overlay_blend_screen_branch img "#000000" "screen" 0 0 0);
                     [reflexivity|discriminate]|].
    unfold ImageChops_screen, map2, new_RGBA.
    cbn [width height px red green blue alpha].
    repeat split. intros x y.
    rewrite !screen_with_0, screen_with_255. reflexivity.
Qed.

(** ** Grayscale duotone *)

Lemma ramp_constant (c i : Z) : ramp c c i = c.
Proof.
  unfold ramp. destruct (i <? 255); [|reflexivity].
  rewrite Z.sub_diag, Z.mul_0_r. cbn. lia.
Qed.

(** C9. For every source image and every colour descriptor that parses,
    [grayscale_colorize] with that descriptor as both the light and the
    dark colour returns an image of the same size whose three colour
    channels are that one colour at every pixel, whatever the source holds;
    the alpha of each pixel is the source's. *)
Theorem grayscale_colorize_same_colour (img : image) (hex : string) (c : rgb) :
  getrgb hex = Ok c ->
  exists out,
    grayscale_colorize img hex hex = Ok out /\
    width out = width img /\ height out = height img /\
    forall x y,
      rgb_of (px out x y) = c /\ alpha (px out x y) = alpha (px img x y).
Proof.
  destruct c as [[r g] b]. intros H.
  unfold grayscale_colorize, ImageOps_colorize. rewrite H. cbn [rbind].
  eexists. split; [reflexivity|].
  unfold with_alpha, convert_RGBA, getchannel_A, rgb_of.
  cbn [width height px red green blue alpha].
  repeat split. rewrite !ramp_constant. reflexivity.
Qed.

Lemma grayscale_colorize_same_colour_witness :
  getrgb "#FFB6C1" = Ok (255, 182, 193) /\
  exists out,
    grayscale_colorize Samples.two_tone "#FFB6C1" "#FFB6C1" = Ok out /\
    width out = 2 /\ height out = 2 /\
    forall x y,
      rgb_of (px out x y) = (255, 182, 193) /\
      alpha (px out x y) = alpha (px Samples.two_tone x y).
Proof.
  split; [reflexivity|].
  apply (grayscale_colorize_same_colour Samples.two_tone "#FFB6C1" (255, 182, 193)).
  reflexivity.
Defined.

(** ** Canvas normalisation *)

Lemma div255_exact (c : Z) : 0 <= c <= 255 -> div255 (c * 255) = c.
Proof.
  intros Hc. unfold div255. rewrite !Z.shiftr_div_pow2 by lia.
  change (2 ^ 8) with 256.
  Z.to_euclidean_division_equations. lia.
Qed.

Lemma blend_opaque (d s : Z) : 0 <= s <= 255 -> blend 255 d s = s.
Proof.
  intros Hs. unfold blend. rewrite Z.sub_diag, Z.mul_0_r, Z.add_0_l.
  apply div255_exact; assumption.
Qed.

Lemma new_size_512 : new_size 512 512 = Ok (512, 512).
Proof. vm_compute. reflexivity. Qed.

(** Pasting a crisp pixel through its own alpha over the empty canvas gives
    the pixel back. *)
Lemma paste_crisp (p : pixel) :
  crisp p = true ->
  RGBA (blend (alpha p) 0 (red p)) (blend (alpha p) 0 (green p))
       (blend (alpha p) 0 (blue p)) (blend (alpha p) 0 (alpha p)) = p.
Proof.
  destruct p as [r g b a]. unfold crisp, valid_pixel. cbn [red green blue alpha].
  intros H.
  apply andb_true_iff in H as [Hv Hc].
  repeat (apply andb_true_iff in Hv as [Hv ?]).
  apply orb_true_iff in Hc as [Ha | Hz].
  - apply Z.eqb_eq in Ha. subst a.
    rewrite !blend_opaque by (unfold is_byte in *; lia). reflexivity.
  - repeat (apply andb_true_iff in Hz as [Hz ?]).
    repeat match goal with E : (_ =? _) = true |- _ => apply Z.eqb_eq in E end.
    subst. reflexivity.
Qed.

(** What normalisation does to a buffer that is already 512x512: no
    resampling, offsets 0, and every pixel pasted through its own alpha. *)
Lemma resize_and_center_512_on_512 (lanczos : image -> Z -> Z -> image) (p : raster pixel) :
  resize_and_center_512 lanczos (Image 512 512 p)
  = Ok (Image 512 512
          (fun x y =>
             if (0 <=? x) && (x <? 0 + 512) && (0 <=? y) && (y <? 0 + 512)
             then RGBA (blend (alpha (p (x - 0) (y - 0))) 0 (red (p (x - 0) (y - 0))))
                       (blend (alpha (p (x - 0) (y - 0))) 0 (green (p (x - 0) (y - 0))))
                       (blend (alpha (p (x - 0) (y - 0))) 0 (blue (p (x - 0) (y - 0))))
                       (blend (alpha (p (x - 0) (y - 0))) 0 (alpha (p (x - 0) (y - 0))))
             else RGBA 0 0 0 0)).
Proof.
  unfold resize_and_center_512, convert_RGBA. cbn [width height].
  rewrite new_size_512. reflexivity.
Qed.

(** C2, as stated, fails: the sample is 512x512 with transparent padding
    and centred content, yet normalising it halves the alpha of its
    half-transparent square (128 becomes 64), and normalising the result
    again changes it again (64 becomes 16). *)
Lemma normalising_soft_badge_changes_it :
  exists once twice,
    resize_and_center_512 Samples.no_resample Samples.soft_badge = Ok once /\
    resize_and_center_512 Samples.no_resample once = Ok twice /\
    px Samples.soft_badge 256 256 = RGBA 200 100 50 128 /\
    px once 256 256 = RGBA 100 50 25 64 /\
    px twice 256 256 = RGBA 25 13 6 16 /\
    ~ same_image once Samples.soft_badge /\
    ~ same_image twice once.
Proof.
  unfold Samples.soft_badge.
  eexists. eexists.
  split; [apply resize_and_center_512_on_512|].
  split; [apply resize_and_center_512_on_512|].
  split; [reflexivity|]. split; [reflexivity|]. split; [reflexivity|].
  assert (Hb : 0 <= 256 < 512 /\ 0 <= 256 < 512) by lia.
  split; intros (_ & _ & H); specialize (H 256 256 Hb); discriminate H.
Qed.

Lemma normalise_crisp_512 (lanczos : image -> Z -> Z -> image) (img : image) :
  width img = 512 -> height img = 512 ->
  (forall x y, in_bounds img x y -> crisp (px img x y) = true) ->
  exists out,
    resize_and_center_512 lanczos img = Ok out /\ same_image out img.
Proof.
  destruct img as [w h p]. cbn [width height px]. intros -> -> Hcrisp.
  eexists. split; [apply resize_and_center_512_on_512|].
  unfold same_image, in_bounds. cbn [width height px].
  split; [reflexivity|]. split; [reflexivity|].
  intros x y [Hx Hy].
  replace ((0 <=? x) && (x <? 0 + 512) && (0 <=? y) && (y <? 0 + 512)) with true
    by (symmetry; rewrite !andb_true_iff; lia).
  rewrite !Z.sub_0_r. apply paste_crisp. apply Hcrisp.
  unfold in_bounds. cbn [width height]. lia.
Qed.

(** The normalised buffer is always 512x512. *)
Lemma resize_and_center_512_size (lanczos : image -> Z -> Z -> image) (img out : image) :
  resize_and_center_512 lanczos img = Ok out -> width out = 512 /\ height out = 512.
Proof.
  unfold resize_and_center_512, convert_RGBA.
  destruct (new_size (width img) (height img)) as [[new_w new_h]|e];
    cbn [rbind]; [|discriminate].
  destruct (resize lanczos img new_w new_h) as [resized|e]; cbn [rbind]; [|discriminate].
  unfold paste. destruct (negb _); [discriminate|].
  intros H. injection H as <-. split; reflexivity.
Qed.

(** Normalising a second time changes nothing when the first result holds
    only opaque and zero pixels, whatever the size of the original. *)
Lemma normalising_twice_crisp (lanczos : image -> Z -> Z -> image) (img once : image) :
  resize_and_center_512 lanczos img = Ok once ->
  (forall x y, in_bounds once x y -> crisp (px once x y) = true) ->
  exists twice,
    resize_and_center_512 lanczos once = Ok twice /\ same_image twice once.
Proof.
  intros Hrun Hcrisp.
  destruct (resize_and_center_512_size lanczos img once Hrun) as [Hw Hh].
  apply normalise_crisp_512; assumption.
Qed.

(** C2, amended. Normalising a buffer that is already 512x512 and whose
    every pixel is either fully opaque or zero in all four bands returns a
    buffer equal to the input. *)
Theorem resize_and_center_512_fixes_crisp_512
  (lanczos : image -> Z -> Z -> image) (img : image) :
  width img = 512 -> height img = 512 ->
  (forall x y, in_bounds img x y -> crisp (px img x y) = true) ->
  exists out,
    resize_and_center_512 lanczos img = Ok out /\ same_image out img.
Proof.
  intros Hw Hh Hcrisp.
  destruct (normalise_crisp_512 lanczos img Hw Hh Hcrisp) as (out & Hrun & Hsame).
  exists out. split; [exact Hrun|exact Hsame].
Qed.

Lemma badge_is_crisp (x y : Z) :
  in_bounds Samples.badge x y -> crisp (px Samples.badge x y) = true.
Proof.
  intros _. cbn [Samples.badge px].
  destruct ((128 <=? x) && (x <? 384) && (128 <=? y) && (y <? 384)); reflexivity.
Defined.

Lemma resize_and_center_512_fixes_crisp_512_witness :
  exists out,
    resize_and_center_512 Samples.no_resample Samples.badge = Ok out /\
    same_image out Samples.badge.
Proof.
  apply (resize_and_center_512_fixes_crisp_512 Samples.no_resample Samples.badge).
  - reflexivity.
  - reflexivity.
  - exact badge_is_crisp.
Defined.

Example new_size_examples :
  new_size 300 600 = Ok (256, 512) /\
  new_size 600 300 = Ok (512, 256) /\
  new_size 49 49 = Ok (511, 512) /\
  new_size 2000 1 = Ok (512, 0).
Proof. repeat split; vm_compute; reflexivity. Qed.

(** One side of the resized copy is always 512. *)
Lemma new_size_has_512 (w h new_w new_h : Z) :
  new_size w h = Ok (new_w, new_h) -> new_w = 512 \/ new_h = 512.
Proof.
  unfold new_size. destruct (w >? h).
  - destruct (scale_to_512 h w); cbn [rbind]; [|discriminate].
    intros H. injection H as <- _. auto.
  - destruct (scale_to_512 w h); cbn [rbind]; [|discriminate].
    intros H. injection H as _ <-. auto.
Qed.

(** When the resize request is accepted, the copy is pasted through its own
    alpha on the transparent canvas at the centring offsets. *)
Lemma resize_and_center_512_pastes_centered
  (lanczos : image -> Z -> Z -> image) (img resized : image) (new_w new_h : Z) :
  new_size (width img) (height img) = Ok (new_w, new_h) ->
  resize lanczos img new_w new_h = Ok resized ->
  resize_and_center_512 lanczos img
  = paste (new_RGBA 512 512 (RGBA 0 0 0 0)) resized
      ((512 - new_w) / 2) ((512 - new_h) / 2) resized.
Proof.
  intros Hsize Hres. unfold resize_and_center_512, convert_RGBA.
  rewrite Hsize. cbn [rbind]. rewrite Hres. reflexivity.
Qed.

(** C3, at the failing input. For a source one pixel wide and 513 high the
    width of the resized copy is computed as [int(1 * (512.0 / 513))], which
    is 0, and the resize request is rejected: nothing is pasted. *)
Theorem resize_and_center_512_rejects_1x513
  (lanczos : image -> Z -> Z -> image) (p : raster pixel) :
  new_size 1 513 = Ok (0, 512) /\
  resize_and_center_512 lanczos (Image 1 513 p) = Raise ValueError.
Proof.
  assert (H : new_size 1 513 = Ok (0, 512)) by (vm_compute; reflexivity).
  split; [exact H|].
  unfold resize_and_center_512, convert_RGBA. cbn [width height].
  rewrite H. reflexivity.
Qed.

(** ** The bundle icon locator *)

Lemma truthy_nonempty (s : string) : PyStr.truthy s = true <-> s <> EmptyString.
Proof. destruct s; cbn; split; congruence. Qed.

Lemma endswith_sep_cons (a : ascii) (s : string) :
  s <> "" -> PyStr.endswith (String a s) "/" = PyStr.endswith s "/".
Proof.
  destruct s as [|b s']; [contradiction|]. intros _.
  unfold PyStr.endswith. cbn [String.length Nat.sub Nat.leb substring].
  rewrite Nat.sub_0_r. reflexivity.
Qed.

Lemma append_nonempty (s t : string) : t <> "" -> (s ++ t)%string <> "".
Proof. destruct s; cbn; [auto|discriminate]. Qed.

Lemma endswith_sep_app (s t : string) :
  t <> "" -> PyStr.endswith (s ++ t) "/" = PyStr.endswith t "/".
Proof.
  intros Ht. induction s as [|a s IH]; [reflexivity|].
  cbn [append]. rewrite endswith_sep_cons by (apply append_nonempty; exact Ht).
  exact IH.
Qed.

Lemma append_assoc (s t u : string) : ((s ++ t) ++ u = s ++ (t ++ u))%string.
Proof. induction s as [|a s IH]; cbn; [reflexivity|rewrite IH; reflexivity]. Qed.

(** Joining a relative component to a non-empty path that does not end
    with a separator inserts exactly one separator. *)
Lemma join2_plain (path b : string) :
  path <> "" -> PyStr.endswith path "/" = false -> PyStr.startswith b "/" = false ->
  os_path.join2 path b = (path ++ "/" ++ b)%string.
Proof.
  intros Hp He Hb. unfold os_path.join2. rewrite Hb, He.
  destruct path; [contradiction|reflexivity].
Qed.

(** For a bundle path without a trailing separator and a relative icon
    name, the two probed paths are [<bundle>/Contents/Info.plist] and
    [<bundle>/Contents/Resources/<name>]. *)
Lemma bundle_paths_plain (app_path : string) :
  app_path <> "" -> PyStr.endswith app_path "/" = false ->
  info_plist_path app_path = (app_path ++ "/Contents/Info.plist")%string /\
  forall name, PyStr.startswith name "/" = false ->
    resource_path app_path name = (app_path ++ "/Contents/Resources/" ++ name)%string.
Proof.
  intros Hp He. unfold info_plist_path, resource_path, os_path.join. cbn [fold_left].
  rewrite (join2_plain app_path "Contents" Hp He eq_refl).
  assert (H1 : (app_path ++ "/" ++ "Contents")%string <> "")
    by (apply append_nonempty; discriminate).
  assert (E1 : PyStr.endswith (app_path ++ "/" ++ "Contents") "/" = false)
    by (rewrite endswith_sep_app by discriminate; reflexivity).
  split.
  - rewrite (join2_plain _ "Info.plist" H1 E1 eq_refl).
    rewrite append_assoc. reflexivity.
  - intros name Hn.
    rewrite (join2_plain _ "Resources" H1 E1 eq_refl).
    rewrite join2_plain; [| | |exact Hn].
    + rewrite !append_assoc. reflexivity.
    + apply append_nonempty. discriminate.
    + rewrite append_assoc. rewrite endswith_sep_app by discriminate. reflexivity.
Qed.

(** C4. For every world and bundle path, [pull_app_icon] returns [None]
    exactly when the descriptor file [<bundle>/Contents/Info.plist] does not
    exist, or the parsed descriptor has no [CFBundleIconFile] entry or an
    empty one, or the constructed file [<bundle>/Contents/Resources/<name>]
    (with [.icns] appended when the lower-cased name lacks it) does not
    exist; and it returns a path exactly when that constructed file exists,
    the path being the constructed one.  The two paths are spelled out for
    a bundle path without a trailing separator and a relative name. *)
Theorem pull_app_icon_cases (w : world) (app_path : string) :
  (pull_app_icon w app_path = Ok None <->
     isfile w (info_plist_path app_path) = false
     \/ (isfile w (info_plist_path app_path) = true /\
         exists items,
           load_plist w (info_plist_path app_path) = Ok (PDict items) /\
           icon_entry_empty items = true)
     \/ (isfile w (info_plist_path app_path) = true /\
         exists items name,
           load_plist w (info_plist_path app_path) = Ok (PDict items) /\
           assoc "CFBundleIconFile" items = Some (PString name) /\
           name <> EmptyString /\
           isfile w (resource_path app_path (ensure_icns name)) = false))
  /\
  (forall path,
     pull_app_icon w app_path = Ok (Some path) <->
     isfile w (info_plist_path app_path) = true /\
     exists items name,
       load_plist w (info_plist_path app_path) = Ok (PDict items) /\
       assoc "CFBundleIconFile" items = Some (PString name) /\
       name <> EmptyString /\
       path = resource_path app_path (ensure_icns name) /\
       isfile w path = true)
  /\
  (app_path <> "" -> PyStr.endswith app_path "/" = false ->
   info_plist_path app_path = (app_path ++ "/Contents/Info.plist")%string /\
   forall name, PyStr.startswith name "/" = false ->
     resource_path app_path name
     = (app_path ++ "/Contents/Resources/" ++ name)%string).
Proof.
  rewrite <- and_assoc. split; [|apply bundle_paths_plain].
  unfold pull_app_icon, icon_entry_empty.
  destruct (isfile w (info_plist_path app_path)) eqn:Hinfo; cbn [negb].
  2:{ split; [split; [auto|reflexivity]|].
      intros path. split; [discriminate|]. intros [H _]. discriminate H. }
  destruct (load_plist w (info_plist_path app_path)) as [d|e] eqn:Hload;
    cbn [rbind].
  2:{ split; [split; [discriminate|]|intros path; split; [discriminate|]].
      - intros [H|[(_ & items & H & _)|(_ & items & name & H & _)]]; discriminate H.
      - intros (_ & items & name & H & _). discriminate H. }
  destruct d as [s|n|x|b|bytes|t|l|items]; cbn [plist_get rbind];
    try (split; [split; [discriminate|]|intros path; split; [discriminate|]];
         [intros [H|[(_ & items & H & _)|(_ & items & name & H & _)]];
          discriminate H
         |intros (_ & items & name & H & _); discriminate H]).
  destruct (assoc "CFBundleIconFile" items) as [v|] eqn:Hassoc.
  2:{ split; [split; [intros _|reflexivity]|intros path; split; [discriminate|]].
      - right; left. split; [reflexivity|]. exists items. rewrite Hassoc. auto.
      - intros (_ & items' & name & H & H' & _).
        injection H as <-. rewrite Hassoc in H'. discriminate H'. }
  destruct (plist_truthy v) eqn:Htruthy; cbn [negb].
  2:{ split; [split; [intros _|reflexivity]|intros path; split; [discriminate|]].
      - right; left. split; [reflexivity|]. exists items.
        rewrite Hassoc, Htruthy. auto.
      - intros (_ & items' & name & H & H' & Hname & _).
        injection H as <-. rewrite Hassoc in H'. injection H' as ->.
        cbn in Htruthy. apply truthy_nonempty in Hname. congruence. }
  destruct v as [s|n|x|b|bytes|t|l|items']; cbn [icon_file_name rbind];
    try (split; [split; [discriminate|]|intros path; split; [discriminate|]];
         [intros [H|[(_ & items0 & H & H')|(_ & items0 & name & H & H' & _)]];
          [discriminate H
          |injection H as <-; rewrite Hassoc, Htruthy in H'; discriminate H'
          |injection H as <-; rewrite Hassoc in H'; discriminate H']
         |intros (_ & items0 & name & H & H' & _);
          injection H as <-; rewrite Hassoc in H'; discriminate H']).
  cbn in Htruthy. apply truthy_nonempty in Htruthy.
  destruct (isfile w (resource_path app_path (ensure_icns s))) eqn:Hres.
  - split; [split; [discriminate|]|intros path; split].
    + intros [H|[(_ & items0 & H & H')|(_ & items0 & name & H & H' & _ & H'')]].
      * discriminate H.
      * injection H as <-. rewrite Hassoc in H'.
        apply truthy_nonempty in Htruthy. cbn in H'. rewrite Htruthy in H'.
        discriminate H'.
      * injection H as <-. rewrite Hassoc in H'. injection H' as <-.
        congruence.
    + intros H. injection H as <-. split; [reflexivity|].
      exists items, s. auto.
    + intros (_ & items0 & name & H & H' & _ & -> & _).
      injection H as <-. rewrite Hassoc in H'. injection H' as <-. reflexivity.
  - split; [split; [intros _|reflexivity]|intros path; split; [discriminate|]].
    + right; right. split; [reflexivity|]. exists items, s. auto.
    + intros (_ & items0 & name & H & H' & _ & -> & H'').
      injection H as <-. rewrite Hassoc in H'. injection H' as <-. congruence.
Qed.

Example pull_app_icon_demo :
  pull_app_icon Samples.demo_world "/Applications/Demo.app"
  = Ok (Some "/Applications/Demo.app/Contents/Resources/AppIcon.icns") /\
  pull_app_icon Samples.demo_world "/Applications/Other.app" = Ok None.
Proof. split; reflexivity. Qed.

(** C5, as stated, fails: when the descriptor file exists and cannot be
    parsed, the parser's exception leaves [pull_app_icon]. *)
Lemma pull_app_icon_raises_on_malformed_descriptor :
  isfile Samples.broken_world (info_plist_path "/Applications/Demo.app") = true /\
  pull_app_icon Samples.broken_world "/Applications/Demo.app"
  = Raise InvalidFileException.
Proof. split; reflexivity. Qed.

(** C5, amended. [pull_app_icon] ends without an exception, with a path or
    the not-found signal, exactly when the descriptor file does not exist or
    it loads as a dictionary whose [CFBundleIconFile] entry is absent, has a
    false truth value, or is a string; in every other case (the file cannot
    be read or parsed, its root is not a dictionary, the entry is a non-empty
    value that is not a string) it raises to its caller. *)
Theorem pull_app_icon_returns_iff (w : world) (app_path : string) :
  (exists r, pull_app_icon w app_path = Ok r) <->
  (isfile w (info_plist_path app_path) = false \/
   exists items,
     load_plist w (info_plist_path app_path) = Ok (PDict items) /\
     icon_entry_usable items = true).
Proof.
  unfold pull_app_icon, icon_entry_usable.
  destruct (isfile w (info_plist_path app_path)) eqn:Hinfo; cbn [negb].
  2:{ split; [auto|]. intros _. eexists. reflexivity. }
  destruct (load_plist w (info_plist_path app_path)) as [d|e] eqn:Hload;
    cbn [rbind].
  2:{ split; [intros [r H]; discriminate H|].
      intros [H|(items & H & _)]; discriminate H. }
  destruct d as [s|n|x|b|bytes|t|l|items]; cbn [plist_get rbind];
    try (split; [intros [r H]; discriminate H
                |intros [H|(items & H & _)]; discriminate H]).
  destruct (assoc "CFBundleIconFile" items) as [v|] eqn:Hassoc.
  2:{ split; [intros _|intros _; eexists; reflexivity].
      right. exists items. rewrite Hassoc. auto. }
  destruct (plist_truthy v) eqn:Htruthy; cbn [negb orb].
  2:{ split; [intros _|intros _; eexists; reflexivity].
      right. exists items. rewrite Hassoc, Htruthy. auto. }
  destruct v as [s|n|x|b|bytes|t|l|items']; cbn [icon_file_name rbind is_string];
    try (split; [intros [r H]; discriminate H
                |intros [H|(items0 & H & H')];
                 [discriminate H
                 |injection H as <-; rewrite Hassoc, Htruthy in H';
                  discriminate H']]).
  split.
  - intros _. right. exists items. rewrite Hassoc, Htruthy. auto.
  - intros _.
    destruct (isfile w (resource_path app_path (ensure_icns s)));
      eexists; reflexivity.
Qed.

(** ** Runs of the script *)



Section Runs.

Variable lanczos : image -> Z -> Z -> image.
Variable float_of_string : string -> option float.
Variable w : world.

(** A file that does not open ends the standard loop at once. *)
Lemma process_images_open_failure
  (choice target : string) (o : options) (path : string) (rest : list string)
  (e : exn) :
  decode_image w path = Raise e ->
  process_images lanczos w choice target o (path :: rest)
  = ([Printed (Processing path (os_path_names.splitext_root path ++ ".icns"));
      Opened path], Raise e).
Proof.
  intros H. cbn [process_images]. unfold process_image, image_open.
  rewrite H. reflexivity.
Qed.





End Runs.

Lemma standard_choice (c : option string) :
  is_choice c ["1"; "2"; "3"] = true ->
  blank c = false /\ String.eqb (PyStr.lower (text c)) "app" = false.
Proof.
  destruct c as [s|]; [|discriminate]. cbn [is_choice existsb].
  destruct (String.eqb_spec s "1") as [->|_]; [split; reflexivity|].
  destruct (String.eqb_spec s "2") as [->|_]; [split; reflexivity|].
  destruct (String.eqb_spec s "3") as [->|_]; [split; reflexivity|].
  discriminate.
Qed.

(** In the bundle loop a failure to open an icon is caught: the bundle is
    reported and the loop goes on to the next one. *)
Lemma recolor_app_icon_open_failure
  (lanczos : image -> Z -> Z -> image) (w : world)
  (recolor_function : image -> result image) (out_dir app_path icon : string)
  (e : exn) :
  PyStr.endswith (PyStr.lower app_path) ".app" = true ->
  pull_app_icon w app_path = Ok (Some icon) ->
  PyStr.truthy icon = true ->
  decode_image w icon = Raise e ->
  recolor_app_icon lanczos w recolor_function out_dir app_path
  = ([Opened icon; Printed (CouldNotOpenIcon app_path)], Ok tt).
Proof.
  intros Happ Hicon Ht Hopen. unfold recolor_app_icon, image_open, attempt.
  rewrite Happ, Hicon. cbn. rewrite Ht, Hopen. reflexivity.
Qed.

(** C7, at the failing input. In standard mode, when the first selected
    file does not open, the run ends there with the exception of the failed
    open: the trace holds the progress line and the open of that file and
    nothing of the files that follow. *)
Theorem standard_run_stops_at_open_failure
  (lanczos : image -> Z -> Z -> image) (float_of_string : string -> option float)
  (w : world) (a : answers) (o : options) (path : string) (rest : list string)
  (e : exn) :
  is_choice (approach_choice a) ["1"; "2"; "3"] = true ->
  blank (target_hex a) = false ->
  selected_paths a = path :: rest ->
  gather_options float_of_string a (text (approach_choice a)) (text (target_hex a))
  = Ok o ->
  decode_image w path = Raise e ->
  main lanczos float_of_string w a
  = ([Printed (Processing path (os_path_names.splitext_root path ++ ".icns"));
      Opened path], Raise e).
Proof.
  intros Hc Hhex Hpaths Hopt Hopen.
  destruct (standard_choice _ Hc) as [Hb Happ].
  unfold main. rewrite Hb, Happ, Hc, Hhex, Hpaths, Hopt. cbn [negb lift io_bind].
  rewrite (process_images_open_failure lanczos w _ _ o path rest e Hopen).
  reflexivity.
Qed.

Lemma standard_run_stops_at_open_failure_witness :
  main Samples.no_resample Samples.no_float Samples.demo_world Samples.bad_file_run
  = ([Printed (Processing "bad.png" "bad.icns"); Opened "bad.png"], Raise OSError).
Proof.
  apply (standard_run_stops_at_open_failure
           Samples.no_resample Samples.no_float Samples.demo_world
           Samples.bad_file_run
           (Options 1%float 1%float "" "screen")
           "bad.png" ["good.png"] OSError);
    reflexivity.
Defined.




(** ** Rounding: how far a rounded result is from the exact one

    [binary_round_aux] shifts the mantissa right until it has 53 digits,
    rounds it to the mantissa below or above, and shifts once more when the
    rounding carried.  On a positive mantissa away from the subnormal and
    overflow ranges the result is therefore a finite float within one unit
    of its last place of the exact value. *)

Lemma shr_fexp_shift (m e : Z) (l : location) :
  0 <= m -> -1074 <= e ->
  snd (shr_fexp prec emax m e l) = e + Z.max 0 (Zdigits2 m - 53) /\
  shr_m (fst (shr_fexp prec emax m e l)) = m / 2 ^ Z.max 0 (Zdigits2 m - 53).
Proof.
  intros Hm He. unfold shr_fexp, shr. rewrite fexp_value.
  destruct (Z.max (Zdigits2 m + e - 53) (-1074) - e) as [|p|p] eqn:Hn;
    cbn [fst snd].
  - replace (Z.max 0 (Zdigits2 m - 53)) with 0 by lia.
    rewrite shr_record_of_loc_m, Z.pow_0_r, Z.div_1_r. lia.
  - replace (Z.max 0 (Zdigits2 m - 53)) with (Zpos p) by lia.
    rewrite iter_shr_1_m by (rewrite shr_record_of_loc_m; lia).
    rewrite shr_record_of_loc_m. lia.
  - replace (Z.max 0 (Zdigits2 m - 53)) with 0 by lia.
    rewrite shr_record_of_loc_m, Z.pow_0_r, Z.div_1_r. lia.
Qed.

Lemma round_nearest_even_near (m : Z) (l : location) :
  m <= round_nearest_even m l <= m + 1.
Proof.
  unfold round_nearest_even. destruct l as [|[]]; try destruct (Z.even m); lia.
Qed.

(** A positive mantissa cut down to 53 digits. *)
Lemma cut_to_53 (m : Z) :
  1 <= m ->
  let n := Z.max 0 (Zdigits2 m - 53) in
  1 <= m / 2 ^ n /\ m / 2 ^ n < 2 ^ 53 /\
  m / 2 ^ n * 2 ^ n <= m /\ m + 1 <= (m / 2 ^ n + 1) * 2 ^ n.
Proof.
  intros Hm n.
  pose proof (Zdigits2_lower m ltac:(lia)) as Hlow.
  pose proof (Zdigits2_upper m ltac:(lia)) as Hup.
  pose proof (Zdigits2_nonneg m) as Hd.
  assert (Hd1 : 1 <= Zdigits2 m) by (destruct m; cbn in *; lia).
  assert (Hn : 0 <= n <= Zdigits2 m - 1) by (subst n; lia).
  assert (Hp : 0 < 2 ^ n) by (apply Z.pow_pos_nonneg; lia).
  assert (Hle : 2 ^ n <= 2 ^ (Zdigits2 m - 1)) by (apply Z.pow_le_mono_r; lia).
  pose proof (Z.mul_div_le m (2 ^ n) Hp) as H1.
  pose proof (Z.mul_succ_div_gt m (2 ^ n) Hp) as H2.
  repeat split.
  - apply Z.div_le_lower_bound; lia.
  - apply Z.div_lt_upper_bound; [lia|].
    rewrite <- Z.pow_add_r by lia.
    apply Z.lt_le_trans with (2 ^ Zdigits2 m); [assumption|].
    apply Z.pow_le_mono_r; lia.
  - lia.
  - lia.
Qed.

Lemma binary_round_aux_bracket (mx ex : Z) (lx : location) :
  1 <= mx -> -1074 <= ex -> ex + Z.max 0 (Zdigits2 mx - 53) < 971 ->
  exists m e,
    binary_round_aux prec emax false mx ex lx = S754_finite false m e /\
    ex <= e <= ex + Z.max 0 (Zdigits2 mx - 53) + 1 /\
    (Zpos m - 1) * 2 ^ (e - ex) <= mx /\
    mx + 1 <= (Zpos m + 1) * 2 ^ (e - ex).
Proof.
  intros Hm He Hov. unfold binary_round_aux.
  destruct (shr_fexp_shift mx ex lx ltac:(lia) He) as [E1e E1m].
  destruct (shr_fexp prec emax mx ex lx) as [mrs' e'] eqn:E1. cbn [fst snd] in *.
  destruct (cut_to_53 mx Hm) as (C1 & C2 & C3 & C4).
  set (n1 := Z.max 0 (Zdigits2 mx - 53)) in *.
  rewrite <- E1m in C1, C2, C3, C4.
  pose proof (round_nearest_even_near (shr_m mrs') (loc_of_shr_record mrs')) as Hr.
  set (m1 := shr_m mrs') in *.
  set (m2 := round_nearest_even m1 (loc_of_shr_record mrs')) in *.
  assert (Hm2 : 1 <= m2) by lia.
  destruct (shr_fexp_shift m2 e' loc_Exact ltac:(lia) ltac:(lia)) as [E2e E2m].
  destruct (shr_fexp prec emax m2 e' loc_Exact) as [mrs'' e''] eqn:E2.
  cbn [fst snd] in *.
  destruct (cut_to_53 m2 Hm2) as (D1 & D2 & D3 & D4).
  assert (Hd2 : Zdigits2 m2 <= 54).
  { apply Zdigits2_le; [lia|lia|]. change (2 ^ 54) with (2 * 2 ^ 53). lia. }
  set (n2 := Z.max 0 (Zdigits2 m2 - 53)) in *.
  rewrite <- E2m in D1, D2, D3, D4.
  assert (Hn1 : 0 <= n1) by (subst n1; lia).
  assert (Hn2 : 0 <= n2 <= 1) by (subst n2; lia).
  destruct (shr_m mrs'') as [|m|m] eqn:E3; try lia.
  replace (e'' <=? emax - prec) with true
    by (symmetry; apply Z.leb_le; change (emax - prec) with 971; lia).
  exists m, e''. split; [reflexivity|]. split; [lia|].
  replace (e'' - ex) with (n1 + n2) by lia.
  rewrite Z.pow_add_r by lia.
  assert (P1 : 0 < 2 ^ n1) by (apply Z.pow_pos_nonneg; lia).
  assert (P2 : 0 < 2 ^ n2) by (apply Z.pow_pos_nonneg; lia).
  set (A := 2 ^ n1) in *. set (B := 2 ^ n2) in *.
  split.
  - assert (S1 : (Zpos m - 1) * B <= m1) by nia.
    assert (S2 : (Zpos m - 1) * B * A <= m1 * A) by (apply Z.mul_le_mono_nonneg_r; lia).
    lia.
  - assert (S1 : m1 + 1 <= (Zpos m + 1) * B) by nia.
    assert (S2 : (m1 + 1) * A <= (Zpos m + 1) * B * A)
      by (apply Z.mul_le_mono_nonneg_r; lia).
    lia.
Qed.

Lemma binary_round_aux_exact (mx : positive) (ex : Z) :
  Zpos (digits2_pos mx) <= 53 -> -1074 <= ex <= 971 ->
  binary_round_aux prec emax false (Zpos mx) ex loc_Exact = S754_finite false mx ex.
Proof.
  intros Hd He.
  assert (Hshr : shr_fexp prec emax (Zpos mx) ex loc_Exact
                 = (shr_record_of_loc (Zpos mx) loc_Exact, ex)).
  { unfold shr_fexp, shr. rewrite fexp_value. cbn [Zdigits2].
    destruct (Z.max (Zpos (digits2_pos mx) + ex - 53) (-1074) - ex) eqn:Hn;
      try reflexivity. lia. }
  unfold binary_round_aux. rewrite Hshr.
  cbn [shr_record_of_loc shr_m loc_of_shr_record round_nearest_even].
  rewrite Hshr. cbn [shr_record_of_loc shr_m].
  replace (ex <=? emax - prec) with true
    by (symmetry; apply Z.leb_le; change (emax - prec) with 971; lia).
  reflexivity.
Qed.

Lemma Zdigits2_53 (m : Z) : 2 ^ 52 <= m < 2 ^ 53 -> Zdigits2 m = 53.
Proof.
  intros H.
  assert (Hle : Zdigits2 m <= 53) by (apply Zdigits2_le; lia).
  pose proof (Zdigits2_upper m ltac:(lia)) as Hup.
  destruct (Z_le_gt_dec (Zdigits2 m) 52) as [Hs|]; [|lia].
  assert (2 ^ Zdigits2 m <= 2 ^ 52)
    by (apply Z.pow_le_mono_r; [lia|exact Hs]).
  lia.
Qed.

(** [float(z)] is exact below [2^53]: a 53-digit mantissa and the exponent
    that scales it back to [z]. *)
Lemma of_uint63_exact (z : Z) :
  1 <= z < 2 ^ 53 ->
  exists m e,
    Prim2SF (PrimFloat.of_uint63 (Uint63.of_Z z)) = S754_finite false m e /\
    -52 <= e <= 0 /\ Zpos m = z * 2 ^ (- e) /\ 2 ^ 52 <= Zpos m < 2 ^ 53.
Proof.
  intros Hz.
  rewrite FloatAxioms.of_uint63_spec.
  rewrite Uint63.of_Z_spec, Z.mod_small
    by (change wB with (2 ^ 63); assert (2 ^ 53 < 2 ^ 63) by reflexivity; lia).
  destruct z as [|p|p]; try lia.
  cbn [binary_normalize]. unfold binary_round.
  pose proof (digits2_pos_bounds p) as [Hlow Hup].
  assert (Hd : 1 <= Zpos (digits2_pos p) <= 53).
  { split; [lia|]. apply (Zdigits2_le (Zpos p) 53); lia. }
  rewrite fexp_value, Z.add_0_r.
  replace (Z.max (Zpos (digits2_pos p) - 53) (-1074))
    with (Zpos (digits2_pos p) - 53) by lia.
  destruct (shl_align_spec p 0 (Zpos (digits2_pos p) - 53)) as [Hal _].
  destruct (Hal ltac:(lia)) as [Hm Hez].
  destruct (shl_align p 0 (Zpos (digits2_pos p) - 53)) as [mz ez].
  cbn [fst snd] in *. subst ez.
  set (d := Zpos (digits2_pos p)) in *.
  replace (0 - (d - 53)) with (53 - d) in Hm by lia.
  assert (Hpow : 2 ^ 53 = 2 ^ d * 2 ^ (53 - d))
    by (rewrite <- Z.pow_add_r by lia; f_equal; lia).
  assert (Hpow' : 2 ^ 52 = 2 ^ (d - 1) * 2 ^ (53 - d))
    by (rewrite <- Z.pow_add_r by lia; f_equal; lia).
  assert (Hs : 0 < 2 ^ (53 - d)) by (apply Z.pow_pos_nonneg; lia).
  assert (Hmz : 2 ^ 52 <= Zpos mz < 2 ^ 53) by (rewrite Hm, Hpow, Hpow'; nia).
  exists mz, (d - 53). split.
  - apply binary_round_aux_exact; [|lia].
    change (Zpos (digits2_pos mz)) with (Zdigits2 (Zpos mz)).
    rewrite (Zdigits2_53 _ Hmz). lia.
  - split; [lia|]. split; [|exact Hmz].
    rewrite Hm. f_equal. f_equal. lia.
Qed.


Lemma of_int_exact (z : Z) :
  1 <= z < 2 ^ 53 ->
  exists m e,
    Prim2SF (PyFloat.of_int z) = S754_finite false m e /\
    -52 <= e <= 0 /\ Zpos m = z * 2 ^ (- e) /\ 2 ^ 52 <= Zpos m < 2 ^ 53.
Proof.
  intros Hz. unfold PyFloat.of_int.
  replace (z <? 0) with false by (symmetry; apply Z.ltb_ge; lia).
  now apply of_uint63_exact.
Qed.

(** What [x - float(int(x))] leaves of a float below [2^52] in magnitude:
    the subtraction is exact, and the result is the fractional part of [x],
    below 1 in magnitude. *)
Lemma trunc_fraction_small (x : float) (i : Z) :
  small 52 x -> PyFloat.to_int x = Ok i ->
  small 1 (PrimFloat.sub x (PyFloat.of_int i)).
Proof.
  unfold small, PyFloat.to_int. rewrite FloatAxioms.sub_spec.
  destruct (Prim2SF x) as [s|s| |s m e]; cbn [sf_small]; try contradiction.
  - intros _ H. injection H as <-.
    change (Prim2SF (PyFloat.of_int 0)) with (S754_zero false).
    destruct s; exact I.
  - intros Hmag H. injection H as <-.
    pose proof (digits2_pos_bounds m) as [Hmlow Hmup].
    set (d := Zpos (digits2_pos m)) in *.
    set (a := Z.shiftl (Zpos m) e).
    assert (Ha : 0 <= a < 2 ^ 52 /\
                 (0 <= e -> a = Zpos m * 2 ^ e) /\
                 (e < 0 -> a = Zpos m / 2 ^ (- e))).
    { subst a. destruct (Z_le_gt_dec 0 e) as [He|He].
      - rewrite Z.shiftl_mul_pow2 by lia.
        assert (0 < 2 ^ e) by (apply Z.pow_pos_nonneg; lia).
        assert (2 ^ d * 2 ^ e <= 2 ^ 52)
          by (rewrite <- Z.pow_add_r by lia; apply Z.pow_le_mono_r; lia).
        repeat split; try lia; nia.
      - rewrite Z.shiftl_div_pow2 by lia.
        assert (Hp : 0 < 2 ^ (- e)) by (apply Z.pow_pos_nonneg; lia).
        assert (2 ^ d <= 2 ^ (- e) * 2 ^ 52)
          by (rewrite <- Z.pow_add_r by lia; apply Z.pow_le_mono_r; lia).
        repeat split; try lia.
        + apply Z.div_pos; lia.
        + apply Z.div_lt_upper_bound; lia. }
    destruct Ha as (Harange & Hapos & Haneg).
    assert (Hof : Prim2SF (PyFloat.of_int (if s then - a else a))
                  = if a =? 0 then S754_zero false
                    else match Prim2SF (PrimFloat.of_uint63 (Uint63.of_Z a)) with
                         | S754_finite _ ma ea => S754_finite s ma ea
                         | y => y
                         end).
    { destruct (Z.eqb_spec a 0) as [->|Hne].
      - destruct s; reflexivity.
      - assert (H53 : 2 ^ 52 < 2 ^ 53) by reflexivity.
        destruct (of_uint63_exact a ltac:(lia)) as (ma & ea & Hma & _).
        unfold PyFloat.of_int. destruct s.
        + replace (- a <? 0) with true by (symmetry; apply Z.ltb_lt; lia).
          rewrite FloatAxioms.opp_spec, Z.opp_involutive, Hma. reflexivity.
        + replace (a <? 0) with false by (symmetry; apply Z.ltb_ge; lia).
          rewrite Hma. reflexivity. }
    rewrite Hof. clear Hof.
    destruct (Z.eqb_spec a 0) as [Ha0|Hne].
    + (* the integer part is zero: the float is its own fractional part *)
      cbn [SF64sub SFsub sf_small]. fold d.
      destruct (Z_le_gt_dec 0 e) as [He|He].
      * specialize (Hapos He). assert (0 < 2 ^ e) by (apply Z.pow_pos_nonneg; lia). nia.
      * specialize (Haneg ltac:(lia)).
        assert (Hp : 0 < 2 ^ (- e)) by (apply Z.pow_pos_nonneg; lia).
        assert (Hlt : Zpos m < 2 ^ (- e)).
        { destruct (Z_lt_le_dec (Zpos m) (2 ^ (- e))) as [|Hge]; [assumption|].
          assert (1 <= Zpos m / 2 ^ (- e)) by (apply Z.div_le_lower_bound; lia).
          lia. }
        assert (d <= - e).
        { change d with (Zdigits2 (Zpos m)). apply Zdigits2_le; lia. }
        lia.
    + assert (H53 : 2 ^ 52 < 2 ^ 53) by reflexivity.
      destruct (of_uint63_exact a ltac:(lia)) as (ma & ea & -> & Hea & Hma & Hmar).
      unfold SF64sub, SFsub.
      set (ez := Z.min e ea).
      destruct (shl_align_spec m e ez) as [HA _].
      destruct (shl_align_spec ma ea ez) as [HB _].
      destruct (HA ltac:(subst ez; lia)) as [HA' _].
      destruct (HB ltac:(subst ez; lia)) as [HB' _].
      set (A := Zpos (fst (shl_align m e ez))) in *.
      set (B := Zpos (fst (shl_align ma ea ez))) in *.
      assert (Hdiff : 0 <= A - B < 2 ^ (- ez)).
      { destruct (Z_le_gt_dec 0 e) as [He|He].
        - (* an integer: nothing is left *)
          specialize (Hapos He).
          assert (Hez : ez = ea) by (subst ez; lia).
          rewrite Hez in *. rewrite Z.sub_diag, Z.pow_0_r, Z.mul_1_r in HB'.
          assert (HAB : A = B).
          { rewrite HA', HB', Hma, Hapos.
            replace (e - ea) with (e + - ea) by lia.
            rewrite Z.pow_add_r by lia. ring. }
          assert (0 < 2 ^ (- ea)) by (apply Z.pow_pos_nonneg; lia).
          lia.
        - specialize (Haneg ltac:(lia)).
          assert (Hez0 : ez <= e /\ ez <= ea /\ ez < 0) by (subst ez; lia).
          assert (Hp : 0 < 2 ^ (- e)) by (apply Z.pow_pos_nonneg; lia).
          assert (Hq : 0 < 2 ^ (e - ez)) by (apply Z.pow_pos_nonneg; lia).
          assert (Hsplit : 2 ^ (- ez) = 2 ^ (- e) * 2 ^ (e - ez))
            by (rewrite <- Z.pow_add_r by lia; f_equal; lia).
          assert (HBv : B = a * 2 ^ (- ez)).
          { rewrite HB', Hma. rewrite <- Z.mul_assoc, <- Z.pow_add_r by lia.
            f_equal. f_equal. lia. }
          pose proof (Z.mul_div_le (Zpos m) (2 ^ (- e)) Hp) as Hd1.
          pose proof (Z.mul_succ_div_gt (Zpos m) (2 ^ (- e)) Hp) as Hd2.
          rewrite <- Haneg in Hd1, Hd2.
          set (r := Zpos m - 2 ^ (- e) * a).
          assert (Hr : 0 <= r < 2 ^ (- e)) by (subst r; lia).
          assert (HAB : A - B = r * 2 ^ (e - ez)).
          { rewrite HA', HBv, Hsplit. subst r. ring. }
          rewrite HAB, Hsplit. split; [nia|].
          apply Z.mul_lt_mono_pos_r; lia. }
      replace 1 with (0 + 1) by lia.
      assert (Hdig : Zdigits2 (cond_Zopp s A - cond_Zopp s B) <= - ez).
      { apply Zdigits2_abs_le; [subst ez; lia|].
        destruct s; cbn [cond_Zopp]; lia. }
      apply binary_normalize_small; subst ez; lia.
Qed.

(** ** The hue shift *)

Lemma smallb_spec (K : Z) (x : float) : smallb K x = true -> small K x.
Proof.
  unfold smallb, small. destruct (Prim2SF x); cbn; try discriminate; auto.
  intros H. apply Z.leb_le. exact H.
Qed.

Lemma bigb_spec (L : Z) (x : float) : bigb L x = true -> big L x.
Proof.
  unfold bigb, big. destruct (Prim2SF x); cbn; try discriminate.
  intros H. apply Z.leb_le. exact H.
Qed.

Lemma in_bytes (b : Z) : 0 <= b <= 255 -> In b bytes.
Proof.
  intros H. unfold bytes. apply in_map_iff. exists (Z.to_nat b).
  split; [lia|]. apply in_seq. lia.
Qed.

Lemma all_bytes_checked : forallb check_byte bytes = true.
Proof. vm_compute. reflexivity. Qed.

Lemma check_byte_ok (a : Z) : 0 <= a <= 255 -> check_byte a = true.
Proof.
  intros H. pose proof all_bytes_checked as Hall.
  rewrite forallb_forall in Hall. apply Hall. apply in_bytes. exact H.
Qed.

Lemma check_pair_ok (a b : Z) :
  0 <= a <= 255 -> 0 <= b <= 255 -> check_pair a b = true.
Proof.
  intros Ha Hb. pose proof (check_byte_ok a Ha) as H.
  unfold check_byte in H. apply andb_true_iff in H as [_ H].
  rewrite forallb_forall in H. apply H. apply in_bytes. exact Hb.
Qed.

Lemma within_spec (lo hi : Z) (r : result Z) :
  within lo hi r = true -> exists c, r = Ok c /\ lo <= c <= hi.
Proof.
  destruct r as [c|e]; cbn; [|discriminate]. intros H. exists c. split; [reflexivity|lia].
Qed.

(** *** Facts about one channel value *)

Lemma unit_facts (a : Z) :
  0 <= a <= 255 ->
  small 1 (unit_of a) /\
  PyFloat.min2 (PrimFloat.mul (unit_of a) 1%float) 1%float = unit_of a /\
  PyFloat.to_int (PrimFloat.mul (unit_of a) 255%float) = Ok a.
Proof.
  intros Ha. pose proof (check_byte_ok a Ha) as H. unfold check_byte in H.
  repeat (apply andb_true_iff in H as [H ?]).
  split; [apply smallb_spec; assumption|]. split.
  - apply FloatAxioms.Leibniz.eqb_spec. assumption.
  - match goal with W : within _ _ _ = true |- _ =>
      destruct (within_spec _ _ _ W) as (c & -> & Hc) end.
    f_equal. lia.
Qed.

(** *** Facts about two channel values *)

Lemma pair_order (a b : Z) :
  0 <= a <= 255 -> 0 <= b <= 255 ->
  PrimFloat.ltb (unit_of a) (unit_of b) = (a <? b) /\
  PrimFloat.eqb (unit_of a) (unit_of b) = (a =? b).
Proof.
  intros Ha Hb. pose proof (check_pair_ok a b Ha Hb) as H. unfold check_pair in H.
  repeat (apply andb_true_iff in H as [H ?]).
  split; apply Bool.eqb_prop; assumption.
Qed.

Lemma pair_difference (a b : Z) :
  0 <= a <= 255 -> 0 <= b <= 255 ->
  small 1 (PrimFloat.sub (unit_of a) (unit_of b)) /\
  (a <> b -> big (-7) (PrimFloat.sub (unit_of a) (unit_of b))).
Proof.
  intros Ha Hb. pose proof (check_pair_ok a b Ha Hb) as H. unfold check_pair in H.
  repeat (apply andb_true_iff in H as [H ?]).
  split; [apply smallb_spec; assumption|].
  intros Hne. apply bigb_spec.
  destruct (Z.eqb_spec a b); [contradiction|assumption].
Qed.

Lemma pair_saturation (M m : Z) :
  0 <= M <= 255 -> 0 <= m < M ->
  let s := saturation_of M m in
  small 1 s /\ big (-7) s /\
  PyFloat.min2 (PrimFloat.mul s 1%float) 1%float = s /\
  exists c,
    PyFloat.to_int
      (PrimFloat.mul (PrimFloat.mul (unit_of M) (PrimFloat.sub 1%float s)) 255%float)
    = Ok c /\ Z.max 0 (m - 1) <= c <= m.
Proof.
  intros HM Hm. pose proof (check_pair_ok M m HM ltac:(lia)) as H.
  unfold check_pair in H.
  repeat (apply andb_true_iff in H as [H ?]).
  match goal with W : (if m <? M then _ else _) = true |- _ => rename W into Hs end.
  replace (m <? M) with true in Hs by (symmetry; apply Z.ltb_lt; lia).
  repeat (apply andb_true_iff in Hs as [Hs ?]).
  unfold saturation_of. replace (m =? M) with false by (symmetry; apply Z.eqb_neq; lia).
  cbn zeta.
  split; [apply smallb_spec; assumption|].
  split; [apply bigb_spec; assumption|].
  split; [apply FloatAxioms.Leibniz.eqb_spec; assumption|].
  apply within_spec. assumption.
Qed.

(** *** Conversions between integers and floats *)

Lemma small_of_uint63 (z k : Z) :
  0 <= z < 2 ^ k -> 0 <= k <= 62 ->
  small (k + 1) (PrimFloat.of_uint63 (Uint63.of_Z z)).
Proof.
  intros Hz Hk. unfold small. rewrite FloatAxioms.of_uint63_spec, Uint63.of_Z_spec.
  assert (H62 : 2 ^ k <= 2 ^ 62) by (apply Z.pow_le_mono_r; lia).
  rewrite Z.mod_small by (change wB with (2 ^ 63); change (2 ^ 63) with (2 * 2 ^ 62); lia).
  apply binary_normalize_small; try lia.
  pose proof (Zdigits2_le z k ltac:(lia) ltac:(lia) ltac:(lia)). lia.
Qed.

Lemma small_of_int (z k : Z) :
  Z.abs z < 2 ^ k -> 0 <= k <= 62 -> small (k + 1) (PyFloat.of_int z).
Proof.
  intros Hz Hk. unfold PyFloat.of_int. destruct (Z.ltb_spec z 0).
  - unfold small. rewrite FloatAxioms.opp_spec. apply SFopp_small.
    apply small_of_uint63; lia.
  - apply small_of_uint63; lia.
Qed.

Lemma to_int_small (K : Z) (x : float) :
  small K x -> 0 <= K ->
  exists t, PyFloat.to_int x = Ok t /\ Z.abs t < 2 ^ K.
Proof.
  unfold small, PyFloat.to_int. intros Hx HK.
  assert (H0 : 0 < 2 ^ K) by (apply Z.pow_pos_nonneg; lia).
  destruct (Prim2SF x) as [s|s| |s m e]; cbn [sf_small] in Hx; try contradiction.
  - exists 0. split; [reflexivity|]. cbn. lia.
  - pose proof (digits2_pos_bounds m) as [_ Hm].
    assert (Hsh : 0 <= Z.shiftl (Zpos m) e < 2 ^ K).
    { destruct (Z_le_gt_dec 0 e) as [He|He].
      - rewrite Z.shiftl_mul_pow2 by lia. split; [apply Z.mul_nonneg_nonneg; lia|].
        apply Z.lt_le_trans with (2 ^ Zpos (digits2_pos m) * 2 ^ e).
        + apply Z.mul_lt_mono_pos_r; [apply Z.pow_pos_nonneg; lia|assumption].
        + rewrite <- Z.pow_add_r by lia. apply Z.pow_le_mono_r; lia.
      - rewrite Z.shiftl_div_pow2 by lia.
        assert (Hp : 0 < 2 ^ (- e)) by (apply Z.pow_pos_nonneg; lia).
        split; [apply Z.div_pos; lia|].
        apply Z.div_lt_upper_bound; [lia|].
        apply Z.lt_le_trans with (2 ^ Zpos (digits2_pos m)); [assumption|].
        rewrite <- Z.pow_add_r by lia. apply Z.pow_le_mono_r; lia. }
    eexists. split; [reflexivity|]. destruct s; lia.
Qed.

Lemma small_zero (K : Z) : small K 0%float.
Proof. exact I. Qed.

Lemma small_1 : small 1 1%float.
Proof. apply smallb_spec. reflexivity. Qed.

Lemma small_255 : small 8 255%float.
Proof. apply smallb_spec. reflexivity. Qed.

Lemma small_6 : small 3 6%float.
Proof. apply smallb_spec. reflexivity. Qed.

Lemma big_6 : big 3 6%float.
Proof. apply bigb_spec. reflexivity. Qed.

Lemma small_mod1 (K : Z) (x : float) :
  small K x -> 0 <= K <= 50 -> small (K + 5) (PyFloat.mod1 x).
Proof.
  intros Hx HK. unfold PyFloat.mod1, PyFloat.fmod1.
  destruct (to_int_small K x Hx ltac:(lia)) as (t & -> & Ht).
  assert (H53 : 2 ^ K <= 2 ^ 50) by (apply Z.pow_le_mono_r; lia).
  replace (Z.abs t <? 2 ^ 53) with true
    by (symmetry; apply Z.ltb_lt; change (2 ^ 53) with (8 * 2 ^ 50); lia).
  assert (Hm : small (K + 3) (PrimFloat.sub x (PyFloat.of_int t))).
  { replace (K + 3) with (K + 1 + 2) by lia.
    apply (small_sub K (K + 1)); try lia; [assumption|].
    apply small_of_int; lia. }
  destruct (PrimFloat.eqb _ _); [apply small_zero|].
  destruct (PrimFloat.ltb _ _).
  - replace (K + 5) with (K + 3 + 2) by lia.
    apply (small_add (K + 3) 1); try lia; [assumption|apply small_1].
  - apply (small_mono (K + 3)); [assumption|lia].
Qed.

(** *** [rgb_to_hsv] on the channels of a pixel *)

Lemma zmax3_cases (r g b : Z) :
  (zmax3 r g b = r \/ zmax3 r g b = g \/ zmax3 r g b = b) /\
  r <= zmax3 r g b /\ g <= zmax3 r g b /\ b <= zmax3 r g b.
Proof.
  unfold zmax3. destruct (Z.ltb_spec r g); [destruct (Z.ltb_spec g b)|destruct (Z.ltb_spec r b)]; lia.
Qed.

Lemma zmin3_cases (r g b : Z) :
  (zmin3 r g b = r \/ zmin3 r g b = g \/ zmin3 r g b = b) /\
  zmin3 r g b <= r /\ zmin3 r g b <= g /\ zmin3 r g b <= b.
Proof.
  unfold zmin3. destruct (Z.ltb_spec g r); [destruct (Z.ltb_spec b g)|destruct (Z.ltb_spec b r)]; lia.
Qed.

Lemma max3_units (r g b : Z) :
  0 <= r <= 255 -> 0 <= g <= 255 -> 0 <= b <= 255 ->
  PyFloat.max3 (unit_of r) (unit_of g) (unit_of b) = unit_of (zmax3 r g b).
Proof.
  intros Hr Hg Hb. unfold PyFloat.max3, zmax3.
  destruct (pair_order r g Hr Hg) as [-> _].
  destruct (r <? g).
  - destruct (pair_order g b Hg Hb) as [-> _]. destruct (g <? b); reflexivity.
  - destruct (pair_order r b Hr Hb) as [-> _]. destruct (r <? b); reflexivity.
Qed.

Lemma min3_units (r g b : Z) :
  0 <= r <= 255 -> 0 <= g <= 255 -> 0 <= b <= 255 ->
  PyFloat.min3 (unit_of r) (unit_of g) (unit_of b) = unit_of (zmin3 r g b).
Proof.
  intros Hr Hg Hb. unfold PyFloat.min3, zmin3.
  destruct (pair_order g r Hg Hr) as [-> _].
  destruct (g <? r).
  - destruct (pair_order b g Hb Hg) as [-> _]. destruct (b <? g); reflexivity.
  - destruct (pair_order b r Hb Hr) as [-> _]. destruct (b <? r); reflexivity.
Qed.

Lemma unit_nonzero (a : Z) : 1 <= a <= 255 -> PrimFloat.eqb (unit_of a) 0%float = false.
Proof.
  intros Ha. destruct (pair_order a 0 ltac:(lia) ltac:(lia)) as [_ H].
  change (unit_of 0) with 0%float in H. rewrite H. apply Z.eqb_neq. lia.
Qed.

Lemma div_255 (x : float) : PyFloat.div x 255%float = Ok (PrimFloat.div x 255%float).
Proof. reflexivity. Qed.

Lemma div_big (L : Z) (x y : float) :
  big L y -> PyFloat.div x y = Ok (PrimFloat.div x y).
Proof. intros H. unfold PyFloat.div. rewrite (big_nonzero L y H). reflexivity. Qed.

(** On three bytes scaled to [0, 1], [rgb_to_hsv] returns: the value is the
    largest channel, the saturation the one of the largest and smallest
    channels, and the hue is a finite float of bounded magnitude. *)
Lemma rgb_to_hsv_units (r g b : Z) :
  0 <= r <= 255 -> 0 <= g <= 255 -> 0 <= b <= 255 ->
  exists h,
    colorsys.rgb_to_hsv (unit_of r) (unit_of g) (unit_of b)
    = Ok (h, saturation_of (zmax3 r g b) (zmin3 r g b), unit_of (zmax3 r g b)) /\
    small 18 h.
Proof.
  intros Hr Hg Hb. unfold colorsys.rgb_to_hsv.
  rewrite max3_units, min3_units by assumption.
  pose proof (zmax3_cases r g b) as (HM & HMr & HMg & HMb).
  pose proof (zmin3_cases r g b) as (Hm & Hmr & Hmg & Hmb).
  set (M := zmax3 r g b) in *. set (m := zmin3 r g b) in *.
  assert (HMbyte : 0 <= M <= 255) by lia.
  assert (Hmbyte : 0 <= m <= 255) by lia.
  destruct (pair_order m M Hmbyte HMbyte) as [_ ->].
  unfold saturation_of.
  destruct (Z.eqb_spec m M) as [Heq|Hne].
  - exists 0%float. split; [reflexivity|apply small_zero].
  - assert (Hrange := pair_difference M m HMbyte Hmbyte).
    destruct Hrange as [_ Hbig]. specialize (Hbig ltac:(lia)).
    unfold PyFloat.div at 1. rewrite unit_nonzero by lia. cbn [rbind].
    rewrite !(div_big (-7)) by exact Hbig. cbn [rbind].
    eexists. split; [reflexivity|].
    replace 18 with (13 + 5) by lia. apply small_mod1; [|lia].
    replace 13 with (14 - 3 + 2) by lia. apply small_div; [|apply big_6|lia].
    destruct (PrimFloat.eqb (unit_of r) (unit_of M)).
    + apply (small_mono 12); [|lia]. replace 12 with (10 + 2) by lia.
      apply (small_sub 10 10); try lia; apply (small_mono 10);
        try lia.
      all: replace 10 with (1 - -7 + 2) by lia;
        (apply small_div; [apply pair_difference; assumption|exact Hbig|lia]).
    + destruct (PrimFloat.eqb (unit_of g) (unit_of M)).
      * replace 14 with (12 + 2) by lia.
        apply (small_sub 12 10); try lia.
        -- replace 12 with (10 + 2) by lia.
           apply (small_add 2 10); try lia; [apply smallb_spec; reflexivity|].
           replace 10 with (1 - -7 + 2) by lia.
           apply small_div; [apply pair_difference; assumption|exact Hbig|lia].
        -- replace 10 with (1 - -7 + 2) by lia.
           apply small_div; [apply pair_difference; assumption|exact Hbig|lia].
      * replace 14 with (12 + 2) by lia.
        apply (small_sub 12 10); try lia.
        -- replace 12 with (10 + 2) by lia.
           apply (small_add 3 10); try lia; [apply smallb_spec; reflexivity|].
           replace 10 with (1 - -7 + 2) by lia.
           apply small_div; [apply pair_difference; assumption|exact Hbig|lia].
        -- replace 10 with (1 - -7 + 2) by lia.
           apply small_div; [apply pair_difference; assumption|exact Hbig|lia].
Qed.

Lemma pixel_hsv_bytes (r g b : Z) :
  0 <= r <= 255 -> 0 <= g <= 255 -> 0 <= b <= 255 ->
  exists h,
    pixel_hsv (r, g, b)
    = Ok (h, saturation_of (zmax3 r g b) (zmin3 r g b), unit_of (zmax3 r g b)) /\
    small 18 h.
Proof.
  intros Hr Hg Hb. unfold pixel_hsv. rewrite !div_255. cbn [rbind].
  apply rgb_to_hsv_units; assumption.
Qed.




(** *** The pixel loop *)

Section PixelLoop.

Variable A : Type.
Variable g : A -> result A.

Lemma row_loop (n : nat) (i y : Z) (s0 : raster A) :
  (forall x, i <= x < i + Z.of_nat n -> is_ok (g (s0 x y)) = true) ->
  exists s',
    for_from n i (fun x => store_step g x y) s0 = Ok s' /\
    (forall x, i <= x < i + Z.of_nat n -> g (s0 x y) = Ok (s' x y)) /\
    (forall x' y', ~ (y' = y /\ i <= x' < i + Z.of_nat n) -> s' x' y' = s0 x' y').
Proof.
  revert i s0. induction n as [|n IH]; intros i s0 Hok.
  - exists s0. cbn [for_from]. split; [reflexivity|]. split; [lia|auto].
  - cbn [for_from]. unfold store_step at 1.
    pose proof (Hok i ltac:(lia)) as Hi.
    destruct (g (s0 i y)) as [v|e] eqn:Hg; [|discriminate]. cbn [rbind].
    set (s1 := putpixel s0 i y v).
    assert (Hs1 : forall x' y', ~ (x' = i /\ y' = y) -> s1 x' y' = s0 x' y').
    { intros x' y' Hn. unfold s1, putpixel.
      destruct (Z.eqb_spec x' i); destruct (Z.eqb_spec y' y); cbn; try reflexivity.
      exfalso. apply Hn. auto. }
    assert (Hs1i : s1 i y = v).
    { unfold s1, putpixel. rewrite !Z.eqb_refl. reflexivity. }
    destruct (IH (i + 1) s1) as (s' & Hrun & Hin & Hout).
    { intros x Hx. rewrite Hs1 by lia. apply Hok. lia. }
    exists s'. split; [exact Hrun|]. split.
    + intros x Hx. destruct (Z.eq_dec x i) as [->|Hne].
      * rewrite Hout by lia. rewrite Hs1i. exact Hg.
      * rewrite <- Hin by lia. rewrite Hs1 by lia. reflexivity.
    + intros x' y' Hn. rewrite Hout by lia. apply Hs1. lia.
Qed.

Lemma rows_loop (w : Z) (n : nat) (j : Z) (s0 : raster A) :
  (forall x y, 0 <= x < w -> j <= y < j + Z.of_nat n -> is_ok (g (s0 x y)) = true) ->
  exists s',
    for_from n j (fun y => for_range w (fun x => store_step g x y)) s0 = Ok s' /\
    (forall x y, 0 <= x < w -> j <= y < j + Z.of_nat n -> g (s0 x y) = Ok (s' x y)) /\
    (forall x y, ~ (0 <= x < w /\ j <= y < j + Z.of_nat n) -> s' x y = s0 x y).
Proof.
  revert j s0. induction n as [|n IH]; intros j s0 Hok.
  - exists s0. cbn [for_from]. split; [reflexivity|]. split; [lia|auto].
  - cbn [for_from]. unfold for_range at 1.
    destruct (row_loop (Z.to_nat w) 0 j s0) as (s1 & -> & Hin1 & Hout1).
    { intros x Hx. apply Hok; lia. }
    destruct (IH (j + 1) s1) as (s' & Hrun & Hin & Hout).
    { intros x y Hx Hy. rewrite Hout1 by lia. apply Hok; lia. }
    exists s'. split; [exact Hrun|]. split.
    + intros x y Hx Hy. destruct (Z.eq_dec y j) as [->|Hne].
      * rewrite Hout by lia. apply Hin1. lia.
      * rewrite <- Hin by lia. rewrite Hout1 by lia. reflexivity.
    + intros x y Hn. rewrite Hout by lia. apply Hout1. lia.
Qed.

(** The double loop replaces every pixel of the [w] by [h] grid by what [g]
    makes of it, provided [g] succeeds on each of them. *)
Lemma grid_loop (w h : Z) (s0 : raster A) :
  (forall x y, 0 <= x < w -> 0 <= y < h -> is_ok (g (s0 x y)) = true) ->
  exists s',
    for_range h (fun y => for_range w (fun x => store_step g x y)) s0 = Ok s' /\
    forall x y, 0 <= x < w -> 0 <= y < h -> g (s0 x y) = Ok (s' x y).
Proof.
  intros Hok. unfold for_range at 1.
  destruct (rows_loop w (Z.to_nat h) 0 s0) as (s' & Hrun & Hin & _).
  { intros x y Hx Hy. apply Hok; lia. }
  exists s'. split; [exact Hrun|]. intros x y Hx Hy. apply Hin; lia.
Qed.

End PixelLoop.

Lemma hue_shift_step_store (target_h sat val : float) (x y : Z) (pixels : raster rgb) :
  hue_shift_step target_h sat val x y pixels
  = store_step (recolored target_h sat val) x y pixels.
Proof.
  unfold hue_shift_step, store_step, recolored.
  destruct (shifted_hsv target_h sat val (pixels x y)) as [c|e]; [|reflexivity].
  cbn [rbind]. destruct (hsv_to_ints c) as [n|e]; [|reflexivity].
  cbn [rbind]. destruct (store_rgb n); reflexivity.
Qed.

Lemma for_from_ext {S : Type} (body body' : Z -> S -> result S) (n : nat) (i : Z) (s : S) :
  (forall j t, body j t = body' j t) ->
  for_from n i body s = for_from n i body' s.
Proof.
  intros Hext. revert i s. induction n as [|n IH]; intros i s; cbn [for_from].
  - reflexivity.
  - rewrite Hext. destruct (body' i s); [apply IH|reflexivity].
Qed.

Lemma clip8_byte (c : Z) : 0 <= c <= 255 -> clip8 c = c.
Proof. unfold clip8. lia. Qed.

(** The store accepts integers that fit a C [int] and clips them. *)
Lemma store_rgb_ok (c : rgb) :
  Forall (fun k => Z.abs k < 2 ^ 31) (channels c) ->
  store_rgb c = Ok (let '(r, g, b) := c in (clip8 r, clip8 g, clip8 b)).
Proof.
  destruct c as [[r g] b]. cbn [channels]. intros H.
  inversion H as [|? ? Hr H1]; subst. inversion H1 as [|? ? Hg H2]; subst.
  inversion H2 as [|? ? Hb _]; subst.
  assert (H63 : 2 ^ 31 < 2 ^ 63) by reflexivity.
  unfold store_rgb.
  replace ((- 2 ^ 63 <=? r) && (r <? 2 ^ 63) && (- 2 ^ 31 <=? g) && (g <? 2 ^ 31)
           && (- 2 ^ 31 <=? b) && (b <? 2 ^ 31)) with true; [reflexivity|].
  symmetry. rewrite !andb_true_iff, !Z.leb_le, !Z.ltb_lt. lia.
Qed.

Lemma store_rgb_clips (ints stored : rgb) :
  store_rgb ints = Ok stored ->
  stored = (let '(r, g, b) := ints in (clip8 r, clip8 g, clip8 b)).
Proof.
  destruct ints as [[r g] b]. unfold store_rgb.
  destruct (_ && _); [|discriminate]. intros H. now injection H as <-.
Qed.


Lemma zmax3_max (r g b : Z) : zmax3 r g b = Z.max (Z.max r g) b.
Proof. pose proof (zmax3_cases r g b). lia. Qed.



(** *** The target colour *)

Lemma hex_digit_in (c : ascii) (d : Z) : PyStr.hex_digit c = Some d -> In c hex_chars.
Proof.
  destruct c as [[] [] [] [] [] [] [] []]; intros H; vm_compute in H;
    try discriminate H; vm_compute; tauto.
Qed.

Lemma all_hex_pairs_checked :
  forallb (fun a => forallb (check_hex_pair a) hex_chars) hex_chars = true.
Proof. vm_compute. reflexivity. Qed.

Lemma hex_digit_range (c : ascii) (d : Z) : PyStr.hex_digit c = Some d -> 0 <= d <= 15.
Proof.
  unfold PyStr.hex_digit.
  destruct ((48 <=? PyStr.code c) && (PyStr.code c <=? 57)) eqn:E1;
    [intros H; injection H as <-; lia|].
  destruct ((97 <=? PyStr.code c) && (PyStr.code c <=? 102)) eqn:E2;
    [intros H; injection H as <-; lia|].
  destruct ((65 <=? PyStr.code c) && (PyStr.code c <=? 70)) eqn:E3;
    [intros H; injection H as <-; lia|discriminate].
Qed.

(** Two hexadecimal digits convert to the byte they spell. *)
Lemma int16_hex_pair (a b : ascii) (x y : Z) :
  PyStr.hex_digit a = Some x -> PyStr.hex_digit b = Some y ->
  PyStr.int16 (String a (String b EmptyString)) = Ok (16 * x + y) /\
  0 <= 16 * x + y <= 255.
Proof.
  intros Ha Hb.
  pose proof (hex_digit_range a x Ha). pose proof (hex_digit_range b y Hb).
  split; [|lia].
  pose proof all_hex_pairs_checked as Hall.
  rewrite forallb_forall in Hall. specialize (Hall a (hex_digit_in a x Ha)).
  rewrite forallb_forall in Hall. specialize (Hall b (hex_digit_in b y Hb)).
  unfold check_hex_pair in Hall. rewrite Ha, Hb in Hall.
  destruct (PyStr.int16 (String a (String b EmptyString))) as [n|e]; [|discriminate].
  apply Z.eqb_eq in Hall. subst n. reflexivity.
Qed.

(** On a [#RRGGBB] descriptor the slices of the hue shift spell the same
    three bytes as the descriptor. *)
Lemma target_rgb_of_descriptor (target_hex : string) (r g b : Z) :
  getrgb target_hex = Ok (r, g, b) ->
  target_rgb target_hex = Ok (unit_of r, unit_of g, unit_of b) /\
  0 <= r <= 255 /\ 0 <= g <= 255 /\ 0 <= b <= 255.
Proof.
  unfold getrgb.
  destruct target_hex as [|h [|c1 [|c2 [|c3 [|c4 [|c5 [|c6 [|c7 rest]]]]]]]];
    cbn [list_ascii_of_string]; try discriminate.
  destruct (Ascii.eqb h "#"); [|discriminate].
  destruct (PyStr.hex_digit c1) as [d1|] eqn:H1; [|discriminate].
  destruct (PyStr.hex_digit c2) as [d2|] eqn:H2; [|discriminate].
  destruct (PyStr.hex_digit c3) as [d3|] eqn:H3; [|discriminate].
  destruct (PyStr.hex_digit c4) as [d4|] eqn:H4; [|discriminate].
  destruct (PyStr.hex_digit c5) as [d5|] eqn:H5; [|discriminate].
  destruct (PyStr.hex_digit c6) as [d6|] eqn:H6; [|discriminate].
  intros H. injection H as <- <- <-.
  destruct (int16_hex_pair c1 c2 d1 d2 H1 H2) as [E1 B1].
  destruct (int16_hex_pair c3 c4 d3 d4 H3 H4) as [E2 B2].
  destruct (int16_hex_pair c5 c6 d5 d6 H5 H6) as [E3 B3].
  split; [|auto].
  unfold target_rgb, target_channel, PyStr.slice.
  cbn [substring Nat.add Nat.sub].
  rewrite E1, E2, E3. reflexivity.
Qed.

Lemma target_hue_of_descriptor (target_hex : string) (r g b : Z) :
  getrgb target_hex = Ok (r, g, b) ->
  exists target_h,
    target_hue target_hex = Ok target_h /\ small 18 target_h.
Proof.
  intros H. destruct (target_rgb_of_descriptor _ _ _ _ H) as (Hrgb & Hr & Hg & Hb).
  unfold target_hue. rewrite Hrgb. cbn [rbind].
  destruct (rgb_to_hsv_units r g b Hr Hg Hb) as (h & -> & Hh).
  exists h. split; [reflexivity|exact Hh].
Qed.

Lemma valid_pixel_bytes (p : pixel) :
  valid_pixel p = true ->
  0 <= red p <= 255 /\ 0 <= green p <= 255 /\ 0 <= blue p <= 255.
Proof. unfold valid_pixel, is_byte. lia. Qed.



Lemma two_tone_valid : valid_image Samples.two_tone.
Proof.
  intros x y _. cbn [Samples.two_tone px]. destruct (x =? 0); reflexivity.
Defined.


Example hue_shift_red_to_green :
  exists out,
    hue_shift_saturation Samples.two_tone "#00FF00" 1%float 1%float = Ok out /\
    px out 0 0 = RGBA 0 255 0 255 /\ px out 1 0 = RGBA 0 5 0 77.
Proof. eexists. split; [vm_compute; reflexivity|]. split; reflexivity. Qed.

(** * Further properties *)

(** ** Strings and paths *)

Lemma string_length_app (x y : string) :
  String.length (x ++ y) = (String.length x + String.length y)%nat.
Proof. induction x as [|c x IH]; cbn; [reflexivity | now rewrite IH]. Qed.

Lemma substring_app_skip (x y : string) (n m : nat) :
  substring (String.length x + n) m (x ++ y) = substring n m y.
Proof. induction x as [|c x IH]; cbn; [reflexivity | exact IH]. Qed.

Lemma substring_all (s : string) : substring 0 (String.length s) s = s.
Proof. induction s as [|c s IH]; cbn; [reflexivity | now rewrite IH]. Qed.

Lemma lower_app (x y : string) :
  PyStr.lower (x ++ y) = PyStr.lower x ++ PyStr.lower y.
Proof. induction x as [|c x IH]; cbn; [reflexivity | now rewrite IH]. Qed.

Lemma endswith_app (x y suffix : string) :
  PyStr.endswith y suffix = true -> PyStr.endswith (x ++ y) suffix = true.
Proof.
  unfold PyStr.endswith. intros H.
  apply andb_true_iff in H as [Hlen Heq].
  apply Nat.leb_le in Hlen.
  rewrite string_length_app.
  apply andb_true_iff; split; [apply Nat.leb_le; lia|].
  replace (String.length x + String.length y - String.length suffix)%nat
    with (String.length x + (String.length y - String.length suffix))%nat by lia.
  now rewrite substring_app_skip.
Qed.

Lemma endswith_self (s : string) : PyStr.endswith s s = true.
Proof.
  unfold PyStr.endswith. rewrite Nat.leb_refl, Nat.sub_diag, substring_all.
  apply String.eqb_refl.
Qed.

Lemma join2_keeps_last (path b : string) :
  exists pre, os_path.join2 path b = pre ++ b.
Proof.
  unfold os_path.join2.
  destruct (PyStr.startswith b "/"); [now exists ""|].
  destruct (negb (PyStr.truthy path) || PyStr.endswith path "/").
  - now exists path.
  - exists (path ++ "/"). now rewrite append_assoc.
Qed.

Lemma ensure_icns_suffix (name : string) :
  PyStr.endswith (PyStr.lower (ensure_icns name)) ".icns" = true.
Proof.
  unfold ensure_icns.
  destruct (PyStr.endswith (PyStr.lower name) ".icns") eqn:E; cbn [negb].
  - exact E.
  - rewrite lower_app. apply endswith_app. reflexivity.
Qed.

Lemma startswith_sep_nonempty (s : string) :
  PyStr.startswith s "/" = true -> PyStr.truthy s = true.
Proof. destruct s; [discriminate | reflexivity]. Qed.

Lemma ensure_icns_truthy (name : string) :
  PyStr.truthy name = true -> PyStr.truthy (ensure_icns name) = true.
Proof.
  unfold ensure_icns. destruct name; [discriminate|].
  now destruct (negb _).
Qed.

Lemma join2_truthy (path b : string) :
  PyStr.truthy b = true -> PyStr.truthy (os_path.join2 path b) = true.
Proof.
  intros H. destruct (join2_keeps_last path b) as [pre ->].
  apply truthy_nonempty, append_nonempty. now apply truthy_nonempty.
Qed.

(** X1. The icon name is given the [.icns] suffix exactly when it lacks it
    in every letter case: the result always ends in [.icns] once lower-cased,
    and ensuring the suffix a second time changes nothing. *)
Theorem ensure_icns_idempotent (name : string) :
  PyStr.endswith (PyStr.lower (ensure_icns name)) ".icns" = true /\
  ensure_icns (ensure_icns name) = ensure_icns name.
Proof.
  split; [apply ensure_icns_suffix|].
  generalize (ensure_icns_suffix name).
  generalize (ensure_icns name) as s. intros s Hs.
  unfold ensure_icns. now rewrite Hs.
Qed.

(** What [pull_app_icon] returns when it returns a path. *)
Lemma pull_app_icon_some (w : world) (app_path path : string) :
  pull_app_icon w app_path = Ok (Some path) ->
  exists items name,
    load_plist w (info_plist_path app_path) = Ok (PDict items) /\
    assoc "CFBundleIconFile" items = Some (PString name) /\
    PyStr.truthy name = true /\
    path = resource_path app_path (ensure_icns name) /\
    isfile w path = true.
Proof.
  unfold pull_app_icon.
  destruct (isfile w (info_plist_path app_path)); cbn [negb]; [|discriminate].
  destruct (load_plist w (info_plist_path app_path)) as [d|e]; cbn [rbind]; [|discriminate].
  destruct d; cbn [plist_get rbind]; try discriminate.
  destruct (assoc "CFBundleIconFile" items) as [v|] eqn:Ha; [|discriminate].
  destruct (plist_truthy v) eqn:Ht; cbn [negb]; [|discriminate].
  destruct v; cbn [icon_file_name rbind]; try discriminate.
  destruct (isfile w (resource_path app_path (ensure_icns s))) eqn:Hf; [|discriminate].
  intros H. injection H as <-.
  exists items, s. repeat split; try reflexivity; assumption.
Qed.

(** X2. A path returned by the locator names an existing file, is not
    empty, and ends in [.icns] in some letter case. *)
Theorem pull_app_icon_returns_icns_file (w : world) (app_path path : string) :
  pull_app_icon w app_path = Ok (Some path) ->
  isfile w path = true /\
  PyStr.truthy path = true /\
  PyStr.endswith (PyStr.lower path) ".icns" = true.
Proof.
  intros H.
  destruct (pull_app_icon_some _ _ _ H) as (items & name & _ & _ & Hn & -> & Hf).
  split; [exact Hf|].
  unfold resource_path, os_path.join. cbn [fold_left].
  split.
  - apply join2_truthy, ensure_icns_truthy, Hn.
  - destruct (join2_keeps_last
                (os_path.join2 (os_path.join2 app_path "Contents") "Resources")
                (ensure_icns name)) as [pre ->].
    rewrite lower_app. apply endswith_app, ensure_icns_suffix.
Qed.

Lemma pull_app_icon_returns_icns_file_witness :
  isfile Samples.demo_world
    "/Applications/Demo.app/Contents/Resources/AppIcon.icns" = true /\
  PyStr.truthy "/Applications/Demo.app/Contents/Resources/AppIcon.icns" = true /\
  PyStr.endswith
    (PyStr.lower "/Applications/Demo.app/Contents/Resources/AppIcon.icns")
    ".icns" = true.
Proof.
  apply (pull_app_icon_returns_icns_file Samples.demo_world "/Applications/Demo.app").
  reflexivity.
Defined.

Lemma startswith_sep_app (s t : string) :
  PyStr.startswith s "/" = true -> PyStr.startswith (s ++ t) "/" = true.
Proof.
  destruct s as [|c s]; [discriminate|].
  unfold PyStr.startswith. cbn [append prefix].
  destruct (ascii_dec "/" c); [intros _|intros H; discriminate H].
  now destruct (s ++ t).
Qed.

(** X3. An icon name that is an absolute path is looked up as it stands:
    the bundle's own directories are discarded, so the locator can return a
    file outside the bundle. *)
Theorem pull_app_icon_absolute_icon_name (w : world) (app_path : string)
  (items : list (string * plist)) (name : string) :
  isfile w (info_plist_path app_path) = true ->
  load_plist w (info_plist_path app_path) = Ok (PDict items) ->
  assoc "CFBundleIconFile" items = Some (PString name) ->
  PyStr.startswith name "/" = true ->
  resource_path app_path (ensure_icns name) = ensure_icns name /\
  pull_app_icon w app_path =
    Ok (if isfile w (ensure_icns name) then Some (ensure_icns name) else None).
Proof.
  intros Hf Hl Ha Hs.
  assert (Hp : resource_path app_path (ensure_icns name) = ensure_icns name).
  { unfold resource_path, os_path.join. cbn [fold_left].
    unfold os_path.join2 at 1.
    assert (He : PyStr.startswith (ensure_icns name) "/" = true).
    { unfold ensure_icns. destruct (negb _); [now apply startswith_sep_app | exact Hs]. }
    now rewrite He. }
  split; [exact Hp|].
  unfold pull_app_icon. rewrite Hf, Hl. cbn [negb rbind plist_get]. rewrite Ha.
  cbn [plist_truthy]. rewrite (startswith_sep_nonempty _ Hs).
  cbn [negb icon_file_name rbind]. rewrite Hp.
  now destruct (isfile w (ensure_icns name)).
Qed.

Lemma pull_app_icon_absolute_icon_name_witness :
  resource_path "/Applications/Demo.app" (ensure_icns "/Library/Shared/Generic")
    = ensure_icns "/Library/Shared/Generic" /\
  pull_app_icon stray_world "/Applications/Demo.app" =
    Ok (if isfile stray_world (ensure_icns "/Library/Shared/Generic")
        then Some (ensure_icns "/Library/Shared/Generic") else None).
Proof.
  apply (pull_app_icon_absolute_icon_name stray_world "/Applications/Demo.app"
           [("CFBundleIconFile", PString "/Library/Shared/Generic")]
           "/Library/Shared/Generic"); reflexivity.
Defined.

(** ** Runs: what is opened, written and reported *)

Lemma io_bind_ok {A B : Type} (t : list event) (a : A) (k : A -> io B) :
  io_bind (t, Ok a) k = ((t ++ trace (k a))%list, outcome (k a)).
Proof. unfold io_bind, trace, outcome. now destruct (k a). Qed.

Lemma io_bind_raise {A B : Type} (t : list event) (e : exn) (k : A -> io B) :
  io_bind (t, Raise e) k = (t, Raise e).
Proof. reflexivity. Qed.

Section Batches.

Variable lanczos : image -> Z -> Z -> image.
Variable w : world.

(** X4. Paths that do not end in [.app] (in any letter case) and bundles
    for which the locator finds no icon are reported and skipped: the batch
    opens nothing, writes nothing and ends normally. *)
Theorem recolor_app_icons_skips (recolor_function : image -> result image)
  (out_dir : string) (app_paths : list string) :
  forallb (fun p => negb (PyStr.endswith (PyStr.lower p) ".app") ||
                    match pull_app_icon w p with Ok None => true | _ => false end)
    app_paths = true ->
  recolor_app_icons lanczos w app_paths recolor_function out_dir =
    (map (fun p => Printed (if PyStr.endswith (PyStr.lower p) ".app"
                            then NoIconFound p else SkippingNonApp p)) app_paths,
     Ok tt).
Proof.
  induction app_paths as [|p rest IH]; cbn [forallb map recolor_app_icons];
    [reflexivity|].
  intros H. apply andb_true_iff in H as [Hp Hrest].
  rewrite (IH Hrest). unfold recolor_app_icon.
  destruct (PyStr.endswith (PyStr.lower p) ".app"); cbn [negb orb] in *.
  - destruct (pull_app_icon w p) as [[icon|]|e]; try discriminate.
    reflexivity.
  - reflexivity.
Qed.

Lemma pull_app_icon_truthy (app_path icon : string) :
  pull_app_icon w app_path = Ok (Some icon) -> PyStr.truthy icon = true.
Proof.
  intros H. destruct (pull_app_icon_some _ _ _ H) as (items & name & _ & _ & Hn & -> & _).
  unfold resource_path, os_path.join. cbn [fold_left].
  apply join2_truthy, ensure_icns_truthy, Hn.
Qed.

(** The loop body on a bundle whose icon opens, is recoloured and is
    normalised. *)
Lemma recolor_app_icon_saves (recolor_function : image -> result image)
  (out_dir app_path icon : string) (img rc final : image) :
  PyStr.endswith (PyStr.lower app_path) ".app" = true ->
  pull_app_icon w app_path = Ok (Some icon) ->
  decode_image w icon = Ok img ->
  recolor_function img = Ok rc ->
  resize_and_center_512 lanczos rc = Ok final ->
  recolor_app_icon lanczos w recolor_function out_dir app_path =
    (Opened icon ::
     match write_fails w (bundle_out_path out_dir app_path) with
     | None =>
         [Written (bundle_out_path out_dir app_path) final;
          Printed (RecoloredOk
                     (os_path_names.splitext_root (os_path_names.basename app_path))
                     (bundle_out_path out_dir app_path))]
     | Some _ =>
         [Printed (CouldNotSave
                     (os_path_names.splitext_root (os_path_names.basename app_path)))]
     end, Ok tt).
Proof.
  intros Happ Hpull Hdec Hrec Hnorm.
  unfold recolor_app_icon. rewrite Happ, Hpull. cbn [negb lift io_bind app].
  rewrite (pull_app_icon_truthy _ _ Hpull). cbn [negb].
  unfold attempt, image_open. cbn [fst snd io_bind]. rewrite Hdec, Hrec.
  cbn [lift io_bind app]. rewrite Hnorm. cbn [io_bind app].
  fold (bundle_out_path out_dir app_path).
  unfold save_icns.
  destruct (write_fails w (bundle_out_path out_dir app_path)); reflexivity.
Qed.

(** X5. A bundle whose icon opens, is recoloured and is normalised: the
    icon is written to the output directory under the bundle's base name;
    a failure to write is reported, and in both cases the batch goes on with
    the remaining bundles. *)
Theorem recolor_app_icons_saves_and_continues
  (recolor_function : image -> result image) (out_dir app_path : string)
  (rest : list string) (icon : string) (img rc final : image) :
  PyStr.endswith (PyStr.lower app_path) ".app" = true ->
  pull_app_icon w app_path = Ok (Some icon) ->
  decode_image w icon = Ok img ->
  recolor_function img = Ok rc ->
  resize_and_center_512 lanczos rc = Ok final ->
  recolor_app_icons lanczos w (app_path :: rest) recolor_function out_dir =
    ((Opened icon ::
      match write_fails w (bundle_out_path out_dir app_path) with
      | None =>
          [Written (bundle_out_path out_dir app_path) final;
           Printed (RecoloredOk
                      (os_path_names.splitext_root (os_path_names.basename app_path))
                      (bundle_out_path out_dir app_path))]
      | Some _ =>
          [Printed (CouldNotSave
                      (os_path_names.splitext_root (os_path_names.basename app_path)))]
      end) ++ trace (recolor_app_icons lanczos w rest recolor_function out_dir),
     outcome (recolor_app_icons lanczos w rest recolor_function out_dir))%list.
Proof.
  intros Happ Hpull Hdec Hrec Hnorm. cbn [recolor_app_icons].
  rewrite (recolor_app_icon_saves _ out_dir _ _ _ _ _ Happ Hpull Hdec Hrec Hnorm).
  rewrite io_bind_ok. reflexivity.
Qed.

(** X6. An exception of the locator is not caught by the batch: it ends the
    whole batch at that bundle, before anything of it is opened, and the
    remaining bundles are not processed. *)
Theorem recolor_app_icons_stops_at_locator_failure
  (recolor_function : image -> result image) (out_dir app_path : string)
  (rest : list string) (e : exn) :
  PyStr.endswith (PyStr.lower app_path) ".app" = true ->
  pull_app_icon w app_path = Raise e ->
  recolor_app_icons lanczos w (app_path :: rest) recolor_function out_dir =
    ([], Raise e).
Proof.
  intros Happ Hpull. cbn [recolor_app_icons]. unfold recolor_app_icon.
  rewrite Happ, Hpull. reflexivity.
Qed.

(** X7. Neither is an exception of the recolouring or of the normalisation:
    the icon has been opened, nothing is written or reported, and the batch
    ends there with that exception. *)
Theorem recolor_app_icons_stops_at_recolor_failure
  (recolor_function : image -> result image) (out_dir app_path : string)
  (rest : list string) (icon : string) (img : image) (e : exn) :
  PyStr.endswith (PyStr.lower app_path) ".app" = true ->
  pull_app_icon w app_path = Ok (Some icon) ->
  decode_image w icon = Ok img ->
  (recolor_function img = Raise e \/
   exists rc, recolor_function img = Ok rc /\
              resize_and_center_512 lanczos rc = Raise e) ->
  recolor_app_icons lanczos w (app_path :: rest) recolor_function out_dir =
    ([Opened icon], Raise e).
Proof.
  intros Happ Hpull Hdec Hfail. cbn [recolor_app_icons]. unfold recolor_app_icon.
  rewrite Happ, Hpull. cbn [negb lift io_bind app].
  rewrite (pull_app_icon_truthy _ _ Hpull). cbn [negb].
  unfold attempt, image_open. cbn [fst snd io_bind]. rewrite Hdec.
  destruct Hfail as [Hrec|(rc & Hrec & Hnorm)]; rewrite Hrec; cbn [lift io_bind app];
    [reflexivity|].
  rewrite Hnorm. reflexivity.
Qed.

(** The loop body over the selected image files, on a file that opens, is
    recoloured and is normalised. *)
Lemma process_image_saves (choice target : string) (o : options) (path : string)
  (img rc final : image) :
  decode_image w path = Ok img ->
  recolor choice target o img = Ok rc ->
  resize_and_center_512 lanczos rc = Ok final ->
  process_image lanczos w choice target o path =
    match write_fails w (standard_out_path path) with
    | None =>
        ([Printed (Processing path (standard_out_path path)); Opened path;
          Written (standard_out_path path) final;
          Printed (SavedTo (standard_out_path path))], Ok tt)
    | Some e =>
        ([Printed (Processing path (standard_out_path path)); Opened path], Raise e)
    end.
Proof.
  intros Hdec Hrec Hnorm. unfold process_image, image_open, save_icns.
  fold (standard_out_path path).
  cbn [print emit io_bind app]. rewrite Hdec. cbn [io_bind app lift].
  rewrite Hrec. cbn [io_bind app lift]. rewrite Hnorm. cbn [io_bind app lift].
  destruct (write_fails w (standard_out_path path)); reflexivity.
Qed.

(** X8. The loop over image files, on a file that opens, is recoloured and
    is normalised: the icon is written beside the source under its name
    without the extension, and the loop goes on; here a failure to write
    is not caught and ends the run. *)
Theorem process_images_saves_or_stops (choice target : string) (o : options)
  (path : string) (rest : list string) (img rc final : image) :
  decode_image w path = Ok img ->
  recolor choice target o img = Ok rc ->
  resize_and_center_512 lanczos rc = Ok final ->
  process_images lanczos w choice target o (path :: rest) =
    match write_fails w (standard_out_path path) with
    | None =>
        (Printed (Processing path (standard_out_path path)) :: Opened path ::
         Written (standard_out_path path) final ::
         Printed (SavedTo (standard_out_path path)) ::
         trace (process_images lanczos w choice target o rest),
         outcome (process_images lanczos w choice target o rest))
    | Some e =>
        ([Printed (Processing path (standard_out_path path)); Opened path], Raise e)
    end.
Proof.
  intros Hdec Hrec Hnorm. cbn [process_images].
  rewrite (process_image_saves _ _ _ _ _ _ _ Hdec Hrec Hnorm).
  destruct (write_fails w (standard_out_path path)); [reflexivity|].
  rewrite io_bind_ok. reflexivity.
Qed.

(** *** Invariants of every run *)

Lemma item_trace_quiet (out_path : string) (t : list event) :
  filter is_written t = [] -> (List.length (filter is_opened t) <= 1)%nat ->
  item_trace lanczos out_path t.
Proof. intros H1 H2. left. now split. Qed.

Lemma recolor_app_icon_item (recolor_function : image -> result image)
  (out_dir app_path : string) :
  item_trace lanczos (bundle_out_path out_dir app_path)
    (trace (recolor_app_icon lanczos w recolor_function out_dir app_path)).
Proof.
  unfold recolor_app_icon.
  destruct (PyStr.endswith (PyStr.lower app_path) ".app"); cbn [negb];
    [|apply item_trace_quiet; cbn; [reflexivity | lia]].
  destruct (pull_app_icon w app_path) as [[icon|]|e]; cbn [lift io_bind app];
    try (apply item_trace_quiet; cbn; [reflexivity | lia]).
  destruct (PyStr.truthy icon); cbn [negb];
    [|apply item_trace_quiet; cbn; [reflexivity | lia]].
  unfold attempt, image_open. cbn [fst snd io_bind].
  destruct (decode_image w icon) as [img|e]; cbn [app print emit];
    [|apply item_trace_quiet; cbn; [reflexivity | lia]].
  destruct (recolor_function img) as [rc|e]; cbn [lift io_bind app];
    [|apply item_trace_quiet; cbn; [reflexivity | lia]].
  destruct (resize_and_center_512 lanczos rc) as [final|e] eqn:Hn; cbn [io_bind app];
    [|apply item_trace_quiet; cbn; [reflexivity | lia]].
  fold (bundle_out_path out_dir app_path). unfold save_icns.
  destruct (write_fails w (bundle_out_path out_dir app_path));
    [apply item_trace_quiet; cbn; [reflexivity | lia]|].
  right. exists [Opened icon],
    [Printed (RecoloredOk
                (os_path_names.splitext_root (os_path_names.basename app_path))
                (bundle_out_path out_dir app_path))], rc, final.
  repeat split; try reflexivity. exact Hn.
Qed.

Lemma process_image_item (choice target : string) (o : options) (path : string) :
  item_trace lanczos (standard_out_path path)
    (trace (process_image lanczos w choice target o path)).
Proof.
  unfold process_image, image_open, save_icns. fold (standard_out_path path).
  cbn [print emit io_bind app].
  destruct (decode_image w path) as [img|e]; cbn [lift io_bind app];
    [|apply item_trace_quiet; cbn; [reflexivity | lia]].
  destruct (recolor choice target o img) as [rc|e]; cbn [lift io_bind app];
    [|apply item_trace_quiet; cbn; [reflexivity | lia]].
  destruct (resize_and_center_512 lanczos rc) as [final|e] eqn:Hn; cbn [io_bind app];
    [|apply item_trace_quiet; cbn; [reflexivity | lia]].
  destruct (write_fails w (standard_out_path path));
    [apply item_trace_quiet; cbn; [reflexivity | lia]|].
  right. exists [Printed (Processing path (standard_out_path path)); Opened path],
    [Printed (SavedTo (standard_out_path path))], rc, final.
  repeat split; try reflexivity. exact Hn.
Qed.

End Batches.

Section Invariants.

Variable lanczos : image -> Z -> Z -> image.
Variable float_of_string : string -> option float.
Variable w : world.

Lemma items_trace_nil (out_path : string -> string) (paths : list string) :
  items_trace lanczos out_path paths [].
Proof. destruct paths; now left. Qed.

Lemma items_trace_bind (out_path : string -> string) (p : string)
  (rest : list string) (m : io unit) (k : unit -> io unit) :
  item_trace lanczos (out_path p) (trace m) ->
  (forall u, items_trace lanczos out_path rest (trace (k u))) ->
  items_trace lanczos out_path (p :: rest) (trace (io_bind m k)).
Proof.
  intros Hm Hk. destruct m as [t [u|e]].
  - rewrite io_bind_ok. right. exists t, (trace (k u)). repeat split; auto.
  - rewrite io_bind_raise. right. exists t, []. rewrite app_nil_r.
    repeat split; auto. apply items_trace_nil.
Qed.

Lemma recolor_app_icons_items (recolor_function : image -> result image)
  (out_dir : string) (app_paths : list string) :
  items_trace lanczos (bundle_out_path out_dir) app_paths
    (trace (recolor_app_icons lanczos w app_paths recolor_function out_dir)).
Proof.
  induction app_paths as [|p rest IH]; [now left|].
  cbn [recolor_app_icons]. apply items_trace_bind; [|intros _; exact IH].
  apply recolor_app_icon_item.
Qed.

Lemma process_images_items (choice target : string) (o : options)
  (paths : list string) :
  items_trace lanczos standard_out_path paths
    (trace (process_images lanczos w choice target o paths)).
Proof.
  induction paths as [|p rest IH]; [now left|].
  cbn [process_images]. apply items_trace_bind; [|intros _; exact IH].
  apply process_image_item.
Qed.

(** The events of a run: those of its loop, then at most a closing
    message. *)
Lemma main_items (a : answers) :
  exists t post,
    trace (main lanczos float_of_string w a) = (t ++ post)%list /\
    items_trace lanczos (out_path_of a) (selected_paths a) t /\
    filter is_written post = [] /\ filter is_opened post = [].
Proof.
  unfold main, out_path_of.
  destruct (blank (approach_choice a)).
  { exists [], [Printed NoApproachChosen]. repeat split. apply items_trace_nil. }
  destruct (String.eqb (PyStr.lower (text (approach_choice a))) "app").
  - destruct (is_choice (sub_choice a) ["1"; "2"; "3"]); cbn [negb].
    2:{ exists [], [ErrorBox InvalidSubChoice]. repeat split. apply items_trace_nil. }
    destruct (blank (target_hex a)).
    { exists [], [Printed NoHexEntered]. repeat split. apply items_trace_nil. }
    destruct (selected_paths a) as [|p rest] eqn:Hp.
    { exists [], [Printed NoAppSelected]. repeat split. now left. }
    destruct (PyStr.truthy (output_dir a)); cbn [negb].
    2:{ exists [], [Printed NoOutputDirectory]. repeat split. now left. }
    destruct (gather_options float_of_string a (text (sub_choice a))
                (text (target_hex a))) as [o|e]; cbn [lift io_bind app].
    2:{ exists [], []. repeat split. now left. }
    pose proof (recolor_app_icons_items
                  (recolor (text (sub_choice a)) (text (target_hex a)) o)
                  (output_dir a) (p :: rest)) as Hitems.
    destruct (recolor_app_icons lanczos w (p :: rest)
                (recolor (text (sub_choice a)) (text (target_hex a)) o)
                (output_dir a)) as [t [u|e]].
    + exists t, [Printed DoneApps]. repeat split. exact Hitems.
    + exists t, []. rewrite app_nil_r. repeat split. exact Hitems.
  - destruct (is_choice (approach_choice a) ["1"; "2"; "3"]); cbn [negb].
    2:{ exists [], [ErrorBox InvalidApproach]. repeat split. apply items_trace_nil. }
    destruct (blank (target_hex a)).
    { exists [], [Printed NoHexEntered]. repeat split. apply items_trace_nil. }
    destruct (selected_paths a) as [|p rest] eqn:Hp.
    { exists [], [Printed NoImageSelected]. repeat split. now left. }
    destruct (gather_options float_of_string a (text (approach_choice a))
                (text (target_hex a))) as [o|e]; cbn [lift io_bind app].
    2:{ exists [], []. repeat split. now left. }
    pose proof (process_images_items (text (approach_choice a))
                  (text (target_hex a)) o (p :: rest)) as Hitems.
    destruct (process_images lanczos w (text (approach_choice a))
                (text (target_hex a)) o (p :: rest)) as [t [u|e]].
    + exists t, [Printed DoneStandard]. repeat split. exact Hitems.
    + exists t, []. rewrite app_nil_r. repeat split. exact Hitems.
Qed.

Lemma filter_nil_forall {A : Type} (f : A -> bool) (Q : A -> Prop) (l : list A) :
  filter f l = [] -> (forall x, f x = false -> Q x) -> Forall Q l.
Proof.
  induction l as [|x l IH]; cbn; intros H HQ; [constructor|].
  destruct (f x) eqn:E; [discriminate|]. constructor; auto.
Qed.

Lemma items_trace_written (out_path : string -> string) (paths : list string)
  (t : list event) :
  items_trace lanczos out_path paths t ->
  Forall (fun e =>
            match e with
            | Written path im =>
                width im = 512 /\ height im = 512 /\ In path (map out_path paths)
            | _ => True
            end) t.
Proof.
  revert t. induction paths as [|p rest IH]; intros t [->|H]; try constructor;
    try contradiction.
  destruct H as (t1 & t2 & -> & H1 & H2).
  apply Forall_app. split.
  - destruct H1 as [[Hw _]|(pre & post & rc & final & -> & Hpre & Hpost & _ & _ & Hn)].
    + apply (filter_nil_forall _ _ _ Hw). now intros [].
    + apply Forall_app. split; [|constructor].
      * apply (filter_nil_forall _ _ _ Hpre). now intros [].
      * destruct (resize_and_center_512_size _ _ _ Hn) as [Hx Hy].
        repeat split; auto. now left.
      * apply (filter_nil_forall _ _ _ Hpost). now intros [].
  - apply (Forall_impl _ (P := fun e => match e with
                                        | Written path im =>
                                            width im = 512 /\ height im = 512 /\
                                            In path (map out_path rest)
                                        | _ => True end)); [|now apply IH].
    intros [] ; auto. intros (? & ? & ?). repeat split; auto. now right.
Qed.

Lemma filter_length_app {A : Type} (f : A -> bool) (l l' : list A) :
  List.length (filter f (l ++ l')) =
  (List.length (filter f l) + List.length (filter f l'))%nat.
Proof. now rewrite filter_app, List.length_app. Qed.

Lemma items_trace_counts (out_path : string -> string) (paths : list string)
  (t : list event) :
  items_trace lanczos out_path paths t ->
  (List.length (filter is_written t) <= List.length (filter is_opened t)
   /\ List.length (filter is_opened t) <= List.length paths)%nat.
Proof.
  revert t. induction paths as [|p rest IH]; intros t [->|H]; cbn; try lia;
    try contradiction.
  destruct H as (t1 & t2 & -> & H1 & H2).
  rewrite !filter_length_app. specialize (IH _ H2).
  destruct H1 as [[Hw Ho]|(pre & post & rc & final & -> & Hpre & Hpost & Ho & Ho' & _)].
  - rewrite Hw. cbn. lia.
  - rewrite !filter_length_app. cbn [filter is_written is_opened List.length].
    rewrite Hpre, Hpost, Ho, Ho'. cbn. lia.
Qed.

(** X9. In every run, whatever the answers and the files: each image
    written is 512 by 512, and it is written to the output path derived
    from one of the selected paths. *)
Theorem main_writes_normalised_icons (a : answers) :
  Forall (fun e =>
            match e with
            | Written path im =>
                width im = 512 /\ height im = 512 /\
                In path (map (out_path_of a) (selected_paths a))
            | _ => True
            end) (trace (main lanczos float_of_string w a)).
Proof.
  destruct (main_items a) as (t & post & -> & Ht & Hw & _).
  apply Forall_app. split.
  - now apply items_trace_written.
  - apply (filter_nil_forall _ _ _ Hw). now intros [].
Qed.

(** X10. In every run at most one file is opened for each selected path,
    and at most one icon is written for each file opened. *)
Theorem main_opens_and_writes_at_most_once (a : answers) :
  (List.length (filter is_written (trace (main lanczos float_of_string w a)))
   <= List.length (filter is_opened (trace (main lanczos float_of_string w a)))
   /\ List.length (filter is_opened (trace (main lanczos float_of_string w a)))
      <= List.length (selected_paths a))%nat.
Proof.
  destruct (main_items a) as (t & post & -> & Ht & Hw & Ho).
  rewrite !filter_length_app, Hw, Ho. cbn [List.length].
  pose proof (items_trace_counts _ _ _ Ht). lia.
Qed.

(** X11. When the approach, the colour or the file selection is cancelled
    or left empty, the run shows one message and ends normally: nothing is
    opened and nothing is written. *)
Theorem main_cancelled_prompt (a : answers) :
  cancelled a = true ->
  exists m, main lanczos float_of_string w a = ([Printed m], Ok tt) \/
            main lanczos float_of_string w a = ([ErrorBox m], Ok tt).
Proof.
  unfold cancelled, main. intros H.
  destruct (blank (approach_choice a)); [eexists; left; reflexivity|].
  destruct (String.eqb (PyStr.lower (text (approach_choice a))) "app").
  - destruct (is_choice (sub_choice a) ["1"; "2"; "3"]); cbn [negb];
      [|eexists; right; reflexivity].
    destruct (blank (target_hex a)); [eexists; left; reflexivity|].
    destruct (selected_paths a); [eexists; left; reflexivity|discriminate].
  - destruct (is_choice (approach_choice a) ["1"; "2"; "3"]); cbn [negb];
      [|eexists; right; reflexivity].
    destruct (blank (target_hex a)); [eexists; left; reflexivity|].
    destruct (selected_paths a); [eexists; left; reflexivity|discriminate].
Qed.

End Invariants.

Lemma main_cancelled_prompt_witness :
  exists m,
    main Samples.no_resample Samples.no_float Samples.demo_world no_colour_run
      = ([Printed m], Ok tt) \/
    main Samples.no_resample Samples.no_float Samples.demo_world no_colour_run
      = ([ErrorBox m], Ok tt).
Proof.
  apply (main_cancelled_prompt Samples.no_resample Samples.no_float
           Samples.demo_world no_colour_run).
  reflexivity.
Defined.

(** *** Output names *)

Lemma no_sep_app (x y : string) : no_sep (x ++ y) = no_sep x && no_sep y.
Proof.
  induction x as [|c x IH]; cbn [append no_sep]; [reflexivity|].
  now rewrite IH, andb_assoc.
Qed.

Lemma after_last_sep_no_sep (s pre : string) :
  no_sep pre = true ->
  no_sep (os_path_names.after_last_sep s (pre ++ s)) = true.
Proof.
  revert pre. induction s as [|c r IH]; intros pre Hpre;
    cbn [os_path_names.after_last_sep].
  - rewrite no_sep_app, Hpre. reflexivity.
  - destruct (Ascii.eqb c "/") eqn:E.
    + apply (IH ""). reflexivity.
    + replace (pre ++ String c r) with ((pre ++ String c "") ++ r)
        by now rewrite append_assoc.
      apply IH. rewrite no_sep_app, Hpre. cbn. now rewrite E.
Qed.

Lemma basename_no_sep (p : string) : no_sep (os_path_names.basename p) = true.
Proof. apply (after_last_sep_no_sep p ""). reflexivity. Qed.

Lemma substring_no_sep (s : string) (n m : nat) :
  no_sep s = true -> no_sep (substring n m s) = true.
Proof.
  revert n m. induction s as [|c r IH]; intros n m H; [now destruct n, m|].
  cbn [no_sep] in H. apply andb_true_iff in H as [Hc Hr].
  destruct n as [|n]; destruct m as [|m]; cbn [substring no_sep]; auto.
  rewrite Hc. cbn. auto.
Qed.

Lemma splitext_root_no_sep (p : string) :
  no_sep p = true -> no_sep (os_path_names.splitext_root p) = true.
Proof.
  intros H. unfold os_path_names.splitext_root.
  destruct (_ && _); [now apply substring_no_sep | exact H].
Qed.

Lemma no_sep_not_absolute (s : string) :
  no_sep s = true -> PyStr.startswith s "/" = false.
Proof.
  destruct s as [|c r]; [reflexivity|]. cbn [no_sep].
  intros H. apply andb_true_iff in H as [Hc _].
  unfold PyStr.startswith. cbn [prefix].
  destruct (ascii_dec "/" c) as [<-|]; [discriminate | reflexivity].
Qed.

(** X12. The icon of a bundle is written directly inside the chosen output
    directory: its file name, the bundle's base name without the last
    extension followed by [.icns], holds no path separator, whatever the
    bundle's path. *)
Theorem bundle_out_path_in_output_dir (out_dir app_path : string) :
  exists file,
    no_sep file = true /\
    PyStr.endswith file ".icns" = true /\
    bundle_out_path out_dir app_path =
      if negb (PyStr.truthy out_dir) || PyStr.endswith out_dir "/"
      then out_dir ++ file else out_dir ++ "/" ++ file.
Proof.
  exists (os_path_names.splitext_root (os_path_names.basename app_path) ++ ".icns").
  assert (Hn : no_sep (os_path_names.splitext_root
                         (os_path_names.basename app_path) ++ ".icns") = true).
  { rewrite no_sep_app, splitext_root_no_sep by apply basename_no_sep. reflexivity. }
  split; [exact Hn|]. split; [apply endswith_app; reflexivity|].
  unfold bundle_out_path, os_path.join. cbn [fold_left]. unfold os_path.join2.
  now rewrite (no_sep_not_absolute _ Hn).
Qed.

Lemma recolor_app_icons_skips_witness :
  recolor_app_icons Samples.no_resample Samples.demo_world
    ["/Applications/Other.app"; "notes.txt"] (fun img => Ok img) "/tmp/out" =
    (map (fun p => Printed (if PyStr.endswith (PyStr.lower p) ".app"
                            then NoIconFound p else SkippingNonApp p))
       ["/Applications/Other.app"; "notes.txt"], Ok tt).
Proof.
  apply (recolor_app_icons_skips Samples.no_resample Samples.demo_world
           (fun img => Ok img) "/tmp/out" ["/Applications/Other.app"; "notes.txt"]).
  reflexivity.
Defined.

Lemma recolor_app_icons_saves_and_continues_witness :
  exists final,
    recolor_app_icons Samples.no_resample full_disk_world
      ["/Applications/Demo.app"] (fun img => Ok img) "/tmp/out" =
      ((Opened "/Applications/Demo.app/Contents/Resources/AppIcon.icns" ::
        match write_fails full_disk_world
                (bundle_out_path "/tmp/out" "/Applications/Demo.app") with
        | None =>
            [Written (bundle_out_path "/tmp/out" "/Applications/Demo.app") final;
             Printed (RecoloredOk
                        (os_path_names.splitext_root
                           (os_path_names.basename "/Applications/Demo.app"))
                        (bundle_out_path "/tmp/out" "/Applications/Demo.app"))]
        | Some _ =>
            [Printed (CouldNotSave
                        (os_path_names.splitext_root
                           (os_path_names.basename "/Applications/Demo.app")))]
        end) ++
       trace (recolor_app_icons Samples.no_resample full_disk_world []
                (fun img => Ok img) "/tmp/out"),
       outcome (recolor_app_icons Samples.no_resample full_disk_world []
                  (fun img => Ok img) "/tmp/out"))%list.
Proof.
  eexists.
  apply (recolor_app_icons_saves_and_continues Samples.no_resample full_disk_world
           (fun img => Ok img) "/tmp/out" "/Applications/Demo.app" []
           "/Applications/Demo.app/Contents/Resources/AppIcon.icns"
           Samples.opaque_red Samples.opaque_red);
    [reflexivity | reflexivity | reflexivity | reflexivity |].
  apply resize_and_center_512_on_512.
Defined.

Lemma recolor_app_icons_stops_at_locator_failure_witness :
  recolor_app_icons Samples.no_resample Samples.broken_world
    ["/Applications/Demo.app"; "/Applications/Other.app"] (fun img => Ok img)
    "/tmp/out" = ([], Raise InvalidFileException).
Proof.
  apply (recolor_app_icons_stops_at_locator_failure Samples.no_resample
           Samples.broken_world (fun img => Ok img) "/tmp/out"
           "/Applications/Demo.app" ["/Applications/Other.app"]
           InvalidFileException); reflexivity.
Defined.

Lemma recolor_app_icons_stops_at_recolor_failure_witness :
  recolor_app_icons Samples.no_resample Samples.demo_world
    ["/Applications/Demo.app"; "/Applications/Other.app"]
    (fun img => overlay_blend img "#GGGGGG" "screen") "/tmp/out" =
    ([Opened "/Applications/Demo.app/Contents/Resources/AppIcon.icns"],
     Raise ValueError).
Proof.
  apply (recolor_app_icons_stops_at_recolor_failure Samples.no_resample
           Samples.demo_world (fun img => overlay_blend img "#GGGGGG" "screen")
           "/tmp/out" "/Applications/Demo.app" ["/Applications/Other.app"]
           "/Applications/Demo.app/Contents/Resources/AppIcon.icns"
           Samples.opaque_red ValueError);
    [reflexivity | reflexivity | reflexivity | left; reflexivity].
Defined.

Lemma process_images_saves_or_stops_witness :
  exists final,
    process_images Samples.no_resample full_disk_world "2" "#FFB6C1"
      (Options 1%float 1%float "#FFB6C1" "") ["good.png"; "other.png"] =
      match write_fails full_disk_world (standard_out_path "good.png") with
      | None =>
          (Printed (Processing "good.png" (standard_out_path "good.png")) ::
           Opened "good.png" ::
           Written (standard_out_path "good.png") final ::
           Printed (SavedTo (standard_out_path "good.png")) ::
           trace (process_images Samples.no_resample full_disk_world "2" "#FFB6C1"
                    (Options 1%float 1%float "#FFB6C1" "") ["other.png"]),
           outcome (process_images Samples.no_resample full_disk_world "2" "#FFB6C1"
                      (Options 1%float 1%float "#FFB6C1" "") ["other.png"]))
      | Some e =>
          ([Printed (Processing "good.png" (standard_out_path "good.png"));
            Opened "good.png"], Raise e)
      end.
Proof.
  eexists.
  eapply (process_images_saves_or_stops Samples.no_resample full_disk_world
           "2" "#FFB6C1" (Options 1%float 1%float "#FFB6C1" "") "good.png"
           ["other.png"] Samples.opaque_red);
    [reflexivity | reflexivity |].
  apply resize_and_center_512_on_512.
Defined.

(** ** The derived dark colour *)

Lemma getrgb_slices (hex : string) (r g b : Z) :
  getrgb hex = Ok (r, g, b) ->
  PyStr.int16 (PyStr.slice hex 1 3) = Ok r /\
  PyStr.int16 (PyStr.slice hex 3 5) = Ok g /\
  PyStr.int16 (PyStr.slice hex 5 7) = Ok b /\
  0 <= r <= 255 /\ 0 <= g <= 255 /\ 0 <= b <= 255.
Proof.
  unfold getrgb.
  destruct hex as [|h [|c1 [|c2 [|c3 [|c4 [|c5 [|c6 [|c7 rest]]]]]]]];
    cbn [list_ascii_of_string]; try discriminate.
  destruct (Ascii.eqb h "#"); [|discriminate].
  destruct (PyStr.hex_digit c1) as [d1|] eqn:H1; [|discriminate].
  destruct (PyStr.hex_digit c2) as [d2|] eqn:H2; [|discriminate].
  destruct (PyStr.hex_digit c3) as [d3|] eqn:H3; [|discriminate].
  destruct (PyStr.hex_digit c4) as [d4|] eqn:H4; [|discriminate].
  destruct (PyStr.hex_digit c5) as [d5|] eqn:H5; [|discriminate].
  destruct (PyStr.hex_digit c6) as [d6|] eqn:H6; [|discriminate].
  intros H. injection H as <- <- <-.
  destruct (int16_hex_pair c1 c2 d1 d2 H1 H2) as [E1 B1].
  destruct (int16_hex_pair c3 c4 d3 d4 H3 H4) as [E2 B2].
  destruct (int16_hex_pair c5 c6 d5 d6 H5 H6) as [E3 B3].
  unfold PyStr.slice. cbn [substring Nat.add Nat.sub]. auto 10.
Qed.

Lemma all_shades_checked : forallb check_shade bytes = true.
Proof. vm_compute. reflexivity. Qed.

Lemma shade_byte (c : Z) :
  0 <= c <= 255 ->
  shade c = Ok (c * 4 / 5) /\
  exists a b x y,
    format_02X c = String a (String b EmptyString) /\
    PyStr.hex_digit a = Some x /\ PyStr.hex_digit b = Some y /\ 16 * x + y = c.
Proof.
  intros Hc.
  pose proof (proj1 (forallb_forall _ _) all_shades_checked c (in_bytes c Hc)) as H.
  unfold check_shade in H. apply andb_true_iff in H as [Hs Hf].
  split.
  - destruct (shade c) as [d|]; [|discriminate]. apply Z.eqb_eq in Hs. now subst.
  - rewrite <- (string_of_list_ascii_of_string (format_02X c)).
    destruct (list_ascii_of_string (format_02X c)) as [|a [|b [|? ?]]];
      try discriminate.
    destruct (PyStr.hex_digit a) as [x|] eqn:Ha; [|discriminate].
    destruct (PyStr.hex_digit b) as [y|] eqn:Hb; [|discriminate].
    apply Z.eqb_eq in Hf. exists a, b, x, y. auto.
Qed.

Lemma auto_darker_shades (hex : string) :
  auto_darker hex =
  (r <- PyStr.int16 (PyStr.slice hex 1 3) ;;
   g <- PyStr.int16 (PyStr.slice hex 3 5) ;;
   b <- PyStr.int16 (PyStr.slice hex 5 7) ;;
   r <- shade r ;;
   g <- shade g ;;
   b <- shade b ;;
   Ok ("#" ++ format_02X r ++ format_02X g ++ format_02X b))%result.
Proof. reflexivity. Qed.

(** X13. For a colour [#RRGGBB], the automatically derived dark colour is
    again a well-formed descriptor: it reads back as four fifths of each
    channel, rounded down, so no channel of it is brighter than the light
    colour's, and the duotone recolouring accepts the pair. *)
Theorem auto_darker_round_trip (hex : string) (r g b : Z) :
  getrgb hex = Ok (r, g, b) ->
  exists d,
    auto_darker hex = Ok d /\
    getrgb d = Ok (r * 4 / 5, g * 4 / 5, b * 4 / 5) /\
    r * 4 / 5 <= r /\ g * 4 / 5 <= g /\ b * 4 / 5 <= b /\
    forall img, is_ok (grayscale_colorize img hex d) = true.
Proof.
  intros H.
  destruct (getrgb_slices _ _ _ _ H) as (Er & Eg & Eb & Hr & Hg & Hb).
  destruct (shade_byte r Hr) as [Sr _].
  destruct (shade_byte g Hg) as [Sg _].
  destruct (shade_byte b Hb) as [Sb _].
  assert (Hr' : 0 <= r * 4 / 5 <= 255)
    by (split; [apply Z.div_pos | apply Z.div_le_upper_bound]; lia).
  assert (Hg' : 0 <= g * 4 / 5 <= 255)
    by (split; [apply Z.div_pos | apply Z.div_le_upper_bound]; lia).
  assert (Hb' : 0 <= b * 4 / 5 <= 255)
    by (split; [apply Z.div_pos | apply Z.div_le_upper_bound]; lia).
  destruct (shade_byte _ Hr') as [_ (a1 & a2 & x1 & x2 & F1 & D1 & D2 & V1)].
  destruct (shade_byte _ Hg') as [_ (a3 & a4 & x3 & x4 & F2 & D3 & D4 & V2)].
  destruct (shade_byte _ Hb') as [_ (a5 & a6 & x5 & x6 & F3 & D5 & D6 & V3)].
  assert (Hd : getrgb ("#" ++ format_02X (r * 4 / 5) ++ format_02X (g * 4 / 5)
                         ++ format_02X (b * 4 / 5))
               = Ok (r * 4 / 5, g * 4 / 5, b * 4 / 5)).
  { rewrite F1, F2, F3. unfold getrgb. cbn [append list_ascii_of_string].
    cbn [Ascii.eqb Bool.eqb]. rewrite D1, D2, D3, D4, D5, D6, V1, V2, V3.
    reflexivity. }
  eexists. split.
  { rewrite auto_darker_shades, Er, Eg, Eb. cbn [rbind].
    rewrite Sr, Sg, Sb. reflexivity. }
  split; [exact Hd|].
  repeat split; try (apply Z.div_le_upper_bound; lia).
  intros img. unfold grayscale_colorize, ImageOps_colorize.
  rewrite Hd, H. reflexivity.
Qed.

Lemma auto_darker_round_trip_witness :
  exists d,
    auto_darker "#FFB6C1" = Ok d /\
    getrgb d = Ok (255 * 4 / 5, 182 * 4 / 5, 193 * 4 / 5) /\
    255 * 4 / 5 <= 255 /\ 182 * 4 / 5 <= 182 /\ 193 * 4 / 5 <= 193 /\
    forall img, is_ok (grayscale_colorize img "#FFB6C1" d) = true.
Proof.
  apply (auto_darker_round_trip "#FFB6C1" 255 182 193). reflexivity.
Defined.

(** ** Overlay and duotone on valid buffers *)

Lemma multiply_channel_bounds (a b : Z) :
  0 <= a <= 255 -> 0 <= b <= 255 ->
  0 <= multiply_channel a b /\ multiply_channel a b <= a /\ multiply_channel a b <= b.
Proof.
  intros Ha Hb. unfold multiply_channel. repeat split.
  - apply Z.div_pos; nia.
  - apply Z.div_le_upper_bound; nia.
  - apply Z.div_le_upper_bound; nia.
Qed.

Lemma screen_channel_bounds (a b : Z) :
  0 <= a <= 255 -> 0 <= b <= 255 ->
  a <= screen_channel a b /\ b <= screen_channel a b /\ screen_channel a b <= 255.
Proof.
  intros Ha Hb. unfold screen_channel.
  assert (0 <= (255 - a) * (255 - b) / 255) by (apply Z.div_pos; nia).
  assert ((255 - a) * (255 - b) / 255 <= 255 - a) by (apply Z.div_le_upper_bound; nia).
  assert ((255 - a) * (255 - b) / 255 <= 255 - b) by (apply Z.div_le_upper_bound; nia).
  lia.
Qed.

Lemma valid_pixel_alpha (p : pixel) :
  valid_pixel p = true -> 0 <= alpha p <= 255.
Proof. unfold valid_pixel, is_byte. lia. Qed.

Lemma valid_pixel_intro (r g b a : Z) :
  0 <= r <= 255 -> 0 <= g <= 255 -> 0 <= b <= 255 -> 0 <= a <= 255 ->
  valid_pixel (RGBA r g b a) = true.
Proof. unfold valid_pixel, is_byte. cbn [red green blue alpha]. lia. Qed.

Lemma getrgb_bytes (hex : string) (r g b : Z) :
  getrgb hex = Ok (r, g, b) -> 0 <= r <= 255 /\ 0 <= g <= 255 /\ 0 <= b <= 255.
Proof. intros H. now destruct (getrgb_slices _ _ _ _ H) as (_ & _ & _ & ?). Qed.

(** X14. On a valid buffer and a colour [#RRGGBB] the overlay keeps every
    channel a byte; "multiply" darkens: no colour channel of the result
    exceeds the source's or the overlay colour's; every other mode is
    "screen" and lightens: no colour channel of the result is below the
    source's or the overlay colour's. *)
Theorem overlay_blend_darkens_or_lightens (img : image) (hex : string)
  (r g b : Z) :
  getrgb hex = Ok (r, g, b) ->
  valid_image img ->
  (exists out,
     overlay_blend img hex "multiply" = Ok out /\
     forall x y, in_bounds img x y ->
       valid_pixel (px out x y) = true /\
       red (px out x y) <= Z.min (red (px img x y)) r /\
       green (px out x y) <= Z.min (green (px img x y)) g /\
       blue (px out x y) <= Z.min (blue (px img x y)) b) /\
  (forall mode, mode <> "multiply" ->
   exists out,
     overlay_blend img hex mode = Ok out /\
     forall x y, in_bounds img x y ->
       valid_pixel (px out x y) = true /\
       Z.max (red (px img x y)) r <= red (px out x y) /\
       Z.max (green (px img x y)) g <= green (px out x y) /\
       Z.max (blue (px img x y)) b <= blue (px out x y)).
Proof.
  intros Hc Hv. destruct (getrgb_bytes _ _ _ _ Hc) as (Hr & Hg & Hb).
  split.
  - eexists. split; [apply (overlay_blend_multiply_branch _ _ _ _ _ Hc)|].
    intros x y Hxy. specialize (Hv x y Hxy).
    destruct (valid_pixel_bytes _ Hv) as (Pr & Pg & Pb).
    pose proof (valid_pixel_alpha _ Hv) as Pa.
    unfold ImageChops_multiply, map2, new_RGBA.
    cbn [width height px red green blue alpha].
    pose proof (multiply_channel_bounds _ _ Pr Hr).
    pose proof (multiply_channel_bounds _ _ Pg Hg).
    pose proof (multiply_channel_bounds _ _ Pb Hb).
    rewrite multiply_by_255.
    split; [apply valid_pixel_intro; lia | lia].
  - intros mode Hm.
    eexists. split; [apply (overlay_blend_screen_branch _ _ _ _ _ _ Hc Hm)|].
    intros x y Hxy. specialize (Hv x y Hxy).
    destruct (valid_pixel_bytes _ Hv) as (Pr & Pg & Pb).
    unfold ImageChops_screen, map2, new_RGBA.
    cbn [width height px red green blue alpha].
    pose proof (screen_channel_bounds _ _ Pr Hr).
    pose proof (screen_channel_bounds _ _ Pg Hg).
    pose proof (screen_channel_bounds _ _ Pb Hb).
    rewrite screen_with_255.
    split; [apply valid_pixel_intro; lia | lia].
Qed.

Lemma overlay_blend_darkens_or_lightens_witness :
  (exists out,
     overlay_blend Samples.two_tone "#FFB6C1" "multiply" = Ok out /\
     forall x y, in_bounds Samples.two_tone x y ->
       valid_pixel (px out x y) = true /\
       red (px out x y) <= Z.min (red (px Samples.two_tone x y)) 255 /\
       green (px out x y) <= Z.min (green (px Samples.two_tone x y)) 182 /\
       blue (px out x y) <= Z.min (blue (px Samples.two_tone x y)) 193) /\
  (forall mode, mode <> "multiply" ->
   exists out,
     overlay_blend Samples.two_tone "#FFB6C1" mode = Ok out /\
     forall x y, in_bounds Samples.two_tone x y ->
       valid_pixel (px out x y) = true /\
       Z.max (red (px Samples.two_tone x y)) 255 <= red (px out x y) /\
       Z.max (green (px Samples.two_tone x y)) 182 <= green (px out x y) /\
       Z.max (blue (px Samples.two_tone x y)) 193 <= blue (px out x y)).
Proof.
  apply (overlay_blend_darkens_or_lightens Samples.two_tone "#FFB6C1" 255 182 193).
  - reflexivity.
  - exact two_tone_valid.
Defined.

Lemma luma_byte (r g b : Z) :
  0 <= r <= 255 -> 0 <= g <= 255 -> 0 <= b <= 255 -> 0 <= luma r g b <= 255.
Proof.
  intros Hr Hg Hb. unfold luma. rewrite Z.shiftr_div_pow2 by lia.
  change (2 ^ 16) with 65536. split.
  - apply Z.div_pos; lia.
  - apply Z.lt_succ_r, Z.div_lt_upper_bound; lia.
Qed.

Lemma ramp_between (black white i : Z) :
  0 <= i <= 255 ->
  Z.min black white <= ramp black white i <= Z.max black white.
Proof.
  intros Hi. unfold ramp. destruct (i <? 255) eqn:E; [|lia].
  apply Z.ltb_lt in E.
  destruct (Z.le_ge_cases black white) as [H|H].
  - assert (0 <= i * (white - black) / 255) by (apply Z.div_pos; nia).
    assert (i * (white - black) / 255 <= white - black)
      by (apply Z.div_le_upper_bound; nia).
    lia.
  - assert (white - black <= i * (white - black) / 255)
      by (apply Z.div_le_lower_bound; nia).
    assert (i * (white - black) / 255 <= 0).
    { apply Z.lt_succ_r, Z.div_lt_upper_bound; nia. }
    lia.
Qed.

(** X15. The duotone on a valid buffer with two colours [#RRGGBB]: size and
    alpha are kept, every colour channel of the result lies between the dark
    and the light colour's, a black pixel takes the dark colour (the third
    argument) and a white pixel the light colour (the second). *)
Theorem grayscale_colorize_between_dark_and_light (img : image)
  (light dark : string) (lr lg lb dr dg db : Z) :
  getrgb light = Ok (lr, lg, lb) ->
  getrgb dark = Ok (dr, dg, db) ->
  valid_image img ->
  exists out,
    grayscale_colorize img light dark = Ok out /\
    width out = width img /\ height out = height img /\
    forall x y, in_bounds img x y ->
      alpha (px out x y) = alpha (px img x y) /\
      valid_pixel (px out x y) = true /\
      Z.min dr lr <= red (px out x y) <= Z.max dr lr /\
      Z.min dg lg <= green (px out x y) <= Z.max dg lg /\
      Z.min db lb <= blue (px out x y) <= Z.max db lb /\
      (rgb_of (px img x y) = (0, 0, 0) -> rgb_of (px out x y) = (dr, dg, db)) /\
      (rgb_of (px img x y) = (255, 255, 255) ->
       rgb_of (px out x y) = (lr, lg, lb)).
Proof.
  intros Hl Hd Hv.
  destruct (getrgb_bytes _ _ _ _ Hl) as (Lr & Lg & Lb).
  destruct (getrgb_bytes _ _ _ _ Hd) as (Dr & Dg & Db).
  unfold grayscale_colorize, ImageOps_colorize. rewrite Hd, Hl. cbn [rbind].
  eexists. split; [reflexivity|].
  unfold with_alpha, convert_RGBA, getchannel_A, ImageOps_grayscale.
  cbn [width height px]. split; [reflexivity|]. split; [reflexivity|].
  intros x y Hxy. specialize (Hv x y Hxy).
  destruct (valid_pixel_bytes _ Hv) as (Pr & Pg & Pb).
  pose proof (valid_pixel_alpha _ Hv) as Pa.
  pose proof (luma_byte _ _ _ Pr Pg Pb) as Hluma.
  pose proof (ramp_between dr lr _ Hluma).
  pose proof (ramp_between dg lg _ Hluma).
  pose proof (ramp_between db lb _ Hluma).
  cbn [red green blue alpha rgb_of].
  split; [reflexivity|]. split; [apply valid_pixel_intro; lia|].
  repeat (split; [assumption|]).
  unfold rgb_of. split; intros E; injection E as -> -> ->.
  - change (luma 0 0 0) with 0. unfold ramp. cbn [Z.ltb Z.compare].
    now rewrite !Z.mul_0_l, !Zdiv_0_l, !Z.add_0_r.
  - reflexivity.
Qed.

Lemma grayscale_colorize_between_dark_and_light_witness :
  exists out,
    grayscale_colorize Samples.two_tone "#FFB6C1" "#CC919A" = Ok out /\
    width out = width Samples.two_tone /\ height out = height Samples.two_tone /\
    forall x y, in_bounds Samples.two_tone x y ->
      alpha (px out x y) = alpha (px Samples.two_tone x y) /\
      valid_pixel (px out x y) = true /\
      Z.min 204 255 <= red (px out x y) <= Z.max 204 255 /\
      Z.min 145 182 <= green (px out x y) <= Z.max 145 182 /\
      Z.min 154 193 <= blue (px out x y) <= Z.max 154 193 /\
      (rgb_of (px Samples.two_tone x y) = (0, 0, 0) ->
       rgb_of (px out x y) = (204, 145, 154)) /\
      (rgb_of (px Samples.two_tone x y) = (255, 255, 255) ->
       rgb_of (px out x y) = (255, 182, 193)).
Proof.
  apply (grayscale_colorize_between_dark_and_light Samples.two_tone
           "#FFB6C1" "#CC919A" 255 182 193 204 145 154).
  - reflexivity.
  - reflexivity.
  - exact two_tone_valid.
Defined.

(** ** Normalising a buffer that is already 512 by 512 *)

Lemma div255_mono (x y : Z) : 0 <= x <= y -> div255 x <= div255 y.
Proof.
  intros H. unfold div255. rewrite !Z.shiftr_div_pow2 by lia.
  change (2 ^ 8) with 256.
  apply Z.div_le_mono; [lia|].
  assert ((x + 128) / 256 <= (y + 128) / 256) by (apply Z.div_le_mono; lia).
  lia.
Qed.

Lemma div255_nonneg (x : Z) : 0 <= x -> 0 <= div255 x.
Proof.
  intros H. unfold div255. rewrite !Z.shiftr_div_pow2 by lia.
  change (2 ^ 8) with 256.
  assert (0 <= (x + 128) / 256) by (apply Z.div_pos; lia).
  apply Z.div_pos; lia.
Qed.

Lemma blend_onto_clear (m s : Z) :
  0 <= m <= 255 -> 0 <= s <= 255 -> 0 <= blend m 0 s <= s.
Proof.
  intros Hm Hs. unfold blend. rewrite Z.mul_0_l, Z.add_0_l. split.
  - apply div255_nonneg. nia.
  - rewrite <- (div255_exact s Hs) at 2. apply div255_mono. nia.
Qed.

Lemma all_fades_checked : forallb check_fade bytes = true.
Proof. vm_compute. reflexivity. Qed.

Lemma blend_fades (a : Z) : 0 < a < 255 -> blend a 0 a < a.
Proof.
  intros H.
  assert (Hb : 0 <= a <= 255) by lia.
  pose proof (proj1 (forallb_forall _ _) all_fades_checked a (in_bytes a Hb)) as C.
  unfold check_fade in C.
  replace ((0 <? a) && (a <? 255)) with true in C
    by (symmetry; apply andb_true_iff; split; apply Z.ltb_lt; lia).
  apply Z.ltb_lt in C. unfold blend. now rewrite Z.mul_0_l, Z.add_0_l.
Qed.

(** X16. Normalising a valid buffer that is already 512 by 512 never fails
    and returns a valid 512 by 512 buffer in which no channel, alpha
    included, is larger than in the source: opaque pixels are kept, fully
    transparent pixels become transparent black, and the alpha of every
    translucent pixel is strictly reduced. *)
Theorem resize_and_center_512_fades_512 (lanczos : image -> Z -> Z -> image)
  (img : image) :
  width img = 512 -> height img = 512 -> valid_image img ->
  exists out,
    resize_and_center_512 lanczos img = Ok out /\
    width out = 512 /\ height out = 512 /\
    forall x y, in_bounds img x y ->
      valid_pixel (px out x y) = true /\
      red (px out x y) <= red (px img x y) /\
      green (px out x y) <= green (px img x y) /\
      blue (px out x y) <= blue (px img x y) /\
      alpha (px out x y) <= alpha (px img x y) /\
      (alpha (px img x y) = 255 -> px out x y = px img x y) /\
      (alpha (px img x y) = 0 -> px out x y = RGBA 0 0 0 0) /\
      (0 < alpha (px img x y) < 255 -> alpha (px out x y) < alpha (px img x y)).
Proof.
  destruct img as [wd ht p]. cbn [width height]. intros -> -> Hv.
  eexists. split; [apply resize_and_center_512_on_512|].
  cbn [width height px]. split; [reflexivity|]. split; [reflexivity|].
  intros x y Hxy. pose proof (Hv x y Hxy) as Hp.
  destruct Hxy as [Hx Hy]. cbn [width height] in Hx, Hy.
  replace ((0 <=? x) && (x <? 0 + 512) && (0 <=? y) && (y <? 0 + 512)) with true
    by (symmetry; rewrite !andb_true_iff, !Z.leb_le, !Z.ltb_lt; lia).
  rewrite !Z.sub_0_r. cbn [px] in *.
  destruct (valid_pixel_bytes _ Hp) as (Pr & Pg & Pb).
  pose proof (valid_pixel_alpha _ Hp) as Pa.
  pose proof (blend_onto_clear _ _ Pa Pr).
  pose proof (blend_onto_clear _ _ Pa Pg).
  pose proof (blend_onto_clear _ _ Pa Pb).
  pose proof (blend_onto_clear _ _ Pa Pa).
  cbn [red green blue alpha].
  split; [apply valid_pixel_intro; lia|].
  repeat (split; [lia|]).
  split; [|split].
  - intros E. rewrite E, !blend_opaque by lia. rewrite <- E. apply pixel_eta.
  - intros E. rewrite E. unfold blend. now rewrite !Z.mul_0_r.
  - apply blend_fades.
Qed.

Lemma soft_badge_valid : valid_image Samples.soft_badge.
Proof.
  intros x y _. unfold Samples.soft_badge. cbn [px].
  now destruct (_ && _).
Qed.

Lemma resize_and_center_512_fades_512_witness :
  exists out,
    resize_and_center_512 Samples.no_resample Samples.soft_badge = Ok out /\
    width out = 512 /\ height out = 512 /\
    forall x y, in_bounds Samples.soft_badge x y ->
      valid_pixel (px out x y) = true /\
      red (px out x y) <= red (px Samples.soft_badge x y) /\
      green (px out x y) <= green (px Samples.soft_badge x y) /\
      blue (px out x y) <= blue (px Samples.soft_badge x y) /\
      alpha (px out x y) <= alpha (px Samples.soft_badge x y) /\
      (alpha (px Samples.soft_badge x y) = 255 ->
       px out x y = px Samples.soft_badge x y) /\
      (alpha (px Samples.soft_badge x y) = 0 -> px out x y = RGBA 0 0 0 0) /\
      (0 < alpha (px Samples.soft_badge x y) < 255 ->
       alpha (px out x y) < alpha (px Samples.soft_badge x y)).
Proof.
  apply (resize_and_center_512_fades_512 Samples.no_resample Samples.soft_badge).
  - reflexivity.
  - reflexivity.
  - exact soft_badge_valid.
Defined.

(** ** The hue shift: target descriptors *)

Lemma substring_beyond (s : string) (n m : nat) :
  (String.length s <= n)%nat -> substring n m s = EmptyString.
Proof.
  revert n m. induction s as [|c s IH]; intros n m H.
  - now destruct n, m.
  - destruct n as [|n]; [cbn in H; lia|]. cbn [substring]. apply IH. cbn in H. lia.
Qed.

Lemma substring_empty (s : string) : substring 0 0 s = EmptyString.
Proof. now destruct s. Qed.

Lemma int16_raises_ValueError (s : string) (e : exn) :
  PyStr.int16 s = Raise e -> e = ValueError.
Proof.
  unfold PyStr.int16.
  destruct (match PyStr.strip (list_ascii_of_string s) with
            | [] => (false, PyStr.strip (list_ascii_of_string s))
            | c :: r => _ end) as [neg l1].
  destruct (match l1 with [] => l1 | c :: r => _ end) as [|c l2]; [congruence|].
  destruct (Ascii.eqb c "_"); [congruence|].
  destruct (PyStr.digit_run 0 false (c :: l2)); [discriminate | congruence].
Qed.

Lemma target_channel_raises_ValueError (hex : string) (i : nat) (e : exn) :
  target_channel hex i = Raise e -> e = ValueError.
Proof.
  unfold target_channel.
  destruct (PyStr.int16 (PyStr.slice hex i (i + 2))) as [n|e'] eqn:E; cbn [rbind].
  - rewrite div_255. discriminate.
  - intros H. injection H as <-. exact (int16_raises_ValueError _ _ E).
Qed.

(** X17. A target descriptor of fewer than six characters makes the hue
    shift raise [ValueError], whatever the image and the multipliers: the
    slice of the blue channel is empty. *)
Theorem hue_shift_saturation_short_descriptor (img : image) (hex : string)
  (sat val : float) :
  (String.length hex <= 5)%nat ->
  hue_shift_saturation img hex sat val = Raise ValueError.
Proof.
  intros H. unfold hue_shift_saturation, target_hue, target_rgb.
  destruct (target_channel hex 1) as [r|e] eqn:Er; cbn [rbind].
  2:{ now rewrite (target_channel_raises_ValueError _ _ _ Er). }
  destruct (target_channel hex 3) as [g|e] eqn:Eg; cbn [rbind].
  2:{ now rewrite (target_channel_raises_ValueError _ _ _ Eg). }
  unfold target_channel, PyStr.slice. rewrite substring_beyond by exact H.
  reflexivity.
Qed.

Lemma hue_shift_saturation_short_descriptor_witness :
  hue_shift_saturation Samples.two_tone "#FFF" 1%float 1%float = Raise ValueError.
Proof.
  apply (hue_shift_saturation_short_descriptor Samples.two_tone "#FFF").
  cbn. lia.
Defined.

(** The hue shift depends on the descriptor through the target hue only. *)
Lemma hue_shift_saturation_same_hue (img : image) (hex hex' : string)
  (sat val : float) :
  target_hue hex = target_hue hex' ->
  hue_shift_saturation img hex sat val = hue_shift_saturation img hex' sat val.
Proof. intros H. unfold hue_shift_saturation. now rewrite H. Qed.

(** X18. The hue shift reads the characters 2 to 7 of the descriptor and
    nothing else: the first character is not required to be [#], and what
    follows the seventh is ignored. *)
Theorem hue_shift_saturation_reads_six_characters (img : image)
  (c c' c1 c2 c3 c4 c5 c6 : ascii) (tail tail' : string) (sat val : float) :
  let digits t :=
    String c1 (String c2 (String c3 (String c4 (String c5 (String c6 t))))) in
  hue_shift_saturation img (String c (digits tail)) sat val =
  hue_shift_saturation img (String c' (digits tail')) sat val.
Proof.
  intros digits. apply hue_shift_saturation_same_hue.
  unfold target_hue, target_rgb, target_channel, PyStr.slice, digits.
  cbn [substring Nat.add Nat.sub].
  now rewrite !substring_empty.
Qed.

(** X19. A gray target colour [#RRGGBB] (three equal channels) has hue 0,
    the hue of red: the hue shift towards it is the hue shift towards
    [#FF0000], on every image and for all multipliers. *)
Theorem hue_shift_saturation_gray_target (img : image) (hex : string) (c : Z)
  (sat val : float) :
  getrgb hex = Ok (c, c, c) ->
  target_hue hex = Ok 0%float /\
  hue_shift_saturation img hex sat val =
  hue_shift_saturation img "#FF0000" sat val.
Proof.
  intros H.
  assert (Hh : target_hue hex = Ok 0%float).
  { destruct (target_rgb_of_descriptor _ _ _ _ H) as (Hrgb & Hc & _).
    unfold target_hue. rewrite Hrgb. cbn [rbind].
    unfold colorsys.rgb_to_hsv. rewrite max3_units, min3_units by assumption.
    destruct (zmax3_cases c c c) as (HM & _). destruct (zmin3_cases c c c) as (Hm & _).
    replace (zmax3 c c c) with c by lia. replace (zmin3 c c c) with c by lia.
    destruct (pair_order c c Hc Hc) as [_ ->]. rewrite Z.eqb_refl. reflexivity. }
  split; [exact Hh|].
  apply hue_shift_saturation_same_hue. rewrite Hh. reflexivity.
Qed.

Lemma hue_shift_saturation_gray_target_witness :
  target_hue "#808080" = Ok 0%float /\
  hue_shift_saturation Samples.two_tone "#808080" 1%float 1%float =
  hue_shift_saturation Samples.two_tone "#FF0000" 1%float 1%float.
Proof.
  apply (hue_shift_saturation_gray_target Samples.two_tone "#808080" 128).
  reflexivity.
Defined.

(** ** The hue shift: multipliers *)

Lemma small_min2 (K : Z) (a b : float) :
  small K a -> small K b -> small K (PyFloat.min2 a b).
Proof. intros Ha Hb. unfold PyFloat.min2. now destruct (PrimFloat.ltb b a). Qed.

Lemma saturation_small (M m : Z) :
  0 <= M <= 255 -> 0 <= m <= M -> small 1 (saturation_of M m).
Proof.
  intros HM Hm. destruct (Z.eq_dec m M) as [->|Hne].
  - unfold saturation_of. rewrite Z.eqb_refl. apply small_zero.
  - apply (pair_saturation M m); lia.
Qed.

(** The conversion back to integers succeeds on every triple of moderate
    magnitude, and every channel fits a C [int]. *)
Lemma hsv_to_ints_moderate (h s v : float) :
  small 18 h -> small 7 s -> small 7 v ->
  exists ints,
    hsv_to_ints (h, s, v) = Ok ints /\
    Forall (fun k => Z.abs k < 2 ^ 31) (channels ints).
Proof.
  intros Hh Hs Hv. unfold hsv_to_ints, colorsys.hsv_to_rgb.
  assert (Hv255 : exists cv, PyFloat.to_int (PrimFloat.mul v 255%float) = Ok cv /\
                             Z.abs cv < 2 ^ 31).
  { assert (H : small 16 (PrimFloat.mul v 255%float)).
    { replace 16 with (7 + 8 + 1) by lia. apply small_mul; [assumption|apply small_255|lia]. }
    destruct (to_int_small 16 _ H ltac:(lia)) as (cv & E & Hb). exists cv.
    split; [exact E|]. assert (2 ^ 16 < 2 ^ 31) by reflexivity. lia. }
  destruct Hv255 as (cv & Ev & Hcv).
  destruct (PrimFloat.eqb s 0%float).
  { cbn [rbind]. rewrite Ev. cbn [rbind]. eexists. split; [reflexivity|].
    cbn [channels]. repeat constructor; exact Hcv. }
  assert (H6 : small 22 (PrimFloat.mul h 6%float)).
  { replace 22 with (18 + 3 + 1) by lia. apply small_mul; [assumption|apply small_6|lia]. }
  destruct (to_int_small 22 _ H6 ltac:(lia)) as (i & Ei & Hi).
  pose proof (trunc_fraction_small _ _ (small_mono 22 52 _ H6 ltac:(lia)) Ei) as Hf.
  rewrite Ei. cbn [rbind].
  set (f := PrimFloat.sub (PrimFloat.mul h 6%float) (PyFloat.of_int i)) in *.
  set (p := PrimFloat.mul v (PrimFloat.sub 1%float s)).
  set (q := PrimFloat.mul v (PrimFloat.sub 1%float (PrimFloat.mul s f))).
  set (t := PrimFloat.mul v
              (PrimFloat.sub 1%float (PrimFloat.mul s (PrimFloat.sub 1%float f)))).
  assert (Hp : exists cp, PyFloat.to_int (PrimFloat.mul p 255%float) = Ok cp /\
                          Z.abs cp < 2 ^ 31).
  { assert (H : small 26 (PrimFloat.mul p 255%float)).
    { replace 26 with (17 + 8 + 1) by lia. apply small_mul; [|apply small_255|lia].
      replace 17 with (7 + 9 + 1) by lia. apply small_mul; [assumption| |lia].
      replace 9 with (7 + 2) by lia. apply (small_sub 1 7); try lia;
        [apply small_1|assumption]. }
    destruct (to_int_small 26 _ H ltac:(lia)) as (cp & E & Hb). exists cp.
    split; [exact E|]. assert (2 ^ 26 < 2 ^ 31) by reflexivity. lia. }
  assert (Hq : exists cq, PyFloat.to_int (PrimFloat.mul q 255%float) = Ok cq /\
                          Z.abs cq < 2 ^ 31).
  { assert (H : small 28 (PrimFloat.mul q 255%float)).
    { replace 28 with (19 + 8 + 1) by lia. apply small_mul; [|apply small_255|lia].
      replace 19 with (7 + 11 + 1) by lia. apply small_mul; [assumption| |lia].
      replace 11 with (9 + 2) by lia. apply (small_sub 1 9); try lia; [apply small_1|].
      replace 9 with (7 + 1 + 1) by lia. apply small_mul; [assumption|assumption|lia]. }
    destruct (to_int_small 28 _ H ltac:(lia)) as (cq & E & Hb). exists cq.
    split; [exact E|]. assert (2 ^ 28 < 2 ^ 31) by reflexivity. lia. }
  assert (Ht : exists ct, PyFloat.to_int (PrimFloat.mul t 255%float) = Ok ct /\
                          Z.abs ct < 2 ^ 31).
  { assert (H : small 30 (PrimFloat.mul t 255%float)).
    { replace 30 with (21 + 8 + 1) by lia. apply small_mul; [|apply small_255|lia].
      replace 21 with (7 + 13 + 1) by lia. apply small_mul; [assumption| |lia].
      replace 13 with (11 + 2) by lia. apply (small_sub 1 11); try lia; [apply small_1|].
      replace 11 with (7 + 3 + 1) by lia. apply small_mul; [assumption| |lia].
      replace 3 with (1 + 2) by lia. apply (small_sub 1 1); try lia;
        [apply small_1|assumption]. }
    destruct (to_int_small 30 _ H ltac:(lia)) as (ct & E & Hb). exists ct.
    split; [exact E|]. assert (2 ^ 30 < 2 ^ 31) by reflexivity. lia. }
  destruct Hp as (cp & Hp & Hcp). destruct Hq as (cq & Hq & Hcq).
  destruct Ht as (ct & Ht & Hct).
  destruct (i mod 6 =? 0); [|destruct (i mod 6 =? 1); [|destruct (i mod 6 =? 2);
    [|destruct (i mod 6 =? 3); [|destruct (i mod 6 =? 4)]]]];
    cbn [rbind]; rewrite ?Ev, ?Hq, ?Ht, ?Hp; cbn [rbind];
    rewrite ?Ev, ?Hq, ?Ht, ?Hp; cbn [rbind];
    rewrite ?Ev, ?Hq, ?Ht, ?Hp; cbn [rbind];
    (eexists; split; [reflexivity|]); cbn [channels];
    repeat constructor; assumption.
Qed.

Lemma store_rgb_bytes (c stored : rgb) :
  store_rgb c = Ok stored -> Forall (fun k => 0 <= k <= 255) (channels stored).
Proof.
  intros H. rewrite (store_rgb_clips _ _ H).
  destruct c as [[r g] b]. cbn [channels]. unfold clip8.
  repeat constructor; lia.
Qed.

Lemma zmax3_byte (r g b : Z) :
  0 <= r <= 255 -> 0 <= g <= 255 -> 0 <= b <= 255 ->
  0 <= zmax3 r g b <= 255 /\ 0 <= zmin3 r g b <= zmax3 r g b.
Proof.
  intros Hr Hg Hb.
  pose proof (zmax3_cases r g b). pose proof (zmin3_cases r g b). lia.
Qed.

(** One iteration of the loop with multipliers of moderate size. *)
Lemma recolored_moderate (target_h sat val : float) (r g b : Z) :
  small 18 target_h -> moderate sat = true -> moderate val = true ->
  0 <= r <= 255 -> 0 <= g <= 255 -> 0 <= b <= 255 ->
  is_ok (recolored target_h sat val (r, g, b)) = true.
Proof.
  intros Hth Hsat Hval Hr Hg Hb.
  apply smallb_spec in Hsat, Hval.
  destruct (zmax3_byte r g b Hr Hg Hb) as [HM Hm].
  unfold recolored, shifted_hsv.
  destruct (pixel_hsv_bytes r g b Hr Hg Hb) as (h & -> & _). cbn [rbind].
  destruct (hsv_to_ints_moderate target_h
              (PyFloat.min2 (PrimFloat.mul (saturation_of (zmax3 r g b) (zmin3 r g b)) sat)
                 1%float)
              (PyFloat.min2 (PrimFloat.mul (unit_of (zmax3 r g b)) val) 1%float))
    as (ints & -> & Hfit); [assumption| | |].
  - apply small_min2; [|apply (small_mono 1); [apply small_1|lia]].
    replace 7 with (1 + 5 + 1) by lia.
    apply small_mul; [apply saturation_small; lia|assumption|lia].
  - apply small_min2; [|apply (small_mono 1); [apply small_1|lia]].
    replace 7 with (1 + 5 + 1) by lia.
    apply small_mul; [apply (unit_facts _ HM)|assumption|lia].
  - cbn [rbind]. rewrite (store_rgb_ok _ Hfit). reflexivity.
Qed.

(** The hue shift returns when every pixel can be recoloured, and then
    stores for every pixel what the loop body computes from the source
    pixel. *)
Lemma hue_shift_saturation_pointwise (img : image) (hex : string)
  (target_h sat val : float) :
  target_hue hex = Ok target_h ->
  (forall x y, in_bounds img x y ->
     is_ok (recolored target_h sat val (rgb_of (px img x y))) = true) ->
  exists out,
    hue_shift_saturation img hex sat val = Ok out /\
    width out = width img /\ height out = height img /\
    forall x y, in_bounds img x y ->
      alpha (px out x y) = alpha (px img x y) /\
      recolored target_h sat val (rgb_of (px img x y)) = Ok (rgb_of (px out x y)).
Proof.
  intros Hhue Hpix.
  destruct (grid_loop rgb (recolored target_h sat val)
              (width img) (height img) (convert_RGB img))
    as (pixels' & Hrun & Hstored).
  { intros x y Hx Hy. apply (Hpix x y (conj Hx Hy)). }
  exists (with_alpha (width img) (height img) pixels' (getchannel_A img)).
  split.
  - unfold hue_shift_saturation, convert_RGBA. rewrite Hhue. cbn [rbind].
    unfold for_range at 1.
    rewrite (for_from_ext _
               (fun y => for_range (width img)
                           (fun x => store_step (recolored target_h sat val) x y))).
    + unfold for_range at 1 in Hrun. rewrite Hrun. reflexivity.
    + intros j t. unfold for_range. apply for_from_ext.
      intros i u. apply hue_shift_step_store.
  - split; [reflexivity|]. split; [reflexivity|].
    intros x y Hin.
    pose proof (Hstored x y (proj1 Hin) (proj2 Hin)) as Hs.
    unfold convert_RGB in Hs.
    unfold with_alpha, getchannel_A. cbn [px].
    destruct (pixels' x y) as [[r' g'] b'] eqn:Est.
    cbn [alpha rgb_of red green blue]. split; [reflexivity|exact Hs].
Qed.

Lemma recolored_bytes (target_h sat val : float) (p c : rgb) :
  recolored target_h sat val p = Ok c ->
  Forall (fun k => 0 <= k <= 255) (channels c).
Proof.
  unfold recolored.
  destruct (shifted_hsv target_h sat val p) as [t|]; cbn [rbind]; [|discriminate].
  destruct (hsv_to_ints t) as [n|]; cbn [rbind]; [|discriminate].
  apply store_rgb_bytes.
Qed.

(** X20. With a target colour [#RRGGBB] and multipliers of moderate size
    (finite, below 32 in magnitude, of either sign) the hue shift of a valid
    buffer never raises: no float is a NaN or an infinity when it is
    truncated, every integer handed to the pixel store fits a C [int], and
    the result is a valid buffer of the same size with the source's
    alpha. *)
Theorem hue_shift_saturation_moderate_multipliers (img : image) (hex : string)
  (tr tg tb : Z) (sat val : float) :
  getrgb hex = Ok (tr, tg, tb) ->
  valid_image img ->
  moderate sat = true -> moderate val = true ->
  exists out,
    hue_shift_saturation img hex sat val = Ok out /\
    width out = width img /\ height out = height img /\
    valid_image out /\
    forall x y, in_bounds img x y -> alpha (px out x y) = alpha (px img x y).
Proof.
  intros Hhex Hv Hsat Hval.
  destruct (target_hue_of_descriptor _ _ _ _ Hhex) as (target_h & Hhue & Hsmall).
  destruct (hue_shift_saturation_pointwise img hex target_h sat val Hhue)
    as (out & Hrun & Hw & Hh & Hpix).
  { intros x y Hin. destruct (valid_pixel_bytes _ (Hv x y Hin)) as (Hr & Hg & Hb).
    now apply recolored_moderate. }
  exists out. repeat (split; [assumption|]). split.
  - intros x y Hin.
    assert (Hin' : in_bounds img x y) by (unfold in_bounds in *; now rewrite <- Hw, <- Hh).
    destruct (Hpix x y Hin') as [Ha Hc].
    pose proof (recolored_bytes _ _ _ _ _ Hc) as Hb.
    pose proof (valid_pixel_alpha _ (Hv x y Hin')) as Halpha.
    unfold rgb_of in Hb. cbn [channels] in Hb.
    inversion Hb as [|? ? H1 Hb1]; subst. inversion Hb1 as [|? ? H2 Hb2]; subst.
    inversion Hb2 as [|? ? H3 _]; subst.
    rewrite <- (pixel_eta (px out x y)). apply valid_pixel_intro; lia.
  - intros x y Hin. apply (Hpix x y Hin).
Qed.

Lemma hue_shift_saturation_moderate_multipliers_witness :
  exists out,
    hue_shift_saturation Samples.two_tone "#FFB6C1" 1.5%float (-2)%float = Ok out /\
    width out = width Samples.two_tone /\ height out = height Samples.two_tone /\
    valid_image out /\
    forall x y, in_bounds Samples.two_tone x y ->
      alpha (px out x y) = alpha (px Samples.two_tone x y).
Proof.
  apply (hue_shift_saturation_moderate_multipliers Samples.two_tone "#FFB6C1"
           255 182 193 1.5%float (-2)%float).
  - reflexivity.
  - exact two_tone_valid.
  - reflexivity.
  - reflexivity.
Defined.

Lemma is_zero_mul_l (K : Z) (x y : float) :
  is_zero x = true -> small K y -> is_zero (PrimFloat.mul x y) = true.
Proof.
  unfold is_zero, small. rewrite FloatAxioms.mul_spec.
  destruct (Prim2SF x), (Prim2SF y); cbn; try discriminate; try contradiction;
    reflexivity.
Qed.

Lemma is_zero_mul_r (K : Z) (x y : float) :
  small K x -> is_zero y = true -> is_zero (PrimFloat.mul x y) = true.
Proof.
  unfold is_zero, small. rewrite FloatAxioms.mul_spec.
  destruct (Prim2SF x), (Prim2SF y); cbn; try discriminate; try contradiction;
    reflexivity.
Qed.

Lemma min2_zero (x : float) : is_zero x = true -> PyFloat.min2 x 1%float = x.
Proof.
  unfold is_zero, PyFloat.min2. rewrite FloatAxioms.ltb_spec.
  destruct (Prim2SF x); try discriminate. reflexivity.
Qed.

Lemma eqb_zero (x : float) : is_zero x = true -> PrimFloat.eqb x 0%float = true.
Proof.
  unfold is_zero. rewrite FloatAxioms.eqb_spec.
  destruct (Prim2SF x); try discriminate. reflexivity.
Qed.

(** With a zero saturation the three channels are the value. *)
Lemma recolored_without_saturation (target_h sat : float) (r g b : Z) :
  0 <= r <= 255 -> 0 <= g <= 255 -> 0 <= b <= 255 ->
  is_zero (PrimFloat.mul (saturation_of (zmax3 r g b) (zmin3 r g b)) sat) = true ->
  recolored target_h sat 1%float (r, g, b)
  = Ok (zmax3 r g b, zmax3 r g b, zmax3 r g b).
Proof.
  intros Hr Hg Hb Hz.
  destruct (zmax3_byte r g b Hr Hg Hb) as [HM Hm].
  unfold recolored, shifted_hsv.
  destruct (pixel_hsv_bytes r g b Hr Hg Hb) as (h & -> & _). cbn [rbind].
  rewrite (min2_zero _ Hz).
  destruct (unit_facts _ HM) as (_ & -> & Hint).
  unfold hsv_to_ints, colorsys.hsv_to_rgb. rewrite (eqb_zero _ Hz). cbn [rbind].
  rewrite Hint. cbn [rbind].
  assert (H31 : 2 ^ 8 < 2 ^ 31) by reflexivity. change (2 ^ 8) with 256 in H31.
  rewrite store_rgb_ok by (cbn [channels]; repeat constructor; lia).
  now rewrite clip8_byte.
Qed.

(** X21. With the value multiplier 1.0 and a saturation multiplier of
    moderate size (finite, below 32 in magnitude), the hue shift returns and
    leaves every gray pixel (three equal colour channels) exactly as it is,
    whatever the target colour. *)
Theorem hue_shift_saturation_keeps_gray_pixels (img : image) (hex : string)
  (tr tg tb : Z) (sat : float) :
  getrgb hex = Ok (tr, tg, tb) ->
  valid_image img ->
  moderate sat = true ->
  exists out,
    hue_shift_saturation img hex sat 1%float = Ok out /\
    forall x y, in_bounds img x y ->
      red (px img x y) = green (px img x y) ->
      green (px img x y) = blue (px img x y) ->
      px out x y = px img x y.
Proof.
  intros Hhex Hv Hsat.
  destruct (target_hue_of_descriptor _ _ _ _ Hhex) as (target_h & Hhue & Hsmall).
  destruct (hue_shift_saturation_pointwise img hex target_h sat 1%float Hhue)
    as (out & Hrun & _ & _ & Hpix).
  { intros x y Hin. destruct (valid_pixel_bytes _ (Hv x y Hin)) as (Hr & Hg & Hb).
    now apply recolored_moderate. }
  exists out. split; [exact Hrun|].
  intros x y Hin Hrg Hgb. destruct (Hpix x y Hin) as [Ha Hc].
  destruct (valid_pixel_bytes _ (Hv x y Hin)) as (Hr & Hg & Hb).
  unfold rgb_of in Hc at 1. rewrite recolored_without_saturation in Hc; try assumption.
  - injection Hc as E1 E2 E3.
    pose proof (zmax3_cases (red (px img x y)) (green (px img x y)) (blue (px img x y))).
    rewrite <- (pixel_eta (px out x y)), <- (pixel_eta (px img x y)).
    f_equal; lia.
  - apply (is_zero_mul_l 5); [|now apply smallb_spec].
    unfold saturation_of.
    pose proof (zmax3_cases (red (px img x y)) (green (px img x y)) (blue (px img x y))).
    pose proof (zmin3_cases (red (px img x y)) (green (px img x y)) (blue (px img x y))).
    replace (_ =? _) with true by (symmetry; apply Z.eqb_eq; lia).
    reflexivity.
Qed.

Lemma gray_and_colour_valid : valid_image gray_and_colour.
Proof.
  intros x y _. unfold gray_and_colour. cbn [px].
  destruct (x =? 0); [reflexivity|]. now destruct (x =? 1).
Qed.

Lemma hue_shift_saturation_keeps_gray_pixels_witness :
  exists out,
    hue_shift_saturation gray_and_colour "#FFB6C1" 1.5%float 1%float = Ok out /\
    forall x y, in_bounds gray_and_colour x y ->
      red (px gray_and_colour x y) = green (px gray_and_colour x y) ->
      green (px gray_and_colour x y) = blue (px gray_and_colour x y) ->
      px out x y = px gray_and_colour x y.
Proof.
  apply (hue_shift_saturation_keeps_gray_pixels gray_and_colour "#FFB6C1"
           255 182 193 1.5%float).
  - reflexivity.
  - exact gray_and_colour_valid.
  - reflexivity.
Defined.

(** X22. With the saturation multiplier 0.0 and the value multiplier 1.0
    the hue shift is a desaturation: every pixel becomes the gray of its
    largest colour channel, with its alpha, whatever the target colour. *)
Theorem hue_shift_saturation_zero_saturation (img : image) (hex : string)
  (tr tg tb : Z) :
  getrgb hex = Ok (tr, tg, tb) ->
  valid_image img ->
  exists out,
    hue_shift_saturation img hex 0%float 1%float = Ok out /\
    width out = width img /\ height out = height img /\
    forall x y, in_bounds img x y ->
      let M := Z.max (Z.max (red (px img x y)) (green (px img x y)))
                 (blue (px img x y)) in
      px out x y = RGBA M M M (alpha (px img x y)).
Proof.
  intros Hhex Hv.
  destruct (target_hue_of_descriptor _ _ _ _ Hhex) as (target_h & Hhue & Hsmall).
  assert (Hstep : forall x y, in_bounds img x y ->
            recolored target_h 0%float 1%float (rgb_of (px img x y))
            = Ok (let M := zmax3 (red (px img x y)) (green (px img x y))
                             (blue (px img x y)) in (M, M, M))).
  { intros x y Hin. destruct (valid_pixel_bytes _ (Hv x y Hin)) as (Hr & Hg & Hb).
    unfold rgb_of. apply recolored_without_saturation; try assumption.
    destruct (zmax3_byte _ _ _ Hr Hg Hb) as [HM Hm].
    apply (is_zero_mul_r 1); [apply saturation_small; lia|reflexivity]. }
  destruct (hue_shift_saturation_pointwise img hex target_h 0%float 1%float Hhue)
    as (out & Hrun & Hw & Hh & Hpix).
  { intros x y Hin. now rewrite Hstep. }
  exists out. repeat (split; [assumption|]).
  intros x y Hin M. destruct (Hpix x y Hin) as [Ha Hc].
  rewrite (Hstep x y Hin) in Hc. cbn zeta in Hc. rewrite zmax3_max in Hc.
  injection Hc as E1 E2 E3.
  rewrite <- (pixel_eta (px out x y)). subst M. now rewrite <- E1, <- E2, <- E3, Ha.
Qed.

Lemma hue_shift_saturation_zero_saturation_witness :
  exists out,
    hue_shift_saturation Samples.two_tone "#FFB6C1" 0%float 1%float = Ok out /\
    width out = width Samples.two_tone /\ height out = height Samples.two_tone /\
    forall x y, in_bounds Samples.two_tone x y ->
      let M := Z.max (Z.max (red (px Samples.two_tone x y))
                        (green (px Samples.two_tone x y)))
                 (blue (px Samples.two_tone x y)) in
      px out x y = RGBA M M M (alpha (px Samples.two_tone x y)).
Proof.
  apply (hue_shift_saturation_zero_saturation Samples.two_tone "#FFB6C1" 255 182 193).
  - reflexivity.
  - exact two_tone_valid.
Defined.

(** *** A multiplier that is not a number *)

Lemma nan_mul_r (x y : float) :
  not_a_number y = true -> not_a_number (PrimFloat.mul x y) = true.
Proof.
  unfold not_a_number. rewrite FloatAxioms.mul_spec.
  destruct (Prim2SF y); try discriminate. now destruct (Prim2SF x).
Qed.

Lemma nan_mul_l (x y : float) :
  not_a_number x = true -> not_a_number (PrimFloat.mul x y) = true.
Proof.
  unfold not_a_number. rewrite FloatAxioms.mul_spec.
  destruct (Prim2SF x); try discriminate. reflexivity.
Qed.

Lemma nan_sub_r (x y : float) :
  not_a_number y = true -> not_a_number (PrimFloat.sub x y) = true.
Proof.
  unfold not_a_number. rewrite FloatAxioms.sub_spec.
  destruct (Prim2SF y); try discriminate. now destruct (Prim2SF x).
Qed.

Lemma nan_min2 (x : float) :
  not_a_number x = true -> PyFloat.min2 x 1%float = x.
Proof.
  unfold not_a_number, PyFloat.min2. rewrite FloatAxioms.ltb_spec.
  destruct (Prim2SF x); try discriminate. reflexivity.
Qed.

Lemma nan_nonzero (x : float) :
  not_a_number x = true -> PrimFloat.eqb x 0%float = false.
Proof.
  unfold not_a_number. rewrite FloatAxioms.eqb_spec.
  destruct (Prim2SF x); try discriminate. reflexivity.
Qed.

Lemma to_int_nan (x : float) :
  not_a_number x = true -> PyFloat.to_int x = Raise ValueError.
Proof.
  unfold not_a_number, PyFloat.to_int. now destruct (Prim2SF x).
Qed.

(** One iteration of the loop when the saturation multiplier is a NaN. *)
Lemma recolored_nan (target_h sat val : float) (r g b : Z) :
  small 18 target_h -> not_a_number sat = true -> ordinary val = true ->
  0 <= r <= 255 -> 0 <= g <= 255 -> 0 <= b <= 255 ->
  recolored target_h sat val (r, g, b) = Raise ValueError.
Proof.
  intros Hth Hsat Hval Hr Hg Hb. apply smallb_spec in Hval.
  destruct (zmax3_byte r g b Hr Hg Hb) as [HM Hm].
  unfold recolored, shifted_hsv.
  destruct (pixel_hsv_bytes r g b Hr Hg Hb) as (h & -> & _). cbn [rbind].
  set (s0 := saturation_of (zmax3 r g b) (zmin3 r g b)).
  pose proof (nan_mul_r s0 sat Hsat) as Hs.
  rewrite (nan_min2 _ Hs).
  set (s := PrimFloat.mul s0 sat) in *.
  set (v := PyFloat.min2 (PrimFloat.mul (unit_of (zmax3 r g b)) val) 1%float).
  assert (Hv : exists cv, PyFloat.to_int (PrimFloat.mul v 255%float) = Ok cv).
  { assert (H : small 75 (PrimFloat.mul v 255%float)).
    { replace 75 with (66 + 8 + 1) by lia. apply small_mul; [|apply small_255|lia].
      apply small_min2; [|apply (small_mono 1); [apply small_1|lia]].
      replace 66 with (1 + 64 + 1) by lia.
      apply small_mul; [apply (unit_facts _ HM)|assumption|lia]. }
    destruct (to_int_small 75 _ H ltac:(lia)) as (cv & E & _). now exists cv. }
  destruct Hv as [cv Ev].
  unfold hsv_to_ints, colorsys.hsv_to_rgb. rewrite (nan_nonzero _ Hs).
  assert (H6 : small 22 (PrimFloat.mul target_h 6%float)).
  { replace 22 with (18 + 3 + 1) by lia. apply small_mul; [assumption|apply small_6|lia]. }
  destruct (to_int_small 22 _ H6 ltac:(lia)) as (i & -> & Hi). cbn [rbind].
  set (f := PrimFloat.sub (PrimFloat.mul target_h 6%float) (PyFloat.of_int i)).
  assert (Hp : PyFloat.to_int
                 (PrimFloat.mul (PrimFloat.mul v (PrimFloat.sub 1%float s)) 255%float)
               = Raise ValueError).
  { apply to_int_nan, nan_mul_l, nan_mul_r, nan_sub_r, Hs. }
  assert (Hq : PyFloat.to_int
                 (PrimFloat.mul
                    (PrimFloat.mul v (PrimFloat.sub 1%float (PrimFloat.mul s f)))
                    255%float) = Raise ValueError).
  { apply to_int_nan, nan_mul_l, nan_mul_r, nan_sub_r, nan_mul_l, Hs. }
  assert (Ht : PyFloat.to_int
                 (PrimFloat.mul
                    (PrimFloat.mul v
                       (PrimFloat.sub 1%float
                          (PrimFloat.mul s (PrimFloat.sub 1%float f))))
                    255%float) = Raise ValueError).
  { apply to_int_nan, nan_mul_l, nan_mul_r, nan_sub_r, nan_mul_l, Hs. }
  destruct (i mod 6 =? 0); [|destruct (i mod 6 =? 1); [|destruct (i mod 6 =? 2);
    [|destruct (i mod 6 =? 3); [|destruct (i mod 6 =? 4)]]]];
    cbn [rbind]; rewrite ?Ev, ?Hq, ?Ht, ?Hp; cbn [rbind];
    rewrite ?Ev, ?Hq, ?Ht, ?Hp; cbn [rbind]; reflexivity.
Qed.

(** The loop stops at its first pixel when that pixel cannot be
    recoloured. *)
Lemma hue_shift_saturation_first_pixel (img : image) (hex : string)
  (target_h sat val : float) (e : exn) :
  target_hue hex = Ok target_h ->
  0 < width img -> 0 < height img ->
  recolored target_h sat val (rgb_of (px img 0 0)) = Raise e ->
  hue_shift_saturation img hex sat val = Raise e.
Proof.
  intros Hhue Hw Hh Hfail.
  unfold hue_shift_saturation, convert_RGBA. rewrite Hhue. cbn [rbind].
  unfold for_range at 1.
  destruct (Z.to_nat (height img)) as [|n] eqn:En; [lia|].
  cbn [for_from]. unfold for_range at 1.
  destruct (Z.to_nat (width img)) as [|m] eqn:Em; [lia|].
  cbn [for_from]. rewrite hue_shift_step_store. unfold store_step, convert_RGB.
  rewrite Hfail. reflexivity.
Qed.

(** X23. A saturation multiplier that is a NaN makes the hue shift of
    every non-empty valid buffer raise [ValueError] (from the conversion of
    a channel to an integer), for every target colour [#RRGGBB] and every
    value multiplier of ordinary size. *)
Theorem hue_shift_saturation_nan_multiplier (img : image) (hex : string)
  (tr tg tb : Z) (sat val : float) :
  getrgb hex = Ok (tr, tg, tb) ->
  valid_image img -> 0 < width img -> 0 < height img ->
  not_a_number sat = true -> ordinary val = true ->
  hue_shift_saturation img hex sat val = Raise ValueError.
Proof.
  intros Hhex Hv Hw Hh Hsat Hval.
  destruct (target_hue_of_descriptor _ _ _ _ Hhex) as (target_h & Hhue & Hsmall).
  apply (hue_shift_saturation_first_pixel img hex target_h); try assumption.
  assert (Hin : in_bounds img 0 0) by (unfold in_bounds; lia).
  destruct (valid_pixel_bytes _ (Hv 0 0 Hin)) as (Hr & Hg & Hb).
  now apply recolored_nan.
Qed.

Lemma hue_shift_saturation_nan_multiplier_witness :
  hue_shift_saturation Samples.two_tone "#FFB6C1" nan 1%float = Raise ValueError.
Proof.
  apply (hue_shift_saturation_nan_multiplier Samples.two_tone "#FFB6C1" 255 182 193).
  - reflexivity.
  - exact two_tone_valid.
  - reflexivity.
  - reflexivity.
  - reflexivity.
  - reflexivity.
Defined.

(** The arithmetic of [int(a * (512.0 / b))]: [q0] is the quotient the
    division computes, [mq] and [mp] the mantissas of the rounded quotient
    and product, [U1] and [U2] the weights of their last places, and [T] the
    weight that the truncation to an integer divides by. *)
Lemma scaled_floor (a b Pa Pb q0 mq U1 mp U2 T : Z) :
  1 <= a <= b -> b < 2 ^ 36 ->
  0 < Pa -> 0 < Pb ->
  2 ^ 52 <= a * Pa < 2 ^ 53 -> 2 ^ 52 <= b * Pb < 2 ^ 53 ->
  q0 = 2 ^ 105 / (b * Pb) ->
  1 <= U1 <= 4 -> (mq - 1) * U1 <= q0 -> q0 + 1 <= (mq + 1) * U1 ->
  1 <= U2 <= 2 ^ 55 ->
  (mp - 1) * U2 <= a * Pa * mq -> a * Pa * mq + 1 <= (mp + 1) * U2 ->
  0 < T -> T * (U1 * U2 * Pb) = Pa * 2 ^ 96 ->
  512 * a / b - 1 <= mp / T <= 512 * a / b.
Proof.
  intros Hab Hb HPa HPb Hma Hmb Hq0 HU1 Hq1 Hq2 HU2 Hp1 Hp2 HT HTeq.
  set (ma := a * Pa) in *. set (mb := b * Pb) in *.
  set (F := 512 * a / b).
  assert (Hbpos : 0 < b) by lia.
  assert (HF1 : F * b <= 512 * a) by (subst F; rewrite Z.mul_comm; apply Z.mul_div_le; lia).
  assert (HF2 : 512 * a + 1 <= (F + 1) * b).
  { pose proof (Z.mul_succ_div_gt (512 * a) b Hbpos) as H. fold F in H. lia. }
  assert (Hmbpos : 0 < mb) by lia.
  assert (Hq0a : q0 * mb <= 2 ^ 105)
    by (subst q0; rewrite Z.mul_comm; apply Z.mul_div_le; lia).
  assert (Hq0b : 2 ^ 105 + 1 <= (q0 + 1) * mb).
  { pose proof (Z.mul_succ_div_gt (2 ^ 105) mb Hmbpos) as H. rewrite <- Hq0 in H. lia. }
  assert (Hq0pos : 0 <= q0) by (subst q0; apply Z.div_pos; lia).
  assert (Hmq : 0 <= mq) by nia.
  assert (Hmp : 0 <= mp) by nia.
  (* the error term *)
  assert (Herr : U1 * mb * (ma + U2) < 2 ^ 111).
  { assert (U1 * mb <= 4 * 2 ^ 53) by nia.
    assert (ma + U2 < 2 ^ 56) by (change (2 ^ 56) with (2 ^ 53 + 7 * 2 ^ 53); change (2 ^ 55) with (4 * 2 ^ 53) in HU2; lia).
    change (2 ^ 111) with (4 * 2 ^ 53 * 2 ^ 56). nia. }
  assert (HPa16 : 2 ^ 16 <= Pa).
  { destruct (Z_lt_le_dec Pa (2 ^ 16)) as [Hlt|]; [|assumption].
    assert (ma < 2 ^ 36 * 2 ^ 16) by (subst ma; nia).
    change (2 ^ 36 * 2 ^ 16) with (2 ^ 52) in *. lia. }
  set (W := U1 * U2 * Pb * b).
  assert (HW : 0 < W) by (subst W; nia).
  assert (HTW : T * W = b * Pa * 2 ^ 96).
  { subst W. replace (T * (U1 * U2 * Pb * b)) with (T * (U1 * U2 * Pb) * b) by ring.
    rewrite HTeq. ring. }
  (* mp * W from above and from below *)
  assert (Hup : mp * W <= ma * 2 ^ 105 + U1 * mb * (ma + U2)).
  { assert (A1 : mp * U2 <= ma * mq + U2) by lia.
    assert (A2 : mq * U1 <= q0 + U1) by lia.
    assert (A0 : 0 <= U1 * mb) by nia.
    assert (A3 : mp * U2 * (U1 * mb) <= (ma * mq + U2) * (U1 * mb))
      by (apply Z.mul_le_mono_nonneg_r; assumption).
    assert (A4 : ma * (mq * U1) * mb <= ma * (q0 + U1) * mb).
    { apply Z.mul_le_mono_nonneg_r; [lia|].
      apply Z.mul_le_mono_nonneg_l; lia. }
    assert (A5 : ma * (q0 * mb) <= ma * 2 ^ 105)
      by (apply Z.mul_le_mono_nonneg_l; lia).
    replace (mp * W) with (mp * U2 * (U1 * mb)) by (subst W mb; ring).
    replace ((ma * mq + U2) * (U1 * mb))
      with (ma * (mq * U1) * mb + U1 * mb * U2) in A3 by ring.
    replace (ma * (q0 + U1) * mb) with (ma * (q0 * mb) + U1 * mb * ma) in A4 by ring.
    replace (U1 * mb * (ma + U2)) with (U1 * mb * ma + U1 * mb * U2) by ring.
    lia. }
  assert (Hlow : ma * 2 ^ 105 - U1 * mb * (ma + U2) <= mp * W).
  { assert (A1 : ma * mq + 1 - U2 <= mp * U2) by lia.
    assert (A2 : q0 + 1 - U1 <= mq * U1) by lia.
    assert (A0 : 0 <= U1 * mb) by nia.
    assert (A3 : (ma * mq + 1 - U2) * (U1 * mb) <= mp * U2 * (U1 * mb))
      by (apply Z.mul_le_mono_nonneg_r; assumption).
    assert (A4 : ma * (q0 + 1 - U1) * mb <= ma * (mq * U1) * mb).
    { apply Z.mul_le_mono_nonneg_r; [lia|].
      apply Z.mul_le_mono_nonneg_l; lia. }
    assert (A5 : ma * 2 ^ 105 <= ma * ((q0 + 1) * mb))
      by (apply Z.mul_le_mono_nonneg_l; lia).
    replace (mp * W) with (mp * U2 * (U1 * mb)) by (subst W mb; ring).
    replace ((ma * mq + 1 - U2) * (U1 * mb))
      with (ma * (mq * U1) * mb + U1 * mb - U1 * mb * U2) in A3 by ring.
    replace (ma * (q0 + 1 - U1) * mb)
      with (ma * ((q0 + 1) * mb) - U1 * mb * ma) in A4 by ring.
    replace (U1 * mb * (ma + U2)) with (U1 * mb * ma + U1 * mb * U2) by ring.
    lia. }
  assert (Hmain : ma * 2 ^ 105 = 512 * a * Pa * 2 ^ 96).
  { subst ma. change (2 ^ 105) with (512 * 2 ^ 96). ring. }
  assert (Hgap : 2 ^ 111 <= Pa * 2 ^ 96).
  { change (2 ^ 111) with (2 ^ 15 * 2 ^ 96).
    apply Z.mul_le_mono_nonneg_r; [lia|].
    assert (2 ^ 15 < 2 ^ 16) by reflexivity. lia. }
  split.
  - (* F - 1 <= mp / T *)
    apply Z.div_le_lower_bound; [assumption|].
    assert (Hgoal : (F - 1) * T * W <= mp * W).
    { replace ((F - 1) * T * W) with ((F - 1) * (T * W)) by ring. rewrite HTW.
      assert (B1 : (F - 1) * (b * Pa * 2 ^ 96) = (F * b - b) * (Pa * 2 ^ 96)) by ring.
      assert (B2 : (F * b - b) * (Pa * 2 ^ 96) <= (512 * a - b) * (Pa * 2 ^ 96))
        by (apply Z.mul_le_mono_nonneg_r; lia).
      assert (B3 : (512 * a - b) * (Pa * 2 ^ 96)
                   = 512 * a * Pa * 2 ^ 96 - b * (Pa * 2 ^ 96)) by ring.
      assert (B4 : 1 * (Pa * 2 ^ 96) <= b * (Pa * 2 ^ 96))
        by (apply Z.mul_le_mono_nonneg_r; lia).
      lia. }
    rewrite Z.mul_comm. apply (Zmult_le_reg_r _ _ W); [lia|]. exact Hgoal.
  - (* mp / T <= F *)
    apply Z.lt_succ_r. apply Z.div_lt_upper_bound; [assumption|].
    assert (Hgoal : mp * W < T * Z.succ F * W).
    { replace (T * Z.succ F * W) with ((F + 1) * (T * W)) by ring. rewrite HTW.
      assert (B1 : (F + 1) * (b * Pa * 2 ^ 96) = ((F + 1) * b) * (Pa * 2 ^ 96)) by ring.
      assert (B2 : (512 * a + 1) * (Pa * 2 ^ 96) <= ((F + 1) * b) * (Pa * 2 ^ 96))
        by (apply Z.mul_le_mono_nonneg_r; lia).
      assert (B3 : (512 * a + 1) * (Pa * 2 ^ 96)
                   = 512 * a * Pa * 2 ^ 96 + Pa * 2 ^ 96) by ring.
      lia. }
    apply (Zmult_lt_reg_r _ _ W); [lia|]. exact Hgoal.
Qed.

(** [512.0 / y] for a float [y] with a full mantissa: the quotient computed
    before rounding, and the rounded result around it. *)
Lemma div_512_bracket (mb : positive) (eb : Z) :
  2 ^ 52 <= Zpos mb < 2 ^ 53 -> -52 <= eb <= 0 ->
  exists mq eq,
    SF64div (Prim2SF 512%float) (S754_finite false mb eb) = S754_finite false mq eq /\
    -96 - eb <= eq <= -96 - eb + 2 /\
    (Zpos mq - 1) * 2 ^ (eq - (-96 - eb)) <= 2 ^ 105 / Zpos mb /\
    2 ^ 105 / Zpos mb + 1 <= (Zpos mq + 1) * 2 ^ (eq - (-96 - eb)).
Proof.
  intros Hmb Heb.
  change (Prim2SF 512%float) with (S754_finite false 4503599627370496 (-43)).
  unfold SF64div, SFdiv. cbn [xorb].
  assert (Hcore : SFdiv_core_binary prec emax (Zpos 4503599627370496) (-43) (Zpos mb) eb
                  = (2 ^ 105 / Zpos mb, -96 - eb,
                     new_location (Zpos mb) (2 ^ 105 mod Zpos mb))).
  { unfold SFdiv_core_binary. rewrite (Zdigits2_53 (Zpos mb) Hmb).
    change (Zdigits2 (Zpos 4503599627370496)) with 53. rewrite fexp_value.
    replace (Z.min (Z.max (53 + -43 - (53 + eb) - 53) (-1074)) (-43 - eb))
      with (-96 - eb) by lia.
    replace (-43 - eb - (-96 - eb)) with 53 by lia.
    change (Z.shiftl (Zpos 4503599627370496) 53) with (2 ^ 105).
    unfold Z.div, Z.modulo.
    destruct (Z.div_eucl (2 ^ 105) (Zpos mb)) as [q r]. reflexivity. }
  rewrite Hcore.
  assert (Hq : 2 ^ 52 <= 2 ^ 105 / Zpos mb <= 2 ^ 53).
  { split.
    - apply Z.div_le_lower_bound; [lia|].
      change (2 ^ 105) with (2 ^ 52 * 2 ^ 53). nia.
    - apply Z.div_le_upper_bound; [lia|].
      change (2 ^ 105) with (2 ^ 52 * 2 ^ 53). nia. }
  assert (H52 : 0 < 2 ^ 52) by reflexivity.
  assert (Hd : Zdigits2 (2 ^ 105 / Zpos mb) <= 54).
  { apply Zdigits2_le; [lia|lia|]. change (2 ^ 54) with (2 * 2 ^ 53). lia. }
  destruct (binary_round_aux_bracket (2 ^ 105 / Zpos mb) (-96 - eb)
              (new_location (Zpos mb) (2 ^ 105 mod Zpos mb)))
    as (mq & eq & HQ & Heq & H1 & H2); try lia.
  exists mq, eq. split; [exact HQ|]. split; [lia|]. split; assumption.
Qed.

(** [int(a * (512.0 / b))] for [1 <= a <= b]: the exact quotient
    [512 * a / b] rounded down, or one less. *)
Lemma scale_to_512_spec (a b : Z) :
  1 <= a <= b -> b < 2 ^ 36 ->
  exists n,
    scale_to_512 a b = Ok n /\ 0 <= n /\
    512 * a / b - 1 <= n <= 512 * a / b.
Proof.
  intros Hab Hb.
  assert (H36 : 2 ^ 36 < 2 ^ 53) by reflexivity.
  destruct (of_int_exact a ltac:(lia)) as (ma & ea & HA & Hea & Hma & Hmar).
  destruct (of_int_exact b ltac:(lia)) as (mb & eb & HB & Heb & Hmb & Hmbr).
  assert (Hpa : 0 < 2 ^ (- ea)) by (apply Z.pow_pos_nonneg; lia).
  assert (Hpb : 0 < 2 ^ (- eb)) by (apply Z.pow_pos_nonneg; lia).
  assert (Hee : ea <= eb).
  { destruct (Z_le_gt_dec ea eb) as [|Hgt]; [assumption|exfalso].
    assert (E : 2 ^ (- eb) = 2 ^ (- ea) * 2 ^ (ea - eb)).
    { rewrite <- Z.pow_add_r by lia. f_equal. lia. }
    assert (2 ^ 1 <= 2 ^ (ea - eb)) by (apply Z.pow_le_mono_r; lia).
    change (2 ^ 1) with 2 in *.
    assert (2 * (a * 2 ^ (- ea)) <= b * 2 ^ (- eb)) by (rewrite E; nia).
    change (2 ^ 53) with (2 * 2 ^ 52) in *. lia. }
  unfold scale_to_512, PyFloat.div.
  assert (Hnz : PrimFloat.eqb (PyFloat.of_int b) 0%float = false)
    by (rewrite FloatAxioms.eqb_spec, HB; reflexivity).
  rewrite Hnz. cbn [rbind]. unfold PyFloat.to_int.
  rewrite FloatAxioms.mul_spec, FloatAxioms.div_spec, HA, HB.
  destruct (div_512_bracket mb eb Hmbr Heb) as (mq & eq & HQ & Heq & Hq1 & Hq2).
  rewrite HQ. unfold SF64mul, SFmul. cbn [xorb].
  assert (Hq0 : 2 ^ 105 / Zpos mb <= 2 ^ 53).
  { apply Z.div_le_upper_bound; [lia|].
    change (2 ^ 105) with (2 ^ 52 * 2 ^ 53). nia. }
  assert (HU1 : 1 <= 2 ^ (eq - (-96 - eb)) <= 4).
  { split.
    - change 1 with (2 ^ 0). apply Z.pow_le_mono_r; lia.
    - change 4 with (2 ^ 2). apply Z.pow_le_mono_r; lia. }
  assert (Hmq : Zpos mq < 2 ^ 54).
  { change (2 ^ 54) with (2 * 2 ^ 53). nia. }
  assert (Hprod : Zdigits2 (Zpos (ma * mq)) <= 107).
  { apply Zdigits2_le; [lia|lia|]. rewrite Pos2Z.inj_mul.
    change (2 ^ 107) with (2 ^ 53 * 2 ^ 54). nia. }
  destruct (binary_round_aux_bracket (Zpos (ma * mq)) (ea + eq) loc_Exact)
    as (mp & ep & HP & Hep & Hp1 & Hp2); try lia.
  rewrite HP. eexists. split; [reflexivity|].
  assert (Hneg : 0 <= - ep) by lia.
  rewrite Z.shiftl_div_pow2 by lia.
  assert (HT : 0 < 2 ^ (- ep)) by (apply Z.pow_pos_nonneg; lia).
  split; [apply Z.div_pos; lia|].
  rewrite Pos2Z.inj_mul in Hp1, Hp2. rewrite Hma in Hp1, Hp2, Hmar.
  rewrite Hmb in Hq1, Hq2, Hmbr.
  assert (HU2 : 1 <= 2 ^ (ep - (ea + eq)) <= 2 ^ 55).
  { split.
    - change 1 with (2 ^ 0). apply Z.pow_le_mono_r; lia.
    - apply Z.pow_le_mono_r; lia. }
  assert (HTeq : 2 ^ (- ep) * (2 ^ (eq - (-96 - eb)) * 2 ^ (ep - (ea + eq)) * 2 ^ (- eb))
                 = 2 ^ (- ea) * 2 ^ 96).
  { rewrite <- !Z.pow_add_r by lia. f_equal. lia. }
  exact (scaled_floor a b _ _ _ _ _ _ _ _ Hab Hb Hpa Hpb Hmar Hmbr eq_refl
           HU1 Hq1 Hq2 HU2 Hp1 Hp2 HT HTeq).
Qed.

(** ** Canvas normalisation of images of every size *)

Lemma new_size_spec (w h : Z) :
  1 <= w < 2 ^ 36 -> 1 <= h < 2 ^ 36 ->
  exists n,
    new_size w h = Ok (if w >? h then (512, n) else (n, 512)) /\
    0 <= n <= 512 /\
    512 * Z.min w h / Z.max w h - 1 <= n <= 512 * Z.min w h / Z.max w h.
Proof.
  intros Hw Hh. unfold new_size.
  destruct (Z.gtb_spec w h) as [Hgt|Hle].
  - destruct (scale_to_512_spec h w ltac:(lia) ltac:(lia)) as (n & -> & Hn0 & Hn).
    exists n. split; [reflexivity|].
    rewrite Z.min_r, Z.max_l by lia.
    assert (512 * h / w <= 512) by (apply Z.div_le_upper_bound; lia).
    lia.
  - destruct (scale_to_512_spec w h ltac:(lia) ltac:(lia)) as (n & -> & Hn0 & Hn).
    exists n. split; [reflexivity|].
    rewrite Z.min_l, Z.max_r by lia.
    assert (512 * w / h <= 512) by (apply Z.div_le_upper_bound; lia).
    lia.
Qed.

(** X24. The size of the resized copy, for every source size below [2^36]
    in both dimensions: the computation never raises, the longer side
    becomes 512 (the height when the sides are equal), and the shorter side
    becomes the exact proportional length [512 * short / long] rounded down,
    or one pixel less; so it lies between 0 and 512. *)
Theorem new_size_within_one_pixel (w h : Z) :
  1 <= w < 2 ^ 36 -> 1 <= h < 2 ^ 36 ->
  exists new_w new_h,
    new_size w h = Ok (new_w, new_h) /\
    Z.max new_w new_h = 512 /\ 0 <= Z.min new_w new_h /\
    (h < w -> new_w = 512 /\ 512 * h / w - 1 <= new_h <= 512 * h / w) /\
    (w <= h -> new_h = 512 /\ 512 * w / h - 1 <= new_w <= 512 * w / h).
Proof.
  intros Hw Hh. destruct (new_size_spec w h Hw Hh) as (n & Hsize & Hn & Hf).
  destruct (Z.gtb_spec w h) as [Hgt|Hle].
  - exists 512, n. split; [exact Hsize|]. rewrite Z.min_r, Z.max_l in Hf by lia.
    repeat split; lia.
  - exists n, 512. split; [exact Hsize|]. rewrite Z.min_l, Z.max_r in Hf by lia.
    repeat split; lia.
Qed.

Lemma new_size_within_one_pixel_witness :
  exists new_w new_h,
    new_size 300 600 = Ok (new_w, new_h) /\
    Z.max new_w new_h = 512 /\ 0 <= Z.min new_w new_h /\
    (600 < 300 -> new_w = 512 /\ 512 * 600 / 300 - 1 <= new_h <= 512 * 600 / 300) /\
    (300 <= 600 -> new_h = 512 /\ 512 * 300 / 600 - 1 <= new_w <= 512 * 300 / 600).
Proof.
  apply (new_size_within_one_pixel 300 600); split; try lia; reflexivity.
Defined.

(** Normalisation of an image of moderate size and aspect ratio. *)
Lemma normalise_moderate
  (lanczos : image -> Z -> Z -> image) (img : image) :
  (forall im w h, width (lanczos im w h) = w /\ height (lanczos im w h) = h) ->
  1 <= width img < 2 ^ 36 -> 1 <= height img < 2 ^ 36 ->
  Z.max (width img) (height img) <= 256 * Z.min (width img) (height img) ->
  exists new_w new_h resized out,
    new_size (width img) (height img) = Ok (new_w, new_h) /\
    Z.max new_w new_h = 512 /\ 1 <= Z.min new_w new_h /\
    resize lanczos img new_w new_h = Ok resized /\
    width resized = new_w /\ height resized = new_h /\
    resize_and_center_512 lanczos img = Ok out /\
    width out = 512 /\ height out = 512 /\
    0 <= (512 - new_w) / 2 /\ (512 - new_w) / 2 + new_w <= 512 /\
    0 <= (512 - new_h) / 2 /\ (512 - new_h) / 2 + new_h <= 512 /\
    forall x y,
      px out x y =
        if ((512 - new_w) / 2 <=? x) && (x <? (512 - new_w) / 2 + new_w) &&
           ((512 - new_h) / 2 <=? y) && (y <? (512 - new_h) / 2 + new_h)
        then
          let s := px resized (x - (512 - new_w) / 2) (y - (512 - new_h) / 2) in
          RGBA (blend (alpha s) 0 (red s)) (blend (alpha s) 0 (green s))
               (blend (alpha s) 0 (blue s)) (blend (alpha s) 0 (alpha s))
        else RGBA 0 0 0 0.
Proof.
  intros Hlanczos Hw Hh Hratio.
  destruct (new_size_spec _ _ Hw Hh) as (n & Hsize & Hn & Hf).
  assert (Hn1 : 1 <= n).
  { assert (2 <= 512 * Z.min (width img) (height img)
                 / Z.max (width img) (height img))
      by (apply Z.div_le_lower_bound; lia).
    lia. }
  set (new_w := if width img >? height img then 512 else n).
  set (new_h := if width img >? height img then n else 512).
  assert (Hsize' : new_size (width img) (height img) = Ok (new_w, new_h))
    by (rewrite Hsize; subst new_w new_h; now destruct (_ >? _)).
  assert (Hdims : Z.max new_w new_h = 512 /\ 1 <= Z.min new_w new_h /\
                  1 <= new_w <= 512 /\ 1 <= new_h <= 512)
    by (subst new_w new_h; destruct (_ >? _); lia).
  destruct Hdims as (Hmax & Hmin & Hnw & Hnh).
  assert (Hres : exists resized,
             resize lanczos img new_w new_h = Ok resized /\
             width resized = new_w /\ height resized = new_h).
  { unfold resize.
    destruct ((width img =? new_w) && (height img =? new_h)) eqn:Esame.
    - exists img. apply andb_true_iff in Esame as [E1 E2].
      apply Z.eqb_eq in E1, E2. auto.
    - replace ((new_w <? 1) || (new_h <? 1)) with false
        by (symmetry; apply orb_false_iff; split; apply Z.ltb_ge; lia).
      exists (lanczos img new_w new_h). split; [reflexivity|apply Hlanczos]. }
  destruct Hres as (resized & Hres & Hrw & Hrh).
  exists new_w, new_h, resized.
  rewrite (resize_and_center_512_pastes_centered _ _ _ _ _ Hsize' Hres).
  unfold paste. rewrite !Z.eqb_refl. cbn [andb negb].
  eexists. split; [exact Hsize'|]. split; [exact Hmax|]. split; [exact Hmin|].
  split; [exact Hres|]. split; [exact Hrw|]. split; [exact Hrh|].
  split; [reflexivity|]. cbn [width height px new_RGBA].
  split; [reflexivity|]. split; [reflexivity|].
  assert (0 <= (512 - new_w) / 2) by (apply Z.div_pos; lia).
  assert (0 <= (512 - new_h) / 2) by (apply Z.div_pos; lia).
  assert (2 * ((512 - new_w) / 2) <= 512 - new_w) by (apply Z.mul_div_le; lia).
  assert (2 * ((512 - new_h) / 2) <= 512 - new_h) by (apply Z.mul_div_le; lia).
  repeat (split; [lia|]).
  intros x y. rewrite Hrw, Hrh. cbn [red green blue alpha].
  now destruct (_ && _).
Qed.


(** X25. Every image whose longer side is at most 256 times its shorter
    side (both below [2^36]) is normalised, given a resampler that returns
    the requested size: the result is 512 by 512; the resized copy, at
    least one pixel in each dimension, lies inside the canvas at the
    centring offsets; inside that box each pixel is the copy's pixel mixed
    through its own alpha with the empty canvas, and outside it every pixel
    is transparent black. *)
Theorem resize_and_center_512_centres_copy
  (lanczos : image -> Z -> Z -> image) (img : image) :
  (forall im w h, width (lanczos im w h) = w /\ height (lanczos im w h) = h) ->
  1 <= width img < 2 ^ 36 -> 1 <= height img < 2 ^ 36 ->
  Z.max (width img) (height img) <= 256 * Z.min (width img) (height img) ->
  exists new_w new_h resized out,
    new_size (width img) (height img) = Ok (new_w, new_h) /\
    Z.max new_w new_h = 512 /\ 1 <= Z.min new_w new_h /\
    resize lanczos img new_w new_h = Ok resized /\
    width resized = new_w /\ height resized = new_h /\
    resize_and_center_512 lanczos img = Ok out /\
    width out = 512 /\ height out = 512 /\
    0 <= (512 - new_w) / 2 /\ (512 - new_w) / 2 + new_w <= 512 /\
    0 <= (512 - new_h) / 2 /\ (512 - new_h) / 2 + new_h <= 512 /\
    forall x y,
      px out x y =
        if ((512 - new_w) / 2 <=? x) && (x <? (512 - new_w) / 2 + new_w) &&
           ((512 - new_h) / 2 <=? y) && (y <? (512 - new_h) / 2 + new_h)
        then
          let s := px resized (x - (512 - new_w) / 2) (y - (512 - new_h) / 2) in
          RGBA (blend (alpha s) 0 (red s)) (blend (alpha s) 0 (green s))
               (blend (alpha s) 0 (blue s)) (blend (alpha s) 0 (alpha s))
        else RGBA 0 0 0 0.
Proof.
  intros Hlanczos Hw Hh Hratio.
  destruct (normalise_moderate lanczos img Hlanczos Hw Hh Hratio)
    as (new_w & new_h & resized & out & H).
  exists new_w, new_h, resized, out. exact H.
Qed.

Lemma resize_and_center_512_centres_copy_witness :
  exists new_w new_h resized out,
    new_size (width tall_red) (height tall_red) = Ok (new_w, new_h) /\
    Z.max new_w new_h = 512 /\ 1 <= Z.min new_w new_h /\
    resize nearest tall_red new_w new_h = Ok resized /\
    width resized = new_w /\ height resized = new_h /\
    resize_and_center_512 nearest tall_red = Ok out /\
    width out = 512 /\ height out = 512 /\
    0 <= (512 - new_w) / 2 /\ (512 - new_w) / 2 + new_w <= 512 /\
    0 <= (512 - new_h) / 2 /\ (512 - new_h) / 2 + new_h <= 512 /\
    forall x y,
      px out x y =
        if ((512 - new_w) / 2 <=? x) && (x <? (512 - new_w) / 2 + new_w) &&
           ((512 - new_h) / 2 <=? y) && (y <? (512 - new_h) / 2 + new_h)
        then
          let s := px resized (x - (512 - new_w) / 2) (y - (512 - new_h) / 2) in
          RGBA (blend (alpha s) 0 (red s)) (blend (alpha s) 0 (green s))
               (blend (alpha s) 0 (blue s)) (blend (alpha s) 0 (alpha s))
        else RGBA 0 0 0 0.
Proof.
  apply (resize_and_center_512_centres_copy nearest tall_red).
  - intros im w h. split; reflexivity.
  - cbn. split; [lia|reflexivity].
  - cbn. split; [lia|reflexivity].
  - cbn. lia.
Defined.

(** X26. Every image whose longer side is more than 512 times its shorter
    side is rejected: the shorter side of the copy is computed as 0 and the
    resize request raises [ValueError], whatever the resampler. *)
Theorem resize_and_center_512_rejects_thin_images
  (lanczos : image -> Z -> Z -> image) (img : image) :
  1 <= width img < 2 ^ 36 -> 1 <= height img < 2 ^ 36 ->
  512 * Z.min (width img) (height img) < Z.max (width img) (height img) ->
  Z.min (width img) (height img) < Z.max (width img) (height img) /\
  resize_and_center_512 lanczos img = Raise ValueError.
Proof.
  intros Hw Hh Hthin. split; [lia|].
  destruct (new_size_spec _ _ Hw Hh) as (n & Hsize & Hn & Hf).
  assert (Hn0 : n = 0).
  { rewrite Z.div_small in Hf by lia. lia. }
  subst n. unfold resize_and_center_512, convert_RGBA. rewrite Hsize.
  destruct (Z.gtb_spec (width img) (height img)); cbn [rbind]; unfold resize.
  - replace (height img =? 0) with false by (symmetry; apply Z.eqb_neq; lia).
    rewrite andb_false_r. reflexivity.
  - replace (width img =? 0) with false by (symmetry; apply Z.eqb_neq; lia).
    reflexivity.
Qed.

Lemma resize_and_center_512_rejects_thin_images_witness :
  Z.min (width thin_red) (height thin_red) < Z.max (width thin_red) (height thin_red) /\
  resize_and_center_512 nearest thin_red = Raise ValueError.
Proof.
  apply (resize_and_center_512_rejects_thin_images nearest thin_red).
  - cbn. split; [lia|reflexivity].
  - cbn. split; [lia|reflexivity].
  - cbn. lia.
Defined.

(** ** A run of the standard mode on good input *)

Section GoodRun.

Variable lanczos : image -> Z -> Z -> image.
Variable float_of_string : string -> option float.
Variable w : world.

Hypothesis lanczos_size :
  forall im wd ht, width (lanczos im wd ht) = wd /\ height (lanczos im wd ht) = ht.

(** Each of the three recolourings returns on a valid buffer and keeps its
    size. *)
Lemma recolor_keeps_size (choice hex : string) (c : rgb) (o : options)
  (img : image) :
  getrgb hex = Ok c ->
  moderate (sat_mult o) = true -> moderate (val_mult o) = true ->
  (String.eqb choice "2" = true -> is_ok (getrgb (darker o)) = true) ->
  valid_image img ->
  exists rc,
    recolor choice hex o img = Ok rc /\
    width rc = width img /\ height rc = height img.
Proof.
  intros Hhex Hsat Hval Hdark Hv. destruct c as [[r g] b]. unfold recolor.
  destruct (String.eqb choice "1").
  - destruct (target_hue_of_descriptor _ _ _ _ Hhex) as (target_h & Hhue & Hsmall).
    destruct (hue_shift_saturation_pointwise img hex target_h (sat_mult o)
                (val_mult o) Hhue) as (out & Hrun & Hw & Hh & _).
    { intros x y Hin. destruct (valid_pixel_bytes _ (Hv x y Hin)) as (Hr & Hg & Hb).
      now apply recolored_moderate. }
    exists out. auto.
  - destruct (String.eqb choice "2").
    + specialize (Hdark eq_refl).
      unfold grayscale_colorize, ImageOps_colorize.
      destruct (getrgb (darker o)) as [[[dr dg] db]|]; [|discriminate].
      rewrite Hhex. cbn [rbind]. eexists. split; [reflexivity|]. split; reflexivity.
    + destruct (String.eqb_spec (mode o) "multiply") as [->|Hne].
      * rewrite (overlay_blend_multiply_branch _ _ _ _ _ Hhex).
        eexists. split; [reflexivity|]. split; reflexivity.
      * rewrite (overlay_blend_screen_branch _ _ _ _ _ _ Hhex Hne).
        eexists. split; [reflexivity|]. split; reflexivity.
Qed.

Lemma process_images_complete (choice hex : string) (c : rgb) (o : options)
  (paths : list string) :
  getrgb hex = Ok c ->
  moderate (sat_mult o) = true -> moderate (val_mult o) = true ->
  (String.eqb choice "2" = true -> is_ok (getrgb (darker o)) = true) ->
  Forall (processable w) paths ->
  outcome (process_images lanczos w choice hex o paths) = Ok tt /\
  written_paths (trace (process_images lanczos w choice hex o paths))
  = map standard_out_path paths /\
  List.length (filter is_opened (trace (process_images lanczos w choice hex o paths)))
  = List.length paths.
Proof.
  intros Hhex Hsat Hval Hdark Hall.
  induction Hall as [|p rest Hp Hrest IH]; [repeat split|].
  destruct Hp as (img & Hdec & Hv & Hw & Hh & Hratio & Hwrite).
  destruct (recolor_keeps_size choice hex c o img Hhex Hsat Hval Hdark Hv)
    as (rc & Hrc & Hrw & Hrh).
  destruct (normalise_moderate lanczos rc lanczos_size)
    as (nw & nh & resized & final & _ & _ & _ & _ & _ & _ & Hnorm & _);
    try (rewrite ?Hrw, ?Hrh; assumption).
  cbn [process_images].
  rewrite (process_image_saves lanczos w _ _ _ _ _ _ _ Hdec Hrc Hnorm), Hwrite.
  rewrite io_bind_ok. unfold trace, outcome in *. cbn [fst snd].
  destruct IH as (IH1 & IH2 & IH3).
  split; [exact IH1|]. split.
  - unfold written_paths in *. cbn [flat_map app map]. now rewrite IH2.
  - cbn [filter is_opened app List.length]. now rewrite IH3.
Qed.

(** X27. A run of the standard mode in which an approach and a colour
    [#RRGGBB] were chosen, the multipliers are of moderate size (finite,
    below 32 in magnitude), the dark
    colour of the duotone parses, and every selected file decodes to a valid
    buffer of moderate size and aspect ratio whose output can be written:
    the run ends normally, every selected file is opened, and one icon is
    written for each of them, in order, beside the source. *)
Theorem main_standard_run_completes (a : answers) (hex : string) (c : rgb)
  (o : options) :
  is_choice (approach_choice a) ["1"; "2"; "3"] = true ->
  target_hex a = Some hex ->
  getrgb hex = Ok c ->
  gather_options float_of_string a (text (approach_choice a)) hex = Ok o ->
  moderate (sat_mult o) = true -> moderate (val_mult o) = true ->
  (String.eqb (text (approach_choice a)) "2" = true ->
   is_ok (getrgb (darker o)) = true) ->
  Forall (processable w) (selected_paths a) ->
  outcome (main lanczos float_of_string w a) = Ok tt /\
  written_paths (trace (main lanczos float_of_string w a))
  = map standard_out_path (selected_paths a) /\
  List.length (filter is_opened (trace (main lanczos float_of_string w a)))
  = List.length (selected_paths a).
Proof.
  intros Hchoice Htarget Hhex Hopts Hsat Hval Hdark Hall.
  destruct (standard_choice _ Hchoice) as [Hblank Happ].
  assert (Hnonblank : blank (target_hex a) = false).
  { rewrite Htarget. destruct hex; [discriminate Hhex|reflexivity]. }
  unfold main. rewrite Hblank, Happ, Hchoice, Hnonblank. cbn [negb].
  destruct (selected_paths a) as [|p rest] eqn:Hpaths; [repeat split|].
  rewrite Htarget. cbn [text]. rewrite Hopts. cbn [lift io_bind app].
  destruct (process_images_complete (text (approach_choice a)) hex c o (p :: rest)
              Hhex Hsat Hval Hdark Hall) as (H1 & H2 & H3).
  destruct (process_images lanczos w (text (approach_choice a)) hex o (p :: rest))
    as [t r]. unfold trace, outcome in *. cbn [fst snd] in *. subst r.
  cbn [io_bind print emit fst snd]. split; [reflexivity|].
  unfold written_paths in *. rewrite flat_map_app, filter_app, List.length_app.
  cbn [flat_map filter is_opened List.length]. rewrite app_nil_r, H2, H3.
  split; [reflexivity|apply Nat.add_0_r].
Qed.

End GoodRun.

Lemma opaque_red_valid : valid_image Samples.opaque_red.
Proof. intros x y _. reflexivity. Qed.

Lemma main_standard_run_completes_witness :
  outcome (main nearest Samples.no_float Samples.demo_world good_file_run) = Ok tt /\
  written_paths (trace (main nearest Samples.no_float Samples.demo_world good_file_run))
  = map standard_out_path (selected_paths good_file_run) /\
  List.length (filter is_opened
                 (trace (main nearest Samples.no_float Samples.demo_world
                           good_file_run)))
  = List.length (selected_paths good_file_run).
Proof.
  apply (main_standard_run_completes nearest Samples.no_float Samples.demo_world
           (fun im wd ht => conj eq_refl eq_refl) good_file_run "#FFB6C1"
           (255, 182, 193) (Options 1%float 1%float "" "screen")).
  - reflexivity.
  - reflexivity.
  - reflexivity.
  - reflexivity.
  - reflexivity.
  - reflexivity.
  - intros H. discriminate H.
  - constructor; [|constructor].
    exists Samples.opaque_red. split; [reflexivity|].
    split; [exact opaque_red_valid|]. cbn [width height Samples.opaque_red].
    repeat split; try lia; reflexivity.
Defined.
